(** * postcodesio: a client of the postcodes.io geocoding service

    Shallow embedding of [postcodesio.go] and of the parts of the Go
    standard library it calls ([net/url], [encoding/json], [strconv],
    [io/ioutil]), followed by the properties of the package.

    Conventions.
    - A Go [string] is a sequence of bytes: Rocq's [string] over [ascii].
      [len(s)] is [String.length s], a number of bytes.
    - Go's [int] is the 64-bit integer of the usual targets, carried by [Z].
    - [float64] is IEEE 754 binary64, carried by [spec_float] at precision
      53 and maximal exponent 1024.
    - The package's functions return the pair Go returns, [(T, error)],
      with [option error] for the error and [None] for nil.  A library
      function that returns no value on failure returns a [result], the
      value or the error.
    - [http.Get] is a parameter of [Geocode]; the text of the errors of
      the standard library is a parameter of the functions that render
      an error.
    - The standard library is modelled after Go 1.22. *)

From Stdlib Require Import String Ascii ZArith NArith List Lia Bool.
From Stdlib Require Import SpecFloat PrimFloat FloatOps.
Import ListNotations.
Local Open Scope string_scope.
Local Open Scope bool_scope.
Set Warnings "-register-all,-inexact-float".


(* ================================================================= *)
(** ** Bytes and the [strings] package *)

Definition byteN (c : ascii) : N := N_of_ascii c.

(** [lo <= c && c <= hi] on bytes. *)
Definition inRange (lo hi c : ascii) : bool :=
  (byteN lo <=? byteN c)%N && (byteN c <=? byteN hi)%N.

Definition isLower (c : ascii) : bool := inRange "a" "z" c.
Definition isUpper (c : ascii) : bool := inRange "A" "Z" c.
Definition isDigit (c : ascii) : bool := inRange "0" "9" c.

(** The byte of the double quote, written by its code. *)
Definition dquote : ascii := "034"%char.

(** Membership of a byte in a [case a, b, c:] list. *)
Fixpoint oneOf (cs : list ascii) (c : ascii) : bool :=
  match cs with
  | [] => false
  | x :: cs' => Ascii.eqb c x || oneOf cs' c
  end.

(** [s[:n]] and [s[n:]]. *)
Fixpoint take (n : nat) (s : string) : string :=
  match n, s with
  | S n', String c s' => String c (take n' s')
  | _, _ => ""
  end.

Fixpoint drop (n : nat) (s : string) : string :=
  match n, s with
  | S n', String _ s' => drop n' s'
  | _, _ => s
  end.

(** [strings.IndexByte]; [None] stands for -1. *)
Fixpoint IndexByte (s : string) (c : ascii) : option nat :=
  match s with
  | "" => None
  | String x s' =>
      if Ascii.eqb x c then Some 0
      else match IndexByte s' c with
           | Some i => Some (S i)
           | None => None
           end
  end.

(** [strings.LastIndexByte]. *)
Fixpoint LastIndexByte (s : string) (c : ascii) : option nat :=
  match s with
  | "" => None
  | String x s' =>
      match LastIndexByte s' c with
      | Some i => Some (S i)
      | None => if Ascii.eqb x c then Some 0 else None
      end
  end.

(** [strings.Index] for an arbitrary separator. *)
Fixpoint Index (s sep : string) : option nat :=
  if prefix sep s then Some 0
  else match s with
       | "" => None
       | String _ s' =>
           match Index s' sep with
           | Some i => Some (S i)
           | None => None
           end
       end.

(** [strings.Cut] on a one-byte separator: before, after, found. *)
Fixpoint Cut (s : string) (sep : ascii) : string * string * bool :=
  match s with
  | "" => ("", "", false)
  | String x s' =>
      if Ascii.eqb x sep then ("", s', true)
      else let '(b, a, f) := Cut s' sep in (String x b, a, f)
  end.

(** [strings.Count] of a one-byte separator. *)
Fixpoint Count (s : string) (sep : ascii) : nat :=
  match s with
  | "" => 0
  | String x s' => (if Ascii.eqb x sep then 1 else 0) + Count s' sep
  end.

(** [strings.HasSuffix] for a one-byte suffix. *)
Fixpoint HasSuffixByte (s : string) (c : ascii) : bool :=
  match s with
  | "" => false
  | String x "" => Ascii.eqb x c
  | String _ s' => HasSuffixByte s' c
  end.

(** [strings.HasPrefix]. *)
Definition HasPrefix (s p : string) : bool := prefix p s.

(** [strings.Contains] for a one-byte pattern. *)
Definition ContainsByte (s : string) (c : ascii) : bool :=
  match IndexByte s c with Some _ => true | None => false end.

(** [s[:len(s)-1]]. *)
Definition dropLast (s : string) : string := take (String.length s - 1) s.

Definition lowerByte (c : ascii) : ascii :=
  if isUpper c then ascii_of_N (byteN c + 32) else c.

(** [strings.ToLower] on the ASCII letters. *)
Fixpoint ToLower (s : string) : string :=
  match s with
  | "" => ""
  | String c s' => String (lowerByte c) (ToLower s')
  end.

(* ================================================================= *)
(** ** Error values

    [type Error string] of the package, and the [error] values that
    reach it from the standard library. *)

Definition Error := string.

(** Go types named in a decoding error. *)
Inductive gotype : Type :=
| TInt | TFloat64 | TString | TInterface
| TCodes | TGeocodeResult | TPayload.

Inductive error : Type :=
| errorString (s : string)                       (* errors.New, fmt.Errorf *)
| EOF                                            (* io.EOF *)
| ErrUnexpectedEOF                               (* io.ErrUnexpectedEOF *)
| EscapeError (s : string)                       (* url.EscapeError *)
| InvalidHostError (s : string)                  (* url.InvalidHostError *)
| InvalidPort (colonPort : string)               (* fmt.Errorf("invalid port %q after host") *)
| urlError (Op URL : string) (Err : error)       (* *url.Error *)
| SyntaxError (c : option ascii) (context : string)     (* *json.SyntaxError *)
| UnmarshalTypeError (Value : string) (Type_ : gotype) (Field : list string)
                                                 (* *json.UnmarshalTypeError *)
| pkgError (e : Error)                           (* postcodesio.Error *)
| otherError (text : string).                    (* any other error value *)

(** A Go result [(T, error)] that carries no value on failure. *)
Definition result (T : Type) : Type := (T + error)%type.
Definition ok {T} (x : T) : result T := inl x.
Definition fail {T} (e : error) : result T := inr e.

Definition bind {T U} (r : result T) (k : T -> result U) : result U :=
  match r with
  | inl x => k x
  | inr e => inr e
  end.

Notation "x <- r ;; k" := (bind r (fun x => k))
  (at level 61, r at next level, right associativity).
Notation "' pat <- r ;; k" := (bind r (fun x => match x with pat => k end))
  (at level 61, pat pattern, r at next level, right associativity).

(* ================================================================= *)
(** ** [net/url] *)

Inductive encoding : Type :=
| encodePath | encodePathSegment | encodeHost | encodeZone
| encodeUserPassword | encodeQueryComponent | encodeFragment.

Definition isHostMode (mode : encoding) : bool :=
  match mode with encodeHost | encodeZone => true | _ => false end.

Definition ishex (c : ascii) : bool :=
  isDigit c || inRange "a" "f" c || inRange "A" "F" c.

Definition unhex (c : ascii) : N :=
  if isDigit c then (byteN c - byteN "0")%N
  else if inRange "a" "f" c then (byteN c - byteN "a" + 10)%N
  else if inRange "A" "F" c then (byteN c - byteN "A" + 10)%N
  else 0%N.

(** [upperhex[n]] for [n < 16]. *)
Definition upperhex (n : N) : ascii :=
  if (n <? 10)%N then ascii_of_N (byteN "0" + n) else ascii_of_N (byteN "A" + (n - 10)).

(** [unhex(a)<<4 | unhex(b)]. *)
Definition hexPair (a b : ascii) : ascii := ascii_of_N (N.lor (N.shiftl (unhex a) 4) (unhex b)).

(** [shouldEscape]: whether byte [c] must be %-escaped in the given part
    of a URL. *)
Definition shouldEscape (c : ascii) (mode : encoding) : bool :=
  if isLower c || isUpper c || isDigit c then false
  else if isHostMode mode
          && oneOf ["!"; "$"; "&"; "'"; "("; ")"; "*"; "+"; ","; ";"; "="; ":"; "["; "]"; "<"; ">"; dquote]%char c
  then false
  else if oneOf ["-"; "_"; "."; "~"]%char c then false
  else if oneOf ["$"; "&"; "+"; ","; "/"; ":"; ";"; "="; "?"; "@"]%char c
          && match mode with
             | encodePath | encodePathSegment | encodeUserPassword
             | encodeQueryComponent | encodeFragment => true
             | _ => false
             end
  then match mode with
       | encodePath => Ascii.eqb c "?"
       | encodePathSegment => oneOf ["/"; ";"; ","; "?"]%char c
       | encodeUserPassword => oneOf ["@"; "/"; "?"; ":"]%char c
       | encodeQueryComponent => true
       | _ => false
       end
  else if match mode with encodeFragment => true | _ => false end
          && oneOf ["!"; "("; ")"; "*"]%char c
  then false
  else true.

(** First pass of [unescape]: every [%] is followed by two hex digits
    (and, in a host, escapes and bytes are of the allowed kind). *)
Fixpoint unescapeCheck (s : string) (mode : encoding) : option error :=
  match s with
  | "" => None
  | String c rest =>
      if Ascii.eqb c "%" then
        match rest with
        | String a (String b rest') =>
            if ishex a && ishex b then
              if match mode with encodeHost => true | _ => false end
                 && (unhex a <? 8)%N && negb (String.eqb (take 3 s) "%25")
              then Some (EscapeError (take 3 s))
              else if match mode with encodeZone => true | _ => false end
                      && negb (String.eqb (take 3 s) "%25")
                      && negb (Ascii.eqb (hexPair a b) " ")
                      && shouldEscape (hexPair a b) encodeHost
              then Some (EscapeError (take 3 s))
              else unescapeCheck rest' mode
            else Some (EscapeError (take 3 s))
        | _ => Some (EscapeError (take 3 s))
        end
      else if isHostMode mode && (byteN c <? 128)%N && shouldEscape c encodeHost
      then Some (InvalidHostError (String c ""))
      else unescapeCheck rest mode
  end.

(** Second pass of [unescape]: decode the escapes. *)
Fixpoint unescapeDecode (s : string) (mode : encoding) : string :=
  match s with
  | "" => ""
  | String c rest =>
      if Ascii.eqb c "%" then
        match rest with
        | String a (String b rest') => String (hexPair a b) (unescapeDecode rest' mode)
        | _ => ""
        end
      else if Ascii.eqb c "+" then
        String (match mode with encodeQueryComponent => " "%char | _ => "+"%char end)
               (unescapeDecode rest mode)
      else String c (unescapeDecode rest mode)
  end.

Definition unescape (s : string) (mode : encoding) : result string :=
  match unescapeCheck s mode with
  | Some e => fail e
  | None => ok (unescapeDecode s mode)
  end.

(** [escape]. *)
Fixpoint escape (s : string) (mode : encoding) : string :=
  match s with
  | "" => ""
  | String c rest =>
      if Ascii.eqb c " " && match mode with encodeQueryComponent => true | _ => false end
      then String "+" (escape rest mode)
      else if shouldEscape c mode
      then String "%" (String (upperhex (N.shiftr (byteN c) 4))
                     (String (upperhex (N.land (byteN c) 15)) (escape rest mode)))
      else String c (escape rest mode)
  end.

Record Userinfo : Type := mkUserinfo {
  username : string;
  password : string;
  passwordSet : bool
}.

Record URL : Type := mkURL {
  Scheme : string;
  Opaque : string;
  User : option Userinfo;
  Host : string;
  Path : string;
  RawPath : string;
  OmitHost : bool;
  ForceQuery : bool;
  RawQuery : string;
  Fragment : string;
  RawFragment : string
}.

(** [stringContainsCTLByte]. *)
Fixpoint stringContainsCTLByte (s : string) : bool :=
  match s with
  | "" => false
  | String c s' =>
      if (byteN c <? 32)%N || (byteN c =? 127)%N then true
      else stringContainsCTLByte s'
  end.

(** The loop of [getScheme], with the bytes already read in [seen]
    (reversed order is avoided by carrying the prefix itself). *)
Fixpoint getSchemeFrom (seen rest rawURL : string) : result (string * string) :=
  match rest with
  | "" => ok ("", rawURL)
  | String c rest' =>
      if isLower c || isUpper c then getSchemeFrom (seen ++ String c "") rest' rawURL
      else if isDigit c || oneOf ["+"; "-"; "."]%char c then
        match seen with
        | "" => ok ("", rawURL)
        | _ => getSchemeFrom (seen ++ String c "") rest' rawURL
        end
      else if Ascii.eqb c ":" then
        match seen with
        | "" => fail (errorString "missing protocol scheme")
        | _ => ok (seen, rest')
        end
      else ok ("", rawURL)
  end.

Definition getScheme (rawURL : string) : result (string * string) :=
  getSchemeFrom "" rawURL rawURL.

(** [validOptionalPort]. *)
Fixpoint allDigits (s : string) : bool :=
  match s with
  | "" => true
  | String c s' => isDigit c && allDigits s'
  end.

Definition validOptionalPort (port : string) : bool :=
  match port with
  | "" => true
  | String c ds => Ascii.eqb c ":" && allDigits ds
  end.

(** [validUserinfo]. *)
Fixpoint validUserinfo (s : string) : bool :=
  match s with
  | "" => true
  | String c s' =>
      (isUpper c || isLower c || isDigit c
       || oneOf ["-"; "."; "_"; ":"; "~"; "!"; "$"; "&"; "'"; "("; ")"; "*"; "+"; ","; ";"; "="; "%"; "@"]%char c)
      && validUserinfo s'
  end.

(** [parseHost]. *)
Definition parseHost (host : string) : result string :=
  if HasPrefix host "[" then
    match LastIndexByte host "]" with
    | None => fail (errorString "missing ']' in host")
    | Some i =>
        let colonPort := drop (i + 1) host in
        if negb (validOptionalPort colonPort) then fail (InvalidPort colonPort)
        else
          match Index (take i host) "%25" with
          | Some zone =>
              host1 <- unescape (take zone host) encodeHost ;;
              host2 <- unescape (take (i - zone) (drop zone host)) encodeZone ;;
              host3 <- unescape (drop i host) encodeHost ;;
              ok (host1 ++ host2 ++ host3)
          | None => unescape host encodeHost
          end
    end
  else
    match LastIndexByte host ":" with
    | Some i =>
        let colonPort := drop i host in
        if negb (validOptionalPort colonPort) then fail (InvalidPort colonPort)
        else unescape host encodeHost
    | None => unescape host encodeHost
    end.

(** [parseAuthority]. *)
Definition parseAuthority (authority : string) : result (option Userinfo * string) :=
  match LastIndexByte authority "@" with
  | None =>
      host <- parseHost authority ;;
      ok (None, host)
  | Some i =>
      host <- parseHost (drop (i + 1) authority) ;;
      let userinfo := take i authority in
      if negb (validUserinfo userinfo) then fail (errorString "net/url: invalid userinfo")
      else if negb (ContainsByte userinfo ":") then
        u <- unescape userinfo encodeUserPassword ;;
        ok (Some (mkUserinfo u "" false), host)
      else
        let '(uname, pw, _) := Cut userinfo ":" in
        u <- unescape uname encodeUserPassword ;;
        p <- unescape pw encodeUserPassword ;;
        ok (Some (mkUserinfo u p true), host)
  end.

(** [URL.setPath]: the decoded path and, when the default encoding of
    the path is not the text received, that text as [RawPath]. *)
Definition setPath (p : string) : result (string * string) :=
  path <- unescape p encodePath ;;
  if String.eqb p (escape path encodePath) then ok (path, "")
  else ok (path, p).

(** The query of [parse]: a lone [?] at the end forces an empty query,
    otherwise the query is what follows the first [?].  The result is
    the text before the query, [RawQuery] and [ForceQuery]. *)
Definition splitQuery (rest : string) : string * string * bool :=
  if HasSuffixByte rest "?" && Nat.eqb (Count rest "?") 1
  then (dropLast rest, "", true)
  else let '(b, a, _) := Cut rest "?" in (b, a, false).

(** [parse(rawURL, viaRequest)]. *)
Definition parse (rawURL : string) (viaRequest : bool) : result URL :=
  if stringContainsCTLByte rawURL
  then fail (errorString "net/url: invalid control character in URL")
  else if String.eqb rawURL "" && viaRequest then fail (errorString "empty url")
  else if String.eqb rawURL "*"
  then ok (mkURL "" "" None "" "*" "" false false "" "" "")
  else
    '(scheme0, rest0) <- getScheme rawURL ;;
    let scheme := ToLower scheme0 in
    let '(rest1, rawQuery, forceQuery) := splitQuery rest0 in
    if negb (HasPrefix rest1 "/") && negb (String.eqb scheme "")
    then ok (mkURL scheme rest1 None "" "" "" false forceQuery rawQuery "" "")
    else if negb (HasPrefix rest1 "/") && viaRequest
    then fail (errorString "invalid URI for request")
    else if negb (HasPrefix rest1 "/")
            && ContainsByte (fst (fst (Cut rest1 "/"))) ":"
    then fail (errorString "first path segment in URL cannot contain colon")
    else
      '(user, host, omitHost, rest2) <-
        (if (negb (String.eqb scheme "")
             || negb viaRequest && negb (HasPrefix rest1 "///"))
            && HasPrefix rest1 "//"
         then
           let authority0 := drop 2 rest1 in
           let '(authority, rest2) :=
             match IndexByte authority0 "/" with
             | Some i => (take i authority0, drop i authority0)
             | None => (authority0, "")
             end in
           '(user, host) <- parseAuthority authority ;;
           ok (user, host, false, rest2)
         else if negb (String.eqb scheme "") && HasPrefix rest1 "/"
         then ok (None, "", true, rest1)
         else ok (None, "", false, rest1)) ;;
      '(path, rawPath) <- setPath rest2 ;;
      ok (mkURL scheme "" user host path rawPath omitHost forceQuery rawQuery "" "").

(** [url.ParseRequestURI]. *)
Definition ParseRequestURI (rawURL : string) : result URL :=
  match parse rawURL true with
  | inl u => ok u
  | inr e => fail (urlError "parse" rawURL e)
  end.

(** [validEncoded]. *)
Fixpoint validEncoded (s : string) (mode : encoding) : bool :=
  match s with
  | "" => true
  | String c s' =>
      (oneOf ["!"; "$"; "&"; "'"; "("; ")"; "*"; "+"; ","; ";"; "="; ":"; "@"; "["; "]"; "%"]%char c
       || negb (shouldEscape c mode))
      && validEncoded s' mode
  end.

(** [URL.EscapedPath]. *)
Definition EscapedPath (u : URL) : string :=
  if negb (String.eqb (RawPath u) "") && validEncoded (RawPath u) encodePath
     && match unescape (RawPath u) encodePath with
        | inl p => String.eqb p (Path u)
        | inr _ => false
        end
  then RawPath u
  else if String.eqb (Path u) "*" then "*"
  else escape (Path u) encodePath.

(** [URL.EscapedFragment]. *)
Definition EscapedFragment (u : URL) : string :=
  if negb (String.eqb (RawFragment u) "") && validEncoded (RawFragment u) encodeFragment
     && match unescape (RawFragment u) encodeFragment with
        | inl f => String.eqb f (Fragment u)
        | inr _ => false
        end
  then RawFragment u
  else escape (Fragment u) encodeFragment.

(** [Userinfo.String]. *)
Definition Userinfo_String (ui : Userinfo) : string :=
  escape (username ui) encodeUserPassword
  ++ (if passwordSet ui then ":" ++ escape (password ui) encodeUserPassword else "").

Definition isSome {A} (o : option A) : bool :=
  match o with Some _ => true | None => false end.

(** [URL.String]. *)
Definition URL_String (u : URL) : string :=
  let buf0 := if negb (String.eqb (Scheme u) "") then Scheme u ++ ":" else "" in
  let buf1 :=
    if negb (String.eqb (Opaque u) "") then buf0 ++ Opaque u
    else
      let hostSet := negb (String.eqb (Host u) "") in
      let auth :=
        if negb (String.eqb (Scheme u) "") || hostSet || isSome (User u) then
          if OmitHost u && negb hostSet && negb (isSome (User u)) then ""
          else
            (if hostSet || negb (String.eqb (Path u) "") || isSome (User u) then "//" else "")
            ++ match User u with
               | Some ui => Userinfo_String ui ++ "@"
               | None => ""
               end
            ++ (if hostSet then escape (Host u) encodeHost else "")
        else "" in
      let path := EscapedPath u in
      let slash :=
        match path with
        | String c _ => if negb (Ascii.eqb c "/") && hostSet then "/" else ""
        | "" => ""
        end in
      let buf := buf0 ++ auth ++ slash in
      let dot :=
        if String.eqb buf "" && ContainsByte (fst (fst (Cut path "/"))) ":" then "./" else "" in
      buf ++ dot ++ path in
  let buf2 :=
    if ForceQuery u || negb (String.eqb (RawQuery u) "") then buf1 ++ "?" ++ RawQuery u
    else buf1 in
  if negb (String.eqb (Fragment u) "") then buf2 ++ "#" ++ EscapedFragment u else buf2.

(* ================================================================= *)
(** ** [encoding/json]: the scanner

    [json] is the value a complete JSON text denotes.  Strings are kept
    unquoted, numbers as their literal text (their conversion depends on
    the Go type they are stored into), object members in source order. *)

Inductive json : Type :=
| JNull
| JBool (b : bool)
| JNumber (lit : string)
| JString (s : string)
| JArray (elems : list json)
| JObject (members : list (string * json)).

(** Induction on JSON values, with the hypothesis on the elements of an
    array and on the members of an object. *)
Fixpoint json_induction (P : json -> Prop)
    (HNull : P JNull) (HBool : forall b, P (JBool b))
    (HNumber : forall lit, P (JNumber lit)) (HString : forall s, P (JString s))
    (HArray : forall es, Forall P es -> P (JArray es))
    (HObject : forall ms, Forall (fun m => P (snd m)) ms -> P (JObject ms))
    (v : json) {struct v} : P v :=
  let rec := json_induction P HNull HBool HNumber HString HArray HObject in
  match v with
  | JNull => HNull
  | JBool b => HBool b
  | JNumber lit => HNumber lit
  | JString s => HString s
  | JArray es =>
      HArray es
        ((fix all (es : list json) : Forall P es :=
            match es with
            | [] => Forall_nil P
            | e :: es' => Forall_cons e (rec e) (all es')
            end) es)
  | JObject ms =>
      HObject ms
        ((fix all (ms : list (string * json)) : Forall (fun m => P (snd m)) ms :=
            match ms with
            | [] => Forall_nil _
            | m :: ms' => Forall_cons m (rec (snd m)) (all ms')
            end) ms)
  end.

Definition isSpace (c : ascii) : bool := oneOf [" "; "009"; "013"; "010"]%char c.

(** *** [unquote] *)

(** UTF-8 of U+FFFD, [unicode.ReplacementChar]. *)
Definition replacementChar : string :=
  String "239" (String "191" (String "189" "")).

Definition cont (c : ascii) : bool := inRange "128" "191" c.

(** Byte patterns of the well-formed two-, three- and four-byte
    sequences of [utf8.DecodeRune]. *)
Definition utf8two (c0 c1 : ascii) : bool := inRange "194" "223" c0 && cont c1.

Definition utf8three (c0 c1 c2 : ascii) : bool :=
  (Ascii.eqb c0 "224" && inRange "160" "191" c1
   || inRange "225" "236" c0 && cont c1
   || Ascii.eqb c0 "237" && inRange "128" "159" c1
   || inRange "238" "239" c0 && cont c1)
  && cont c2.

Definition utf8four (c0 c1 c2 c3 : ascii) : bool :=
  (Ascii.eqb c0 "240" && inRange "144" "191" c1
   || inRange "241" "243" c0 && cont c1
   || Ascii.eqb c0 "244" && inRange "128" "143" c1)
  && cont c2 && cont c3.

(** [utf8.EncodeRune]. *)
Definition EncodeRune (r : N) : string :=
  let b (n : N) := ascii_of_N n in
  let low6 (n : N) := N.lor 128 (N.land n 63) in
  if (r <=? 127)%N then String (b r) ""
  else if (r <=? 2047)%N then
    String (b (N.lor 192 (N.shiftr r 6))) (String (b (low6 r)) "")
  else if (55296 <=? r)%N && (r <=? 57343)%N || (1114111 <? r)%N then replacementChar
  else if (r <=? 65535)%N then
    String (b (N.lor 224 (N.shiftr r 12)))
      (String (b (low6 (N.shiftr r 6))) (String (b (low6 r)) ""))
  else
    String (b (N.lor 240 (N.shiftr r 18)))
      (String (b (low6 (N.shiftr r 12)))
         (String (b (low6 (N.shiftr r 6))) (String (b (low6 r)) ""))).

(** The value of four hex digits, as [getu4] computes it. *)
Definition u4 (a b c d : ascii) : N :=
  (unhex a * 4096 + unhex b * 256 + unhex c * 16 + unhex d)%N.

Definition isHighSurrogate (r : N) : bool := (55296 <=? r)%N && (r <? 56320)%N.
Definition isLowSurrogate (r : N) : bool := (56320 <=? r)%N && (r <? 57344)%N.

(** [utf16.DecodeRune] on a valid pair. *)
Definition combineSurrogates (hi lo : N) : N :=
  (N.lor (N.shiftl (hi - 55296) 10) (lo - 56320) + 65536)%N.

(** What is written for a surrogate escape left without its partner. *)
Definition flush (pending : option N) : string :=
  match pending with Some _ => replacementChar | None => "" end.

(** [unquoteBytes] on the text between the quotes of a string literal the
    scanner has accepted.  [pending] is a high surrogate read from a
    [\u] escape and waiting for the low one that must follow at once. *)
Fixpoint unquoteFrom (pending : option N) (s : string) : string :=
  match s with
  | "" => flush pending
  | String c0 r0 =>
      if Ascii.eqb c0 "\" then
        match r0 with
        | String e r1 =>
            if Ascii.eqb e "u" then
              match r1 with
              | String a (String b (String c (String d r5))) =>
                  let rr := u4 a b c d in
                  match pending with
                  | Some hi =>
                      if isLowSurrogate rr
                      then EncodeRune (combineSurrogates hi rr) ++ unquoteFrom None r5
                      else replacementChar ++
                           (if isHighSurrogate rr then unquoteFrom (Some rr) r5
                            else EncodeRune rr ++ unquoteFrom None r5)
                  | None =>
                      if isHighSurrogate rr then unquoteFrom (Some rr) r5
                      else EncodeRune rr ++ unquoteFrom None r5
                  end
              | _ => flush pending
              end
            else
              let x := if Ascii.eqb e "b" then "008"%char
                       else if Ascii.eqb e "f" then "012"%char
                       else if Ascii.eqb e "n" then "010"%char
                       else if Ascii.eqb e "r" then "013"%char
                       else if Ascii.eqb e "t" then "009"%char
                       else e in
              flush pending ++ String x (unquoteFrom None r1)
        | "" => flush pending
        end
      else if (byteN c0 <? 128)%N then flush pending ++ String c0 (unquoteFrom None r0)
      else
        flush pending ++
        match r0 with
        | String c1 r1 =>
            if utf8two c0 c1 then String c0 (String c1 (unquoteFrom None r1))
            else
              match r1 with
              | String c2 r2 =>
                  if utf8three c0 c1 c2
                  then String c0 (String c1 (String c2 (unquoteFrom None r2)))
                  else
                    match r2 with
                    | String c3 r3 =>
                        if utf8four c0 c1 c2 c3
                        then String c0 (String c1 (String c2 (String c3 (unquoteFrom None r3))))
                        else replacementChar ++ unquoteFrom None r0
                    | "" => replacementChar ++ unquoteFrom None r0
                    end
              | "" => replacementChar ++ unquoteFrom None r0
              end
        | "" => replacementChar
        end
  end.

Definition unquote (raw : string) : string := unquoteFrom None raw.

(** *** The scanner's state machine *)

Inductive numState : Type :=
| stateNeg | state0 | state1 | stateDot | stateDot0 | stateE | stateESign | stateE0.

(** An open array or object: [parseArrayValue], [parseObjectKey],
    [parseObjectValue], together with what has been read into it. *)
Inductive frame : Type :=
| inArray (elems : list json)
| inObject (members : list (string * json)) (key : option string).

Inductive stepState : Type :=
| stateBeginValue
| stateBeginValueOrEmpty
| stateBeginStringOrEmpty
| stateBeginString
| stateInString (raw : string)
| stateInStringEsc (raw : string)
| stateInStringEscU (seen : nat) (raw : string)
| stateNumber (st : numState) (lit : string)
| stateLiteral (expect : string) (name : string) (v : json)
| stateEndValue.

Record scanner : Type := mkScanner {
  step : stepState;
  parseState : list frame
}.

Inductive scanResult : Type :=
| scanContinue (s : scanner)
| scanEnd (v : json)
| scanError (e : error).

Definition maxNestingDepth : N := 10000.

Definition snoc (s : string) (c : ascii) : string := s ++ String c "".

Definition syntaxError (c : ascii) (context : string) : scanResult :=
  scanError (SyntaxError (Some c) context).

(** A value is complete: at top level the scan ends, inside a
    container the value is recorded and [stateEndValue] follows. *)
Definition completed (v : json) (stk : list frame) : scanResult :=
  match stk with
  | [] => scanEnd v
  | inArray es :: stk' =>
      scanContinue (mkScanner stateEndValue (inArray (es ++ [v])%list :: stk'))
  | inObject ms (Some k) :: stk' =>
      scanContinue (mkScanner stateEndValue (inObject (ms ++ [(k, v)])%list None :: stk'))
  | inObject ms None :: stk' =>
      match v with
      | JString k => scanContinue (mkScanner stateEndValue (inObject ms (Some k) :: stk'))
      | _ => scanError (SyntaxError None "JSON decoder out of sync")
      end
  end.

(** [pushParseState]. *)
Definition pushParseState (c : ascii) (f : frame) (next : stepState) (stk : list frame)
  : scanResult :=
  if (N.of_nat (List.length (f :: stk)) <=? maxNestingDepth)%N
  then scanContinue (mkScanner next (f :: stk))
  else syntaxError c "exceeded max depth".

(** [stateEndValue] inside a container. *)
Definition stepEndValue (stk : list frame) (c : ascii) : scanResult :=
  if isSpace c then scanContinue (mkScanner stateEndValue stk)
  else
    match stk with
    | [] => scanError (SyntaxError None "JSON decoder out of sync")
    | inObject ms (Some k) :: stk' =>
        if Ascii.eqb c ":" then scanContinue (mkScanner stateBeginValue stk)
        else syntaxError c "after object key"
    | inObject ms None :: stk' =>
        if Ascii.eqb c "," then scanContinue (mkScanner stateBeginString stk)
        else if Ascii.eqb c "}" then completed (JObject ms) stk'
        else syntaxError c "after object key:value pair"
    | inArray es :: stk' =>
        if Ascii.eqb c "," then scanContinue (mkScanner stateBeginValue stk)
        else if Ascii.eqb c "]" then completed (JArray es) stk'
        else syntaxError c "after array element"
    end.

(** [stateBeginValue]. *)
Definition stepBeginValue (stk : list frame) (c : ascii) : scanResult :=
  if isSpace c then scanContinue (mkScanner stateBeginValue stk)
  else if Ascii.eqb c "{" then pushParseState c (inObject [] None) stateBeginStringOrEmpty stk
  else if Ascii.eqb c "[" then pushParseState c (inArray []) stateBeginValueOrEmpty stk
  else if Ascii.eqb c dquote then scanContinue (mkScanner (stateInString "") stk)
  else if Ascii.eqb c "-" then scanContinue (mkScanner (stateNumber stateNeg "-") stk)
  else if Ascii.eqb c "0" then scanContinue (mkScanner (stateNumber state0 "0") stk)
  else if Ascii.eqb c "t" then scanContinue (mkScanner (stateLiteral "rue" "true" (JBool true)) stk)
  else if Ascii.eqb c "f" then scanContinue (mkScanner (stateLiteral "alse" "false" (JBool false)) stk)
  else if Ascii.eqb c "n" then scanContinue (mkScanner (stateLiteral "ull" "null" JNull) stk)
  else if inRange "1" "9" c then scanContinue (mkScanner (stateNumber state1 (String c "")) stk)
  else syntaxError c "looking for beginning of value".

(** [stateBeginString]. *)
Definition stepBeginString (stk : list frame) (c : ascii) : scanResult :=
  if isSpace c then scanContinue (mkScanner stateBeginString stk)
  else if Ascii.eqb c dquote then scanContinue (mkScanner (stateInString "") stk)
  else syntaxError c "looking for beginning of object key string".

(** The number states; [None] when byte [c] does not continue the
    literal, which is then complete or malformed. *)
Definition stepNumber (st : numState) (c : ascii) : option numState + string :=
  let more st' := inl (Some st') in
  let done := inl None in
  let afterInt :=
    if Ascii.eqb c "." then more stateDot
    else if Ascii.eqb c "e" || Ascii.eqb c "E" then more stateE
    else done in
  match st with
  | stateNeg =>
      if Ascii.eqb c "0" then more state0
      else if inRange "1" "9" c then more state1
      else inr "in numeric literal"
  | state1 => if isDigit c then more state1 else afterInt
  | state0 => afterInt
  | stateDot =>
      if isDigit c then more stateDot0
      else inr "after decimal point in numeric literal"
  | stateDot0 =>
      if isDigit c then more stateDot0
      else if Ascii.eqb c "e" || Ascii.eqb c "E" then more stateE
      else done
  | stateE =>
      if Ascii.eqb c "+" || Ascii.eqb c "-" then more stateESign
      else if isDigit c then more stateE0
      else inr "in exponent of numeric literal"
  | stateESign =>
      if isDigit c then more stateE0
      else inr "in exponent of numeric literal"
  | stateE0 => if isDigit c then more stateE0 else done
  end.

(** The number states a literal may end in. *)
Definition numComplete (st : numState) : bool :=
  match st with
  | state0 | state1 | stateDot0 | stateE0 => true
  | _ => false
  end.

(** One byte through the scanner: [s.step(s, c)]. *)
Definition scanStep (s : scanner) (c : ascii) : scanResult :=
  let stk := parseState s in
  match step s with
  | stateBeginValue => stepBeginValue stk c
  | stateBeginValueOrEmpty =>
      if isSpace c then scanContinue (mkScanner stateBeginValueOrEmpty stk)
      else if Ascii.eqb c "]" then stepEndValue stk c
      else stepBeginValue stk c
  | stateBeginStringOrEmpty =>
      if isSpace c then scanContinue (mkScanner stateBeginStringOrEmpty stk)
      else if Ascii.eqb c "}" then stepEndValue stk c
      else stepBeginString stk c
  | stateBeginString => stepBeginString stk c
  | stateInString raw =>
      if Ascii.eqb c dquote then completed (JString (unquote raw)) stk
      else if Ascii.eqb c "\" then scanContinue (mkScanner (stateInStringEsc (snoc raw c)) stk)
      else if (byteN c <? 32)%N then syntaxError c "in string literal"
      else scanContinue (mkScanner (stateInString (snoc raw c)) stk)
  | stateInStringEsc raw =>
      if oneOf ["b"; "f"; "n"; "r"; "t"; "\"; "/"; dquote]%char c
      then scanContinue (mkScanner (stateInString (snoc raw c)) stk)
      else if Ascii.eqb c "u" then scanContinue (mkScanner (stateInStringEscU 0 (snoc raw c)) stk)
      else syntaxError c "in string escape code"
  | stateInStringEscU seen raw =>
      if ishex c then
        scanContinue (mkScanner (if Nat.eqb seen 3 then stateInString (snoc raw c)
                                 else stateInStringEscU (S seen) (snoc raw c)) stk)
      else syntaxError c "in \u hexadecimal character escape"
  | stateNumber st lit =>
      match stepNumber st c with
      | inl (Some st') => scanContinue (mkScanner (stateNumber st' (snoc lit c)) stk)
      | inl None =>
          match completed (JNumber lit) stk with
          | scanContinue s' => stepEndValue (parseState s') c
          | r => r
          end
      | inr context => syntaxError c context
      end
  | stateLiteral expect name v =>
      match expect with
      | String x rest =>
          if Ascii.eqb c x then
            match rest with
            | "" => completed v stk
            | _ => scanContinue (mkScanner (stateLiteral rest name v) stk)
            end
          else syntaxError c ("in literal " ++ name ++ " (expecting '" ++ String x "')")
      | "" => scanError (SyntaxError None "JSON decoder out of sync")
      end
  | stateEndValue => stepEndValue stk c
  end.

(** [Decoder.readValue] on a stream that holds [buf] and then ends: the
    first JSON value of the stream, whatever follows it. *)
Fixpoint readValueFrom (s : scanner) (buf : string) : result json :=
  match buf with
  | "" =>
      match step s, parseState s with
      | stateBeginValue, [] => fail EOF
      | stateNumber st lit, [] =>
          if numComplete st then ok (JNumber lit) else fail ErrUnexpectedEOF
      | _, _ => fail ErrUnexpectedEOF
      end
  | String c buf' =>
      match scanStep s c with
      | scanContinue s' => readValueFrom s' buf'
      | scanEnd v => ok v
      | scanError e => fail e
      end
  end.

Definition readValue (buf : string) : result json :=
  readValueFrom (mkScanner stateBeginValue []) buf.

(* ================================================================= *)
(** ** [strconv] on the number literals of JSON *)

Definition float64 : Type := spec_float.

Definition digitValue (c : ascii) : Z := Z.of_N (byteN c - byteN "0").

(** The number a run of decimal digits denotes, continuing from [acc]. *)
Fixpoint digitsFrom (acc : Z) (ds : string) : Z :=
  match ds with
  | "" => acc
  | String c ds' => digitsFrom (10 * acc + digitValue c) ds'
  end.

(** The leading run of digits of [s] and what follows it. *)
Fixpoint spanDigits (s : string) : string * string :=
  match s with
  | String c s' =>
      if isDigit c then let '(ds, r) := spanDigits s' in (String c ds, r)
      else ("", s)
  | "" => ("", "")
  end.

Definition splitSign (s : string) : bool * string :=
  match s with
  | String c s' =>
      if Ascii.eqb c "-" then (true, s')
      else if Ascii.eqb c "+" then (false, s')
      else (false, s)
  | "" => (false, "")
  end.

(** [strconv.ParseInt(s, 10, 64)]; [None] is its error (syntax or
    range). *)
Definition ParseInt (s : string) : option Z :=
  let '(neg, ds) := splitSign s in
  match ds with
  | "" => None
  | _ =>
      if allDigits ds then
        let n := if neg then (- digitsFrom 0 ds)%Z else digitsFrom 0 ds in
        if ((- 2 ^ 63 <=? n) && (n <? 2 ^ 63))%Z then Some n else None
      else None
  end.

(** A decimal literal [[-]int[.frac][(e|E)[+|-]exp]] read as
    [(-1)^neg * m * 10^e], with the number of mantissa digits written. *)
Definition readDecimal (s : string) : option (bool * Z * Z * Z) :=
  let '(neg, s1) := splitSign s in
  let '(ip, s2) := spanDigits s1 in
  let '(fp, s3) :=
    match s2 with
    | String c r => if Ascii.eqb c "." then spanDigits r else ("", s2)
    | "" => ("", "")
    end in
  let nd := Z.of_nat (String.length ip + String.length fp) in
  let m := digitsFrom (digitsFrom 0 ip) fp in
  let scale := Z.of_nat (String.length fp) in
  if (nd =? 0)%Z then None
  else
    match s3 with
    | "" => Some (neg, m, (- scale)%Z, nd)
    | String c r =>
        if Ascii.eqb c "e" || Ascii.eqb c "E" then
          let '(eneg, r1) := splitSign r in
          let '(ed, r2) := spanDigits r1 in
          match ed, r2 with
          | String _ _, "" =>
              let e := digitsFrom 0 ed in
              Some (neg, m, ((if eneg then - e else e) - scale)%Z, nd)
          | _, _ => None
          end
        else None
    end.

(** The binary64 number nearest to [(-1)^neg * m * 10^e], ties to even;
    an infinity when the magnitude exceeds the format.  [nd] bounds the
    number of decimal digits of [m]; numbers beyond [10^400] or below
    [10^-330] are settled without computing the power. *)
Definition roundDecimal (neg : bool) (m e nd : Z) : float64 :=
  if (m =? 0)%Z then S754_zero neg
  else if (400 <? e)%Z then S754_infinity neg
  else if (e + nd <? -330)%Z then S754_zero neg
  else if (0 <=? e)%Z then binary_normalize 53 1024 (if neg then - (m * 10 ^ e) else m * 10 ^ e)%Z 0 neg
  else
    let den := (10 ^ (- e))%Z in
    let k := Z.max 0 (66 + Z.log2 den - Z.log2 m) in
    let num := (m * 2 ^ k)%Z in
    let q := (num / den)%Z in
    let r := (num mod den)%Z in
    let loc := if (r =? 0)%Z then loc_Exact else loc_Inexact (Z.compare (2 * r) den) in
    binary_round_aux 53 1024 neg q (- k) loc.

(** [strconv.ParseFloat(s, 64)] on a decimal literal; [None] is its
    error (syntax, or range when the nearest value is an infinity). *)
Definition ParseFloat (s : string) : option float64 :=
  match readDecimal s with
  | None => None
  | Some (neg, m, e, nd) =>
      match roundDecimal neg m e nd with
      | S754_infinity _ => None
      | f => Some f
      end
  end.

(* ================================================================= *)
(** ** [encoding/json]: storing a value into Go data *)

(** The dynamic values an [interface{}] holds after decoding: [nil],
    [bool], [float64], [string], [[]interface{}] and
    [map[string]interface{}] (its entries kept with distinct keys). *)
Inductive any : Type :=
| anyNil
| anyBool (b : bool)
| anyFloat64 (f : float64)
| anyString (s : string)
| anySlice (elems : list any)
| anyMap (entries : list (string * any)).

(** [m[k] = v]. *)
Fixpoint mapSet (k : string) (v : any) (m : list (string * any)) : list (string * any) :=
  match m with
  | [] => [(k, v)]
  | (k', v') :: m' => if String.eqb k k' then (k, v) :: m' else (k', v') :: mapSet k v m'
  end.

(** [decodeState.saveError]: the first error is the one reported. *)
Definition saveError (saved new : option error) : option error :=
  match saved with
  | Some _ => saved
  | None => new
  end.

(** The [Value] a type error reports for a JSON value. *)
Definition describe (v : json) : string :=
  match v with
  | JNull => "null"
  | JBool _ => "bool"
  | JNumber _ => "number"
  | JString _ => "string"
  | JArray _ => "array"
  | JObject _ => "object"
  end.

(** A decoder stores a JSON value into a Go value of type [T] it is
    given, and reports a first error; [ctx] is the path of field names
    that leads to the value. *)
Definition decoder (T : Type) : Type := list string -> json -> T -> T * option error.

Definition typeError (value : string) (t : gotype) (ctx : list string) : option error :=
  Some (UnmarshalTypeError value t ctx).

(** [literalStore] into a [string]. *)
Definition storeString : decoder string := fun ctx v cur =>
  match v with
  | JNull => (cur, None)
  | JString s => (s, None)
  | _ => (cur, typeError (describe v) TString ctx)
  end.

(** [literalStore] into an [int]. *)
Definition storeInt : decoder Z := fun ctx v cur =>
  match v with
  | JNull => (cur, None)
  | JNumber lit =>
      match ParseInt lit with
      | Some n => (n, None)
      | None => (cur, typeError ("number " ++ lit) TInt ctx)
      end
  | _ => (cur, typeError (describe v) TInt ctx)
  end.

(** [literalStore] into a [float64]. *)
Definition storeFloat64 : decoder float64 := fun ctx v cur =>
  match v with
  | JNull => (cur, None)
  | JNumber lit =>
      match ParseFloat lit with
      | Some f => (f, None)
      | None => (cur, typeError ("number " ++ lit) TFloat64 ctx)
      end
  | _ => (cur, typeError (describe v) TFloat64 ctx)
  end.

(** The elements of an array, each converted by [f]. *)
Fixpoint elementsWith (f : json -> any * option error) (es : list json)
  : list any * option error :=
  match es with
  | [] => ([], None)
  | e :: es' =>
      let '(x, err1) := f e in
      let '(xs, err2) := elementsWith f es' in
      (x :: xs, saveError err1 err2)
  end.

(** The members of an object, each converted by [f] and entered in the
    map [acc]. *)
Fixpoint entriesWith (f : json -> any * option error) (acc : list (string * any))
    (ms : list (string * json)) : list (string * any) * option error :=
  match ms with
  | [] => (acc, None)
  | (k, e) :: ms' =>
      let '(x, err1) := f e in
      let '(m, err2) := entriesWith f (mapSet k x acc) ms' in
      (m, saveError err1 err2)
  end.

(** [valueInterface]: the dynamic value of a JSON value nested in an
    array or object stored into an [interface{}]. *)
Fixpoint valueInterface (ctx : list string) (v : json) : any * option error :=
  match v with
  | JNull => (anyNil, None)
  | JBool b => (anyBool b, None)
  | JNumber lit =>
      match ParseFloat lit with
      | Some f => (anyFloat64 f, None)
      | None => (anyNil, typeError ("number " ++ lit) TFloat64 ctx)
      end
  | JString s => (anyString s, None)
  | JArray es =>
      let '(xs, err) := elementsWith (valueInterface ctx) es in (anySlice xs, err)
  | JObject ms =>
      let '(m, err) := entriesWith (valueInterface ctx) [] ms in (anyMap m, err)
  end.

(** Storing into a field of type [interface{}]. *)
Definition storeInterface : decoder any := fun ctx v cur =>
  match v with
  | JNumber lit =>
      match ParseFloat lit with
      | Some f => (anyFloat64 f, None)
      | None => (cur, typeError ("number " ++ lit) TFloat64 ctx)
      end
  | _ => valueInterface ctx v
  end.

(** *** Struct fields *)

Definition upperByte (c : ascii) : ascii :=
  if isLower c then ascii_of_N (byteN c - 32) else c.

(** [foldName]: the key under which a name is found whatever its case.
    The ASCII letters go to upper case and the two runes whose simple
    case folding reaches an ASCII letter, U+017F and U+212A, go to [S]
    and [K]; the other bytes stay, which cannot make a key equal to the
    folded form of an ASCII name. *)
Fixpoint foldName (s : string) : string :=
  match s with
  | "" => ""
  | String c0 r0 =>
      if (byteN c0 <? 128)%N then String (upperByte c0) (foldName r0)
      else
        match r0 with
        | String c1 r1 =>
            if Ascii.eqb c0 "197" && Ascii.eqb c1 "191" then String "S" (foldName r1)
            else
              match r1 with
              | String c2 r2 =>
                  if Ascii.eqb c0 "226" && Ascii.eqb c1 "132" && Ascii.eqb c2 "170"
                  then String "K" (foldName r2)
                  else String c0 (foldName r0)
              | "" => String c0 (foldName r0)
              end
        | "" => String c0 ""
        end
  end.

(** A field of a struct of type [S]: its JSON name and how a value is
    stored into it. *)
Record field (S : Type) : Type := mkField {
  fieldName : string;
  fieldStore : decoder S
}.
Arguments mkField {S} _ _.
Arguments fieldName {S} _.
Arguments fieldStore {S} _.

(** A field of type [T] read with [get], written with [set] and decoded
    by [d]. *)
Definition fieldOf {S T : Type} (d : decoder T) (name : string)
    (get : S -> T) (set : T -> S -> S) : field S :=
  mkField name
    (fun ctx v r => let '(x, err) := d (ctx ++ [name])%list v (get r) in (set x r, err)).

Definition stringField {S} := @fieldOf S string storeString.
Definition intField {S} := @fieldOf S Z storeInt.
Definition float64Field {S} := @fieldOf S float64 storeFloat64.
Definition interfaceField {S} := @fieldOf S any storeInterface.

(** The field a key selects: the one of that exact name, else the first
    one equal to it under case folding. *)
Definition findField {S} (fields : list (field S)) (key : string) : option (field S) :=
  match find (fun f => String.eqb (fieldName f) key) fields with
  | Some f => Some f
  | None => find (fun f => String.eqb (foldName (fieldName f)) (foldName key)) fields
  end.

(** [decodeState.object] into a struct: members are stored in order,
    unknown keys are skipped, decoding goes on after an error. *)
Fixpoint object {S} (fields : list (field S)) (ctx : list string)
    (ms : list (string * json)) (cur : S) : S * option error :=
  match ms with
  | [] => (cur, None)
  | (key, v) :: ms' =>
      match findField fields key with
      | Some f =>
          let '(cur1, err1) := fieldStore f ctx v cur in
          let '(cur2, err2) := object fields ctx ms' cur1 in
          (cur2, saveError err1 err2)
      | None => object fields ctx ms' cur
      end
  end.

(** Storing into a struct of Go type [t]. *)
Definition storeStruct {S} (t : gotype) (fields : list (field S)) : decoder S :=
  fun ctx v cur =>
    match v with
    | JNull => (cur, None)
    | JObject ms => object fields ctx ms cur
    | _ => (cur, typeError (describe v) t ctx)
    end.

(* ================================================================= *)
(** ** Package [postcodesio] *)

Definition NotFound : Error := "Postcode Not Found".
Definition BadRequest : Error := "Bad Request".
Definition ServerError : Error := "Server Error".
Definition NoResults : Error := "No Results".
Definition MultipleResults : Error := "Multiple Results".
Definition InvalidError : Error := "Invalid Error".

Definition errorFromHTTPCode (code : Z) : Error :=
  if (code =? 400)%Z then BadRequest
  else if (code =? 404)%Z then NotFound
  else if (code =? 500)%Z then ServerError
  else InvalidError.

(** The method [func (e Error) Error() string]. *)
Definition Error_Error (e : Error) : string :=
  if String.eqb e NotFound then "postcodes.io could not find the requested information (404)"
  else if String.eqb e BadRequest then "postcodes.io rejected the request (400)"
  else if String.eqb e ServerError then "postcodes.io encountered an error (500)"
  else if String.eqb e NoResults then "postcodes.io returned no results for the request"
  else if String.eqb e MultipleResults then "postcodes.io returned multiple results for the request"
  else "Invalid Error: Please report to poscodesio Go package maintainer".

Definition baseURL : string := "https://api.postcodes.io".

(** The anonymous struct of the field [Codes]. *)
Module CodesStruct.

Record t : Type := mk {
  Admin_district : string;
  Admin_county : string;
  Admin_ward : string;
  Parish : string;
  Ccg : string;
  Nuts : string
}.

Definition set_Admin_district (v : string) (r : t) : t :=
  let '(mk x0 x1 x2 x3 x4 x5) := r in mk v x1 x2 x3 x4 x5.
Definition set_Admin_county (v : string) (r : t) : t :=
  let '(mk x0 x1 x2 x3 x4 x5) := r in mk x0 v x2 x3 x4 x5.
Definition set_Admin_ward (v : string) (r : t) : t :=
  let '(mk x0 x1 x2 x3 x4 x5) := r in mk x0 x1 v x3 x4 x5.
Definition set_Parish (v : string) (r : t) : t :=
  let '(mk x0 x1 x2 x3 x4 x5) := r in mk x0 x1 x2 v x4 x5.
Definition set_Ccg (v : string) (r : t) : t :=
  let '(mk x0 x1 x2 x3 x4 x5) := r in mk x0 x1 x2 x3 v x5.
Definition set_Nuts (v : string) (r : t) : t :=
  let '(mk x0 x1 x2 x3 x4 x5) := r in mk x0 x1 x2 x3 x4 v.

Definition zero : t := mk "" "" "" "" "" "".

Definition fields : list (field t) :=
  [ stringField "admin_district" Admin_district set_Admin_district;
    stringField "admin_county" Admin_county set_Admin_county;
    stringField "admin_ward" Admin_ward set_Admin_ward;
    stringField "parish" Parish set_Parish;
    stringField "ccg" Ccg set_Ccg;
    stringField "nuts" Nuts set_Nuts ].

Definition store : decoder t := storeStruct TCodes fields.

End CodesStruct.

Definition float64Zero : float64 := S754_zero false.

Record geocodeResult : Type := mkGeocodeResult {
  Postcode : string;
  Quality : Z;
  Eastings : Z;
  Northings : Z;
  Nhs_ha : string;
  Longitude : float64;
  Latitude : float64;
  Parliamentary_constituency : string;
  European_electoral_region : string;
  Primary_care_trust : string;
  Region : string;
  Lsoa : string;
  Msoa : string;
  Incode : string;
  Outcode : string;
  Admin_district : any;
  Parish : any;
  Admin_county : any;
  Admin_ward : any;
  Country : any;
  Ccg : string;
  Nuts : string;
  Codes : CodesStruct.t
}.

Definition set_Postcode (v : string) (r : geocodeResult) : geocodeResult :=
  let '(mkGeocodeResult x0 x1 x2 x3 x4 x5 x6 x7 x8 x9 x10 x11 x12 x13 x14 x15 x16 x17 x18 x19 x20 x21 x22) := r in mkGeocodeResult v x1 x2 x3 x4 x5 x6 x7 x8 x9 x10 x11 x12 x13 x14 x15 x16 x17 x18 x19 x20 x21 x22.
Definition set_Quality (v : Z) (r : geocodeResult) : geocodeResult :=
  let '(mkGeocodeResult x0 x1 x2 x3 x4 x5 x6 x7 x8 x9 x10 x11 x12 x13 x14 x15 x16 x17 x18 x19 x20 x21 x22) := r in mkGeocodeResult x0 v x2 x3 x4 x5 x6 x7 x8 x9 x10 x11 x12 x13 x14 x15 x16 x17 x18 x19 x20 x21 x22.
Definition set_Eastings (v : Z) (r : geocodeResult) : geocodeResult :=
  let '(mkGeocodeResult x0 x1 x2 x3 x4 x5 x6 x7 x8 x9 x10 x11 x12 x13 x14 x15 x16 x17 x18 x19 x20 x21 x22) := r in mkGeocodeResult x0 x1 v x3 x4 x5 x6 x7 x8 x9 x10 x11 x12 x13 x14 x15 x16 x17 x18 x19 x20 x21 x22.
Definition set_Northings (v : Z) (r : geocodeResult) : geocodeResult :=
  let '(mkGeocodeResult x0 x1 x2 x3 x4 x5 x6 x7 x8 x9 x10 x11 x12 x13 x14 x15 x16 x17 x18 x19 x20 x21 x22) := r in mkGeocodeResult x0 x1 x2 v x4 x5 x6 x7 x8 x9 x10 x11 x12 x13 x14 x15 x16 x17 x18 x19 x20 x21 x22.
Definition set_Nhs_ha (v : string) (r : geocodeResult) : geocodeResult :=
  let '(mkGeocodeResult x0 x1 x2 x3 x4 x5 x6 x7 x8 x9 x10 x11 x12 x13 x14 x15 x16 x17 x18 x19 x20 x21 x22) := r in mkGeocodeResult x0 x1 x2 x3 v x5 x6 x7 x8 x9 x10 x11 x12 x13 x14 x15 x16 x17 x18 x19 x20 x21 x22.
Definition set_Longitude (v : float64) (r : geocodeResult) : geocodeResult :=
  let '(mkGeocodeResult x0 x1 x2 x3 x4 x5 x6 x7 x8 x9 x10 x11 x12 x13 x14 x15 x16 x17 x18 x19 x20 x21 x22) := r in mkGeocodeResult x0 x1 x2 x3 x4 v x6 x7 x8 x9 x10 x11 x12 x13 x14 x15 x16 x17 x18 x19 x20 x21 x22.
Definition set_Latitude (v : float64) (r : geocodeResult) : geocodeResult :=
  let '(mkGeocodeResult x0 x1 x2 x3 x4 x5 x6 x7 x8 x9 x10 x11 x12 x13 x14 x15 x16 x17 x18 x19 x20 x21 x22) := r in mkGeocodeResult x0 x1 x2 x3 x4 x5 v x7 x8 x9 x10 x11 x12 x13 x14 x15 x16 x17 x18 x19 x20 x21 x22.
Definition set_Parliamentary_constituency (v : string) (r : geocodeResult) : geocodeResult :=
  let '(mkGeocodeResult x0 x1 x2 x3 x4 x5 x6 x7 x8 x9 x10 x11 x12 x13 x14 x15 x16 x17 x18 x19 x20 x21 x22) := r in mkGeocodeResult x0 x1 x2 x3 x4 x5 x6 v x8 x9 x10 x11 x12 x13 x14 x15 x16 x17 x18 x19 x20 x21 x22.
Definition set_European_electoral_region (v : string) (r : geocodeResult) : geocodeResult :=
  let '(mkGeocodeResult x0 x1 x2 x3 x4 x5 x6 x7 x8 x9 x10 x11 x12 x13 x14 x15 x16 x17 x18 x19 x20 x21 x22) := r in mkGeocodeResult x0 x1 x2 x3 x4 x5 x6 x7 v x9 x10 x11 x12 x13 x14 x15 x16 x17 x18 x19 x20 x21 x22.
Definition set_Primary_care_trust (v : string) (r : geocodeResult) : geocodeResult :=
  let '(mkGeocodeResult x0 x1 x2 x3 x4 x5 x6 x7 x8 x9 x10 x11 x12 x13 x14 x15 x16 x17 x18 x19 x20 x21 x22) := r in mkGeocodeResult x0 x1 x2 x3 x4 x5 x6 x7 x8 v x10 x11 x12 x13 x14 x15 x16 x17 x18 x19 x20 x21 x22.
Definition set_Region (v : string) (r : geocodeResult) : geocodeResult :=
  let '(mkGeocodeResult x0 x1 x2 x3 x4 x5 x6 x7 x8 x9 x10 x11 x12 x13 x14 x15 x16 x17 x18 x19 x20 x21 x22) := r in mkGeocodeResult x0 x1 x2 x3 x4 x5 x6 x7 x8 x9 v x11 x12 x13 x14 x15 x16 x17 x18 x19 x20 x21 x22.
Definition set_Lsoa (v : string) (r : geocodeResult) : geocodeResult :=
  let '(mkGeocodeResult x0 x1 x2 x3 x4 x5 x6 x7 x8 x9 x10 x11 x12 x13 x14 x15 x16 x17 x18 x19 x20 x21 x22) := r in mkGeocodeResult x0 x1 x2 x3 x4 x5 x6 x7 x8 x9 x10 v x12 x13 x14 x15 x16 x17 x18 x19 x20 x21 x22.
Definition set_Msoa (v : string) (r : geocodeResult) : geocodeResult :=
  let '(mkGeocodeResult x0 x1 x2 x3 x4 x5 x6 x7 x8 x9 x10 x11 x12 x13 x14 x15 x16 x17 x18 x19 x20 x21 x22) := r in mkGeocodeResult x0 x1 x2 x3 x4 x5 x6 x7 x8 x9 x10 x11 v x13 x14 x15 x16 x17 x18 x19 x20 x21 x22.
Definition set_Incode (v : string) (r : geocodeResult) : geocodeResult :=
  let '(mkGeocodeResult x0 x1 x2 x3 x4 x5 x6 x7 x8 x9 x10 x11 x12 x13 x14 x15 x16 x17 x18 x19 x20 x21 x22) := r in mkGeocodeResult x0 x1 x2 x3 x4 x5 x6 x7 x8 x9 x10 x11 x12 v x14 x15 x16 x17 x18 x19 x20 x21 x22.
Definition set_Outcode (v : string) (r : geocodeResult) : geocodeResult :=
  let '(mkGeocodeResult x0 x1 x2 x3 x4 x5 x6 x7 x8 x9 x10 x11 x12 x13 x14 x15 x16 x17 x18 x19 x20 x21 x22) := r in mkGeocodeResult x0 x1 x2 x3 x4 x5 x6 x7 x8 x9 x10 x11 x12 x13 v x15 x16 x17 x18 x19 x20 x21 x22.
Definition set_Admin_district (v : any) (r : geocodeResult) : geocodeResult :=
  let '(mkGeocodeResult x0 x1 x2 x3 x4 x5 x6 x7 x8 x9 x10 x11 x12 x13 x14 x15 x16 x17 x18 x19 x20 x21 x22) := r in mkGeocodeResult x0 x1 x2 x3 x4 x5 x6 x7 x8 x9 x10 x11 x12 x13 x14 v x16 x17 x18 x19 x20 x21 x22.
Definition set_Parish (v : any) (r : geocodeResult) : geocodeResult :=
  let '(mkGeocodeResult x0 x1 x2 x3 x4 x5 x6 x7 x8 x9 x10 x11 x12 x13 x14 x15 x16 x17 x18 x19 x20 x21 x22) := r in mkGeocodeResult x0 x1 x2 x3 x4 x5 x6 x7 x8 x9 x10 x11 x12 x13 x14 x15 v x17 x18 x19 x20 x21 x22.
Definition set_Admin_county (v : any) (r : geocodeResult) : geocodeResult :=
  let '(mkGeocodeResult x0 x1 x2 x3 x4 x5 x6 x7 x8 x9 x10 x11 x12 x13 x14 x15 x16 x17 x18 x19 x20 x21 x22) := r in mkGeocodeResult x0 x1 x2 x3 x4 x5 x6 x7 x8 x9 x10 x11 x12 x13 x14 x15 x16 v x18 x19 x20 x21 x22.
Definition set_Admin_ward (v : any) (r : geocodeResult) : geocodeResult :=
  let '(mkGeocodeResult x0 x1 x2 x3 x4 x5 x6 x7 x8 x9 x10 x11 x12 x13 x14 x15 x16 x17 x18 x19 x20 x21 x22) := r in mkGeocodeResult x0 x1 x2 x3 x4 x5 x6 x7 x8 x9 x10 x11 x12 x13 x14 x15 x16 x17 v x19 x20 x21 x22.
Definition set_Country (v : any) (r : geocodeResult) : geocodeResult :=
  let '(mkGeocodeResult x0 x1 x2 x3 x4 x5 x6 x7 x8 x9 x10 x11 x12 x13 x14 x15 x16 x17 x18 x19 x20 x21 x22) := r in mkGeocodeResult x0 x1 x2 x3 x4 x5 x6 x7 x8 x9 x10 x11 x12 x13 x14 x15 x16 x17 x18 v x20 x21 x22.
Definition set_Ccg (v : string) (r : geocodeResult) : geocodeResult :=
  let '(mkGeocodeResult x0 x1 x2 x3 x4 x5 x6 x7 x8 x9 x10 x11 x12 x13 x14 x15 x16 x17 x18 x19 x20 x21 x22) := r in mkGeocodeResult x0 x1 x2 x3 x4 x5 x6 x7 x8 x9 x10 x11 x12 x13 x14 x15 x16 x17 x18 x19 v x21 x22.
Definition set_Nuts (v : string) (r : geocodeResult) : geocodeResult :=
  let '(mkGeocodeResult x0 x1 x2 x3 x4 x5 x6 x7 x8 x9 x10 x11 x12 x13 x14 x15 x16 x17 x18 x19 x20 x21 x22) := r in mkGeocodeResult x0 x1 x2 x3 x4 x5 x6 x7 x8 x9 x10 x11 x12 x13 x14 x15 x16 x17 x18 x19 x20 v x22.
Definition set_Codes (v : CodesStruct.t) (r : geocodeResult) : geocodeResult :=
  let '(mkGeocodeResult x0 x1 x2 x3 x4 x5 x6 x7 x8 x9 x10 x11 x12 x13 x14 x15 x16 x17 x18 x19 x20 x21 x22) := r in mkGeocodeResult x0 x1 x2 x3 x4 x5 x6 x7 x8 x9 x10 x11 x12 x13 x14 x15 x16 x17 x18 x19 x20 x21 v.

Definition geocodeResultZero : geocodeResult :=
  mkGeocodeResult "" 0 0 0 "" float64Zero float64Zero "" "" "" "" "" "" "" ""
    anyNil anyNil anyNil anyNil anyNil "" "" CodesStruct.zero.

Definition geocodeResultFields : list (field geocodeResult) :=
  [
    stringField "postcode" Postcode set_Postcode;
    intField "quality" Quality set_Quality;
    intField "eastings" Eastings set_Eastings;
    intField "northings" Northings set_Northings;
    stringField "nhs_ha" Nhs_ha set_Nhs_ha;
    float64Field "longitude" Longitude set_Longitude;
    float64Field "latitude" Latitude set_Latitude;
    stringField "parliamentary_constituency" Parliamentary_constituency set_Parliamentary_constituency;
    stringField "european_electoral_region" European_electoral_region set_European_electoral_region;
    stringField "primary_care_trust" Primary_care_trust set_Primary_care_trust;
    stringField "region" Region set_Region;
    stringField "lsoa" Lsoa set_Lsoa;
    stringField "msoa" Msoa set_Msoa;
    stringField "incode" Incode set_Incode;
    stringField "outcode" Outcode set_Outcode;
    interfaceField "admin_district" Admin_district set_Admin_district;
    interfaceField "parish" Parish set_Parish;
    interfaceField "admin_county" Admin_county set_Admin_county;
    interfaceField "admin_ward" Admin_ward set_Admin_ward;
    interfaceField "country" Country set_Country;
    stringField "ccg" Ccg set_Ccg;
    stringField "nuts" Nuts set_Nuts;
    fieldOf CodesStruct.store "codes" Codes set_Codes ].

Definition storeGeocodeResult : decoder geocodeResult :=
  storeStruct TGeocodeResult geocodeResultFields.

(** The local struct [payload] of [decodePayload]; its fields have no
    tag, so their JSON names are the Go names. *)
Module Payload.

Record t : Type := mk {
  Status : Z;
  Result : geocodeResult;
  Error : string
}.

Definition set_Status (v : Z) (r : t) : t := mk v (Result r) (Error r).
Definition set_Result (v : geocodeResult) (r : t) : t := mk (Status r) v (Error r).
Definition set_Error (v : string) (r : t) : t := mk (Status r) (Result r) v.

Definition zero : t := mk 0 geocodeResultZero "".

Definition fields : list (field t) :=
  [ intField "Status" Status set_Status;
    fieldOf storeGeocodeResult "Result" Result set_Result;
    stringField "Error" Error set_Error ].

Definition store : decoder t := storeStruct TPayload fields.

End Payload.

(** [json.NewDecoder(bytes.NewBuffer(body)).Decode(&payload)]: the first
    JSON value of [body] stored into [payload]. *)
Definition Decode (body : string) (payload : Payload.t) : Payload.t * option error :=
  match readValue body with
  | inr err => (payload, Some err)
  | inl v => Payload.store [] v payload
  end.

(** The body of a response: the bytes its stream delivers and the error,
    if any, that ends the stream instead of the end of input. *)
Record ReadCloser : Type := mkReadCloser {
  content : string;
  readError : option error
}.

(** [ioutil.ReadAll]. *)
Definition ReadAll (r : ReadCloser) : string * option error :=
  (content r, readError r).

(** The fields of [http.Response] the package reads. *)
Record Response : Type := mkResponse {
  StatusCode : Z;
  Body : ReadCloser
}.

Module GeoPoint.

Record t : Type := mk {
  Longitude : float64;
  Latitude : float64
}.

Definition zero : t := mk float64Zero float64Zero.

End GeoPoint.

Definition isNil (err : option error) : bool :=
  match err with None => true | Some _ => false end.

Definition geocodeURL (pc : string) : string * option error :=
  let u := if (4 <? String.length pc)%nat
           then baseURL ++ "/postcodes/" ++ pc
           else baseURL ++ "/outcodes/" ++ pc in
  match ParseRequestURI u with
  | inr err => ("", Some err)
  | inl uri => (URL_String uri, None)
  end.

Section Messages.

(** The text [Error()] returns for the errors of [net/url] and
    [encoding/json]; it is fixed by the Go release, not by the package. *)
Variable libraryText : error -> string.

(** [err.Error()]. *)
Definition Error_ (err : error) : string :=
  match err with
  | errorString s => s
  | EOF => "EOF"
  | ErrUnexpectedEOF => "unexpected EOF"
  | pkgError e => Error_Error e
  | otherError text => text
  | _ => libraryText err
  end.

Definition decodePayload (r : Response) : geocodeResult * option error :=
  let '(body, err) := ReadAll (Body r) in
  match err with
  | Some e =>
      (geocodeResultZero,
       Some (errorString ("could not read http response body: " ++ Error_ e)))
  | None =>
      let '(payload, err) := Decode body Payload.zero in
      let err := match err with
                 | Some EOF => None
                 | _ => err
                 end in
      let err := if isNil err && negb (String.eqb (Payload.Error payload) "")
                 then Some (errorString (Payload.Error payload))
                 else err in
      let err := if isNil err && negb (Payload.Status payload =? 200)%Z
                 then Some (pkgError (errorFromHTTPCode (Payload.Status payload)))
                 else err in
      (Payload.Result payload, err)
  end.

Definition decorateGeocodingError (err : error) : error :=
  errorString ("postcodes.io: could not geocode postcode: " ++ Error_ err).

(** [Geocode], with [http.Get] as the parameter [httpGet].  The deferred
    [r.Body.Close()] has no effect on what is returned. *)
Definition Geocode (httpGet : string -> result Response) (postcode : string)
  : GeoPoint.t * option error :=
  match geocodeURL postcode with
  | (_, Some err) => (GeoPoint.zero, Some (decorateGeocodingError err))
  | (url, None) =>
      match httpGet url with
      | inr err => (GeoPoint.zero, Some (decorateGeocodingError err))
      | inl r =>
          if negb (StatusCode r =? 200)%Z
          then (GeoPoint.zero,
                Some (decorateGeocodingError (pkgError (errorFromHTTPCode (StatusCode r)))))
          else
            let '(result, err) := decodePayload r in
            let err := match err with
                       | Some e => Some (decorateGeocodingError e)
                       | None => None
                       end in
            (GeoPoint.mk (Longitude result) (Latitude result), err)
      end
  end.

End Messages.

(* ================================================================= *)
(** ** The earlier revision of the file

    The first of the two revisions [postcodesio.go] holds.  It differs
    from the later one in [geocodeResult], whose administrative fields
    are strings, and in [geocodeURL], which knows one route. *)

Module Rev1.

Record geocodeResult : Type := mkGeocodeResult {
  Postcode : string;
  Quality : Z;
  Eastings : Z;
  Northings : Z;
  Country : string;
  Nhs_ha : string;
  Longitude : float64;
  Latitude : float64;
  Parliamentary_constituency : string;
  European_electoral_region : string;
  Primary_care_trust : string;
  Region : string;
  Lsoa : string;
  Msoa : string;
  Incode : string;
  Outcode : string;
  Admin_district : string;
  Parish : string;
  Admin_county : string;
  Admin_ward : string;
  Ccg : string;
  Nuts : string;
  Codes : CodesStruct.t
}.

Definition set_Postcode (v : string) (r : geocodeResult) : geocodeResult :=
  let '(mkGeocodeResult x0 x1 x2 x3 x4 x5 x6 x7 x8 x9 x10 x11 x12 x13 x14 x15 x16 x17 x18 x19 x20 x21 x22) := r in mkGeocodeResult v x1 x2 x3 x4 x5 x6 x7 x8 x9 x10 x11 x12 x13 x14 x15 x16 x17 x18 x19 x20 x21 x22.
Definition set_Quality (v : Z) (r : geocodeResult) : geocodeResult :=
  let '(mkGeocodeResult x0 x1 x2 x3 x4 x5 x6 x7 x8 x9 x10 x11 x12 x13 x14 x15 x16 x17 x18 x19 x20 x21 x22) := r in mkGeocodeResult x0 v x2 x3 x4 x5 x6 x7 x8 x9 x10 x11 x12 x13 x14 x15 x16 x17 x18 x19 x20 x21 x22.
Definition set_Eastings (v : Z) (r : geocodeResult) : geocodeResult :=
  let '(mkGeocodeResult x0 x1 x2 x3 x4 x5 x6 x7 x8 x9 x10 x11 x12 x13 x14 x15 x16 x17 x18 x19 x20 x21 x22) := r in mkGeocodeResult x0 x1 v x3 x4 x5 x6 x7 x8 x9 x10 x11 x12 x13 x14 x15 x16 x17 x18 x19 x20 x21 x22.
Definition set_Northings (v : Z) (r : geocodeResult) : geocodeResult :=
  let '(mkGeocodeResult x0 x1 x2 x3 x4 x5 x6 x7 x8 x9 x10 x11 x12 x13 x14 x15 x16 x17 x18 x19 x20 x21 x22) := r in mkGeocodeResult x0 x1 x2 v x4 x5 x6 x7 x8 x9 x10 x11 x12 x13 x14 x15 x16 x17 x18 x19 x20 x21 x22.
Definition set_Country (v : string) (r : geocodeResult) : geocodeResult :=
  let '(mkGeocodeResult x0 x1 x2 x3 x4 x5 x6 x7 x8 x9 x10 x11 x12 x13 x14 x15 x16 x17 x18 x19 x20 x21 x22) := r in mkGeocodeResult x0 x1 x2 x3 v x5 x6 x7 x8 x9 x10 x11 x12 x13 x14 x15 x16 x17 x18 x19 x20 x21 x22.
Definition set_Nhs_ha (v : string) (r : geocodeResult) : geocodeResult :=
  let '(mkGeocodeResult x0 x1 x2 x3 x4 x5 x6 x7 x8 x9 x10 x11 x12 x13 x14 x15 x16 x17 x18 x19 x20 x21 x22) := r in mkGeocodeResult x0 x1 x2 x3 x4 v x6 x7 x8 x9 x10 x11 x12 x13 x14 x15 x16 x17 x18 x19 x20 x21 x22.
Definition set_Longitude (v : float64) (r : geocodeResult) : geocodeResult :=
  let '(mkGeocodeResult x0 x1 x2 x3 x4 x5 x6 x7 x8 x9 x10 x11 x12 x13 x14 x15 x16 x17 x18 x19 x20 x21 x22) := r in mkGeocodeResult x0 x1 x2 x3 x4 x5 v x7 x8 x9 x10 x11 x12 x13 x14 x15 x16 x17 x18 x19 x20 x21 x22.
Definition set_Latitude (v : float64) (r : geocodeResult) : geocodeResult :=
  let '(mkGeocodeResult x0 x1 x2 x3 x4 x5 x6 x7 x8 x9 x10 x11 x12 x13 x14 x15 x16 x17 x18 x19 x20 x21 x22) := r in mkGeocodeResult x0 x1 x2 x3 x4 x5 x6 v x8 x9 x10 x11 x12 x13 x14 x15 x16 x17 x18 x19 x20 x21 x22.
Definition set_Parliamentary_constituency (v : string) (r : geocodeResult) : geocodeResult :=
  let '(mkGeocodeResult x0 x1 x2 x3 x4 x5 x6 x7 x8 x9 x10 x11 x12 x13 x14 x15 x16 x17 x18 x19 x20 x21 x22) := r in mkGeocodeResult x0 x1 x2 x3 x4 x5 x6 x7 v x9 x10 x11 x12 x13 x14 x15 x16 x17 x18 x19 x20 x21 x22.
Definition set_European_electoral_region (v : string) (r : geocodeResult) : geocodeResult :=
  let '(mkGeocodeResult x0 x1 x2 x3 x4 x5 x6 x7 x8 x9 x10 x11 x12 x13 x14 x15 x16 x17 x18 x19 x20 x21 x22) := r in mkGeocodeResult x0 x1 x2 x3 x4 x5 x6 x7 x8 v x10 x11 x12 x13 x14 x15 x16 x17 x18 x19 x20 x21 x22.
Definition set_Primary_care_trust (v : string) (r : geocodeResult) : geocodeResult :=
  let '(mkGeocodeResult x0 x1 x2 x3 x4 x5 x6 x7 x8 x9 x10 x11 x12 x13 x14 x15 x16 x17 x18 x19 x20 x21 x22) := r in mkGeocodeResult x0 x1 x2 x3 x4 x5 x6 x7 x8 x9 v x11 x12 x13 x14 x15 x16 x17 x18 x19 x20 x21 x22.
Definition set_Region (v : string) (r : geocodeResult) : geocodeResult :=
  let '(mkGeocodeResult x0 x1 x2 x3 x4 x5 x6 x7 x8 x9 x10 x11 x12 x13 x14 x15 x16 x17 x18 x19 x20 x21 x22) := r in mkGeocodeResult x0 x1 x2 x3 x4 x5 x6 x7 x8 x9 x10 v x12 x13 x14 x15 x16 x17 x18 x19 x20 x21 x22.
Definition set_Lsoa (v : string) (r : geocodeResult) : geocodeResult :=
  let '(mkGeocodeResult x0 x1 x2 x3 x4 x5 x6 x7 x8 x9 x10 x11 x12 x13 x14 x15 x16 x17 x18 x19 x20 x21 x22) := r in mkGeocodeResult x0 x1 x2 x3 x4 x5 x6 x7 x8 x9 x10 x11 v x13 x14 x15 x16 x17 x18 x19 x20 x21 x22.
Definition set_Msoa (v : string) (r : geocodeResult) : geocodeResult :=
  let '(mkGeocodeResult x0 x1 x2 x3 x4 x5 x6 x7 x8 x9 x10 x11 x12 x13 x14 x15 x16 x17 x18 x19 x20 x21 x22) := r in mkGeocodeResult x0 x1 x2 x3 x4 x5 x6 x7 x8 x9 x10 x11 x12 v x14 x15 x16 x17 x18 x19 x20 x21 x22.
Definition set_Incode (v : string) (r : geocodeResult) : geocodeResult :=
  let '(mkGeocodeResult x0 x1 x2 x3 x4 x5 x6 x7 x8 x9 x10 x11 x12 x13 x14 x15 x16 x17 x18 x19 x20 x21 x22) := r in mkGeocodeResult x0 x1 x2 x3 x4 x5 x6 x7 x8 x9 x10 x11 x12 x13 v x15 x16 x17 x18 x19 x20 x21 x22.
Definition set_Outcode (v : string) (r : geocodeResult) : geocodeResult :=
  let '(mkGeocodeResult x0 x1 x2 x3 x4 x5 x6 x7 x8 x9 x10 x11 x12 x13 x14 x15 x16 x17 x18 x19 x20 x21 x22) := r in mkGeocodeResult x0 x1 x2 x3 x4 x5 x6 x7 x8 x9 x10 x11 x12 x13 x14 v x16 x17 x18 x19 x20 x21 x22.
Definition set_Admin_district (v : string) (r : geocodeResult) : geocodeResult :=
  let '(mkGeocodeResult x0 x1 x2 x3 x4 x5 x6 x7 x8 x9 x10 x11 x12 x13 x14 x15 x16 x17 x18 x19 x20 x21 x22) := r in mkGeocodeResult x0 x1 x2 x3 x4 x5 x6 x7 x8 x9 x10 x11 x12 x13 x14 x15 v x17 x18 x19 x20 x21 x22.
Definition set_Parish (v : string) (r : geocodeResult) : geocodeResult :=
  let '(mkGeocodeResult x0 x1 x2 x3 x4 x5 x6 x7 x8 x9 x10 x11 x12 x13 x14 x15 x16 x17 x18 x19 x20 x21 x22) := r in mkGeocodeResult x0 x1 x2 x3 x4 x5 x6 x7 x8 x9 x10 x11 x12 x13 x14 x15 x16 v x18 x19 x20 x21 x22.
Definition set_Admin_county (v : string) (r : geocodeResult) : geocodeResult :=
  let '(mkGeocodeResult x0 x1 x2 x3 x4 x5 x6 x7 x8 x9 x10 x11 x12 x13 x14 x15 x16 x17 x18 x19 x20 x21 x22) := r in mkGeocodeResult x0 x1 x2 x3 x4 x5 x6 x7 x8 x9 x10 x11 x12 x13 x14 x15 x16 x17 v x19 x20 x21 x22.
Definition set_Admin_ward (v : string) (r : geocodeResult) : geocodeResult :=
  let '(mkGeocodeResult x0 x1 x2 x3 x4 x5 x6 x7 x8 x9 x10 x11 x12 x13 x14 x15 x16 x17 x18 x19 x20 x21 x22) := r in mkGeocodeResult x0 x1 x2 x3 x4 x5 x6 x7 x8 x9 x10 x11 x12 x13 x14 x15 x16 x17 x18 v x20 x21 x22.
Definition set_Ccg (v : string) (r : geocodeResult) : geocodeResult :=
  let '(mkGeocodeResult x0 x1 x2 x3 x4 x5 x6 x7 x8 x9 x10 x11 x12 x13 x14 x15 x16 x17 x18 x19 x20 x21 x22) := r in mkGeocodeResult x0 x1 x2 x3 x4 x5 x6 x7 x8 x9 x10 x11 x12 x13 x14 x15 x16 x17 x18 x19 v x21 x22.
Definition set_Nuts (v : string) (r : geocodeResult) : geocodeResult :=
  let '(mkGeocodeResult x0 x1 x2 x3 x4 x5 x6 x7 x8 x9 x10 x11 x12 x13 x14 x15 x16 x17 x18 x19 x20 x21 x22) := r in mkGeocodeResult x0 x1 x2 x3 x4 x5 x6 x7 x8 x9 x10 x11 x12 x13 x14 x15 x16 x17 x18 x19 x20 v x22.
Definition set_Codes (v : CodesStruct.t) (r : geocodeResult) : geocodeResult :=
  let '(mkGeocodeResult x0 x1 x2 x3 x4 x5 x6 x7 x8 x9 x10 x11 x12 x13 x14 x15 x16 x17 x18 x19 x20 x21 x22) := r in mkGeocodeResult x0 x1 x2 x3 x4 x5 x6 x7 x8 x9 x10 x11 x12 x13 x14 x15 x16 x17 x18 x19 x20 x21 v.

Definition geocodeResultZero : geocodeResult :=
  mkGeocodeResult "" 0 0 0 "" "" float64Zero float64Zero "" "" "" "" "" "" "" ""
    "" "" "" "" "" "" CodesStruct.zero.

Definition geocodeResultFields : list (field geocodeResult) :=
  [
    stringField "postcode" Postcode set_Postcode;
    intField "quality" Quality set_Quality;
    intField "eastings" Eastings set_Eastings;
    intField "northings" Northings set_Northings;
    stringField "country" Country set_Country;
    stringField "nhs_ha" Nhs_ha set_Nhs_ha;
    float64Field "longitude" Longitude set_Longitude;
    float64Field "latitude" Latitude set_Latitude;
    stringField "parliamentary_constituency" Parliamentary_constituency set_Parliamentary_constituency;
    stringField "european_electoral_region" European_electoral_region set_European_electoral_region;
    stringField "primary_care_trust" Primary_care_trust set_Primary_care_trust;
    stringField "region" Region set_Region;
    stringField "lsoa" Lsoa set_Lsoa;
    stringField "msoa" Msoa set_Msoa;
    stringField "incode" Incode set_Incode;
    stringField "outcode" Outcode set_Outcode;
    stringField "admin_district" Admin_district set_Admin_district;
    stringField "parish" Parish set_Parish;
    stringField "admin_county" Admin_county set_Admin_county;
    stringField "admin_ward" Admin_ward set_Admin_ward;
    stringField "ccg" Ccg set_Ccg;
    stringField "nuts" Nuts set_Nuts;
    fieldOf CodesStruct.store "codes" Codes set_Codes ].

Definition storeGeocodeResult : decoder geocodeResult :=
  storeStruct TGeocodeResult geocodeResultFields.

Definition geocodeURL (postcode : string) : string * option error :=
  match ParseRequestURI (baseURL ++ "/postcodes/" ++ postcode) with
  | inr err => ("", Some err)
  | inl uri => (URL_String uri, None)
  end.

(** The local struct [payload] of this revision's [decodePayload]. *)
Module Payload.

Record t : Type := mk {
  Status : Z;
  Result : geocodeResult;
  Error : string
}.

Definition set_Status (v : Z) (r : t) : t := mk v (Result r) (Error r).
Definition set_Result (v : geocodeResult) (r : t) : t := mk (Status r) v (Error r).
Definition set_Error (v : string) (r : t) : t := mk (Status r) (Result r) v.

Definition zero : t := mk 0 geocodeResultZero "".

Definition fields : list (field t) :=
  [ intField "Status" Status set_Status;
    fieldOf storeGeocodeResult "Result" Result set_Result;
    stringField "Error" Error set_Error ].

Definition store : decoder t := storeStruct TPayload fields.

End Payload.

Definition Decode (body : string) (payload : Payload.t) : Payload.t * option error :=
  match readValue body with
  | inr err => (payload, Some err)
  | inl v => Payload.store [] v payload
  end.

Section Rendering.

Variable libraryText : error -> string.

(** [decodePayload] of this revision: the text of the later one, over
    this revision's [geocodeResult]. *)
Definition decodePayload (r : Response) : geocodeResult * option error :=
  let '(body, err) := ReadAll (Body r) in
  match err with
  | Some e =>
      (geocodeResultZero,
       Some (errorString ("could not read http response body: " ++ Error_ libraryText e)))
  | None =>
      let '(payload, err) := Decode body Payload.zero in
      let err := match err with
                 | Some EOF => None
                 | _ => err
                 end in
      let err := if isNil err && negb (String.eqb (Payload.Error payload) "")
                 then Some (errorString (Payload.Error payload))
                 else err in
      let err := if isNil err && negb (Payload.Status payload =? 200)%Z
                 then Some (pkgError (errorFromHTTPCode (Payload.Status payload)))
                 else err in
      (Payload.Result payload, err)
  end.

(** [Geocode] of this revision. *)
Definition Geocode (httpGet : string -> result Response) (postcode : string)
  : GeoPoint.t * option error :=
  match geocodeURL postcode with
  | (_, Some err) => (GeoPoint.zero, Some (decorateGeocodingError libraryText err))
  | (url, None) =>
      match httpGet url with
      | inr err => (GeoPoint.zero, Some (decorateGeocodingError libraryText err))
      | inl r =>
          if negb (StatusCode r =? 200)%Z
          then (GeoPoint.zero,
                Some (decorateGeocodingError libraryText
                        (pkgError (errorFromHTTPCode (StatusCode r)))))
          else
            let '(result, err) := decodePayload r in
            let err := match err with
                       | Some e => Some (decorateGeocodingError libraryText e)
                       | None => None
                       end in
            (GeoPoint.mk (Longitude result) (Latitude result), err)
      end
  end.

End Rendering.

End Rev1.

(* ================================================================= *)
(** ** Responses used as examples *)

(** [s] between double quotes. *)
Definition quoted (s : string) : string := String dquote (s ++ String dquote "").

(** The body [{"status":200,"result":{"longitude":-0.127,"latitude":51.507}}]. *)
Definition bodyLondon : string :=
  "{" ++ quoted "status" ++ ":200," ++ quoted "result" ++ ":{"
      ++ quoted "longitude" ++ ":-0.127," ++ quoted "latitude" ++ ":51.507}}".

(** The body [{"status":404,"error":"not found"}]. *)
Definition bodyNotFound : string :=
  "{" ++ quoted "status" ++ ":404," ++ quoted "error" ++ ":" ++ quoted "not found" ++ "}".

(** The body [{"status":404}]. *)
Definition bodyStatus404 : string := "{" ++ quoted "status" ++ ":404}".


(** The body
    [{"status":200,"result":{"admin_district":"Westminster","longitude":-0.127,"latitude":51.507}}]. *)
Definition bodyDistrictString : string :=
  "{" ++ quoted "status" ++ ":200," ++ quoted "result" ++ ":{"
      ++ quoted "admin_district" ++ ":" ++ quoted "Westminster" ++ ","
      ++ quoted "longitude" ++ ":-0.127," ++ quoted "latitude" ++ ":51.507}}".

(** The body
    [{"status":200,"result":{"admin_district":["Westminster","Camden"],"longitude":-0.127,"latitude":51.507}}]. *)
Definition bodyDistrictList : string :=
  "{" ++ quoted "status" ++ ":200," ++ quoted "result" ++ ":{"
      ++ quoted "admin_district" ++ ":[" ++ quoted "Westminster" ++ "," ++ quoted "Camden" ++ "],"
      ++ quoted "longitude" ++ ":-0.127," ++ quoted "latitude" ++ ":51.507}}".

(** A transport that answers every request with the given status and
    body. *)
Definition respond (code : Z) (body : string) : string -> result Response :=
  fun _ => ok (mkResponse code (mkReadCloser body None)).

(** A rendering of library errors, for the examples. *)
Definition plainText (err : error) : string := "library error".

(** The binary64 numbers written [-0.127] and [51.507]. *)
Definition lonLondon : float64 := Prim2SF (-0.127)%float.
Definition latLondon : float64 := Prim2SF (51.507)%float.

Definition geocodingPrefix : string := "postcodes.io: could not geocode postcode: ".

(** The coordinates of a decoded result, as [Geocode] returns them. *)
Definition pointOf (result : geocodeResult) : GeoPoint.t :=
  GeoPoint.mk (Longitude result) (Latitude result).

(* ================================================================= *)
(** ** Notions used in the statements *)

(** A body that holds nothing but white space. *)
Fixpoint allSpaces (s : string) : bool :=
  match s with
  | "" => true
  | String c s' => isSpace c && allSpaces s'
  end.

(** The errors storing a value can report: none, or a type error. *)
Definition typeErrorOnly (err : option error) : Prop :=
  match err with
  | None => True
  | Some (UnmarshalTypeError _ _ _) => True
  | Some _ => False
  end.

(** The route [geocodeURL] chooses for an input. *)
Definition routeOf (pc : string) : string :=
  if (4 <? String.length pc)%nat then "/postcodes/" else "/outcodes/".

(** The query as [URL.String] writes it. *)
Definition querySuffix (forceQuery : bool) (rawQuery : string) : string :=
  if forceQuery || negb (String.eqb rawQuery "") then "?" ++ rawQuery else "".

(** What [URL.EscapedPath] writes for a stretch [p] of the path parsed
    from the input: [p] itself when it is a valid encoding, else the
    default encoding of the decoded path. *)
Definition writtenPath (p : string) : string :=
  let d := unescapeDecode p encodePath in
  if String.eqb p (escape d encodePath) then p
  else if validEncoded p encodePath then p
  else escape d encodePath.

(** The URL [parse] returns for [baseURL ++ route ++ p] followed by the
    query [q]. *)
Definition targetURL (route p q : string) (fq : bool) : URL :=
  let d := unescapeDecode p encodePath in
  mkURL "https" "" None "api.postcodes.io" (route ++ d)
    (if String.eqb p (escape d encodePath) then "" else route ++ p)
    false fq q "" "".

(** No byte of the input needs escaping in a path. *)
Fixpoint needsNoEscape (s : string) : bool :=
  match s with
  | "" => true
  | String c s' => negb (shouldEscape c encodePath) && needsNoEscape s'
  end.

(** [utf8.RuneCountInString]: the number of characters of a string, an
    ill-formed byte counting for one. *)
Fixpoint RuneCountInString (s : string) : nat :=
  match s with
  | "" => 0
  | String c0 r0 =>
      if (byteN c0 <? 128)%N then S (RuneCountInString r0)
      else
        match r0 with
        | String c1 r1 =>
            if utf8two c0 c1 then S (RuneCountInString r1)
            else
              match r1 with
              | String c2 r2 =>
                  if utf8three c0 c1 c2 then S (RuneCountInString r2)
                  else
                    match r2 with
                    | String c3 r3 =>
                        if utf8four c0 c1 c2 c3 then S (RuneCountInString r3)
                        else S (RuneCountInString r0)
                    | "" => S (RuneCountInString r0)
                    end
              | "" => S (RuneCountInString r0)
              end
        | "" => 1
        end
  end.

(** Three times the letter e with an acute accent, U+00E9, in UTF-8. *)
Definition threeAccents : string :=
  String "195" (String "169" (String "195" (String "169" (String "195" (String "169" ""))))).

(** The JSON names of the administrative fields of [geocodeResult]. *)
Definition adminFields : list string :=
  ["admin_district"; "parish"; "admin_county"; "admin_ward"; "country"].

Definition isJString (v : json) : bool :=
  match v with JString _ => true | _ => false end.

(** A single string, or a list of strings. *)
Definition stringOrStrings (v : json) : bool :=
  match v with
  | JString _ => true
  | JArray es => forallb isJString es
  | _ => false
  end.

(** Two runs of a decoder from related values report the same error and
    end in related values. *)
Definition simulates {S} (R : S -> S -> Prop) (d : decoder S) : Prop :=
  forall ctx v r r',
    R r r' ->
    snd (d ctx v r) = snd (d ctx v r') /\ R (fst (d ctx v r)) (fst (d ctx v r')).

(** Results that agree on what [Geocode] exposes. *)
Definition sameCoordinates (r r' : geocodeResult) : Prop :=
  Longitude r = Longitude r' /\ Latitude r = Latitude r'.

(** Payloads that agree on what [decodePayload] and [Geocode] read. *)
Definition samePayload (p p' : Payload.t) : Prop :=
  Payload.Status p = Payload.Status p' /\ Payload.Error p = Payload.Error p'
  /\ sameCoordinates (Payload.Result p) (Payload.Result p').

Definition anyPair {T} (x y : T) : Prop := True.

(** A field whose store reports type errors only. *)
Definition fieldTypeErrorOnly {S} (f : field S) : Prop :=
  forall ctx v cur, typeErrorOnly (snd (fieldStore f ctx v cur)).

(** The errors [Error()] has a message of their own for. *)
Definition namedKinds : list Error :=
  [NotFound; BadRequest; ServerError; NoResults; MultipleResults].

(** The message of every other [Error]. *)
Definition invalidErrorText : string :=
  "Invalid Error: Please report to poscodesio Go package maintainer".

(** The scanner before the first byte of a value. *)
Definition initialScanner : scanner := mkScanner stateBeginValue [].

Definition isInitial (s : scanner) : Prop :=
  step s = stateBeginValue /\ parseState s = [].

(** What a step of the scanner leads to once a value has begun: the
    scanner is never back where it started, and an error is a syntax
    error. *)
Definition goesOn (r : scanResult) : Prop :=
  match r with
  | scanContinue s' => ~ isInitial s'
  | scanEnd _ => True
  | scanError e => exists x ctx, e = SyntaxError x ctx
  end.

Definition isJNumber (v : json) : bool :=
  match v with JNumber _ => true | _ => false end.

(** No key of [ms] selects the field [name], whatever its case. *)
Definition lacksField (name : string) (ms : list (string * json)) : bool :=
  forallb (fun m => negb (String.eqb (foldName (fst m)) (foldName name))) ms.

(** The body [{"status":200}]. *)
Definition bodyStatus200 : string := "{" ++ quoted "status" ++ ":200}".

(** The body [{"result":{"longitude":-0.127,"latitude":51.507}}]. *)
Definition bodyResultOnly : string :=
  "{" ++ quoted "result" ++ ":{" ++ quoted "longitude" ++ ":-0.127,"
      ++ quoted "latitude" ++ ":51.507}}".

(** The second error is absent whenever the first one is. *)
Definition quieter (e1 e2 : option error) : Prop := e1 = None -> e2 = None.

(** A decoder of the later revision that follows one of the earlier
    revision: from related values both end in related values, and the
    later one reports no error where the earlier one reports none. *)
Definition refines {S1 S2} (R : S1 -> S2 -> Prop) (d1 : decoder S1) (d2 : decoder S2)
  : Prop :=
  forall ctx v a b,
    R a b ->
    R (fst (d1 ctx v a)) (fst (d2 ctx v b))
    /\ quieter (snd (d1 ctx v a)) (snd (d2 ctx v b)).

Definition anyTwo {A B} (x : A) (y : B) : Prop := True.

(** A result of the earlier revision and one of the later revision with
    the same coordinates. *)
Definition coordinatesKept (r1 : Rev1.geocodeResult) (r2 : geocodeResult) : Prop :=
  Rev1.Longitude r1 = Longitude r2 /\ Rev1.Latitude r1 = Latitude r2.

Definition payloadKept (p1 : Rev1.Payload.t) (p2 : Payload.t) : Prop :=
  Rev1.Payload.Status p1 = Payload.Status p2
  /\ Rev1.Payload.Error p1 = Payload.Error p2
  /\ coordinatesKept (Rev1.Payload.Result p1) (Payload.Result p2).

(** Every field of [fs1] has its name, up to case, among [fs2]. *)
Definition namesCovered {S1 S2} (fs1 : list (field S1)) (fs2 : list (field S2)) : bool :=
  forallb (fun f1 =>
             existsb (fun f2 => String.eqb (foldName (fieldName f2)) (foldName (fieldName f1)))
                     fs2) fs1.

(** An error that is a type error of the decoder. *)
Definition isTypeError (e : option error) : Prop :=
  exists value type field, e = Some (UnmarshalTypeError value type field).

(** Members with the same keys up to case, in the same order, and the
    same values. *)
Definition sameKeysUpToCase (ms1 ms2 : list (string * json)) : Prop :=
  Forall2 (fun m1 m2 => foldName (fst m1) = foldName (fst m2) /\ snd m1 = snd m2) ms1 ms2.

(** The same, where the value of a member may itself be an object whose
    keys differ in case. *)
Definition sameMember (m1 m2 : string * json) : Prop :=
  foldName (fst m1) = foldName (fst m2)
  /\ (snd m1 = snd m2
      \/ exists rs1 rs2,
           snd m1 = JObject rs1 /\ snd m2 = JObject rs2 /\ sameKeysUpToCase rs1 rs2).

(** The body [{"STATUS":200,"Result":{"Longitude":-0.127,"LATITUDE":51.507}}]. *)
Definition bodyLondonCased : string :=
  "{" ++ quoted "STATUS" ++ ":200," ++ quoted "Result" ++ ":{"
      ++ quoted "Longitude" ++ ":-0.127," ++ quoted "LATITUDE" ++ ":51.507}}".

(** The first field whose name is the key up to case. *)
Definition foldFind {S} (fields : list (field S)) (key : string) : option (field S) :=
  find (fun f => String.eqb (foldName (fieldName f)) (foldName key)) fields.

(** C1 at one input, as it is stated: a URL is built, and the path of
    that URL begins with the route for the input's length followed by
    the input. *)
Definition routedWithInput (pc : string) : Prop :=
  exists u uri,
    geocodeURL pc = (u, None) /\ ParseRequestURI u = inl uri
    /\ HasPrefix (Path uri) (routeOf pc ++ pc) = true.

(** No object that the members of [ms] give for the field [Result] has a
    member for the field [name], whatever the case of the keys. *)
Definition resultLacks (name : string) (ms : list (string * json)) : bool :=
  forallb (fun m =>
             negb (String.eqb (foldName (fst m)) (foldName "Result"))
             || match snd m with
                | JObject rs => lacksField name rs
                | _ => true
                end) ms.

(** The body [{"status":200,"result":{"longitude":-0.127}}]. *)
Definition bodyLongitudeOnly : string :=
  "{" ++ quoted "status" ++ ":200," ++ quoted "result" ++ ":{"
      ++ quoted "longitude" ++ ":-0.127}}".

(** Two errors that are the same but for the field a type error names:
    which name it is, the struct field's or the key's as written,
    differs between releases of [encoding/json]. *)
Definition sameErrorUpToField (e1 e2 : option error) : Prop :=
  match e1, e2 with
  | Some (UnmarshalTypeError v1 t1 _), Some (UnmarshalTypeError v2 t2 _) =>
      v1 = v2 /\ t1 = t2
  | _, _ => e1 = e2
  end.

(* ================================================================= *)
(** * Properties *)

(** ** The status classifier *)

(** C6. [errorFromHTTPCode] is a total function on the integers: it maps
    400 to [BadRequest], 404 to [NotFound], 500 to [ServerError] and
    every other integer, 200 and 0 among them, to [InvalidError]. *)
Theorem errorFromHTTPCode_classifies :
  errorFromHTTPCode 400 = BadRequest /\
  errorFromHTTPCode 404 = NotFound /\
  errorFromHTTPCode 500 = ServerError /\
  errorFromHTTPCode 200 = InvalidError /\
  errorFromHTTPCode 0 = InvalidError /\
  (forall code : Z,
      code <> 400%Z -> code <> 404%Z -> code <> 500%Z ->
      errorFromHTTPCode code = InvalidError) /\
  (forall code : Z,
      In (errorFromHTTPCode code) [BadRequest; NotFound; ServerError; InvalidError]).
Proof.
  repeat split; try reflexivity.
  - intros code H400 H404 H500. unfold errorFromHTTPCode.
    destruct (Z.eqb_spec code 400); [contradiction|].
    destruct (Z.eqb_spec code 404); [contradiction|].
    destruct (Z.eqb_spec code 500); [contradiction|].
    reflexivity.
  - intro code. unfold errorFromHTTPCode.
    destruct (code =? 400)%Z; [simpl; tauto|].
    destruct (code =? 404)%Z; [simpl; tauto|].
    destruct (code =? 500)%Z; simpl; tauto.
Qed.

Lemma errorFromHTTPCode_classifies_witness :
  errorFromHTTPCode 418 = InvalidError.
Proof.
  apply (proj1 (proj2 (proj2 (proj2 (proj2 (proj2 errorFromHTTPCode_classifies)))))); lia.
Defined.

(** ** [Geocode]: the outcomes *)

Lemma Geocode_url_error txt httpGet postcode u err :
  geocodeURL postcode = (u, Some err) ->
  Geocode txt httpGet postcode = (GeoPoint.zero, Some (decorateGeocodingError txt err)).
Proof. intro H. unfold Geocode. rewrite H. reflexivity. Qed.

Lemma Geocode_transport_error txt httpGet postcode url err :
  geocodeURL postcode = (url, None) ->
  httpGet url = inr err ->
  Geocode txt httpGet postcode = (GeoPoint.zero, Some (decorateGeocodingError txt err)).
Proof. intros H1 H2. unfold Geocode. rewrite H1, H2. reflexivity. Qed.

Lemma Geocode_status_error txt httpGet postcode url r :
  geocodeURL postcode = (url, None) ->
  httpGet url = inl r ->
  StatusCode r <> 200%Z ->
  Geocode txt httpGet postcode =
    (GeoPoint.zero,
     Some (decorateGeocodingError txt (pkgError (errorFromHTTPCode (StatusCode r))))).
Proof.
  intros H1 H2 H3. unfold Geocode. rewrite H1, H2.
  destruct (Z.eqb_spec (StatusCode r) 200); [contradiction|]. reflexivity.
Qed.

Lemma Geocode_decoded txt httpGet postcode url r :
  geocodeURL postcode = (url, None) ->
  httpGet url = inl r ->
  StatusCode r = 200%Z ->
  Geocode txt httpGet postcode =
    (pointOf (fst (decodePayload txt r)),
     option_map (decorateGeocodingError txt) (snd (decodePayload txt r))).
Proof.
  intros H1 H2 H3. unfold Geocode. rewrite H1, H2, H3. simpl.
  destruct (decodePayload txt r) as [result [e|]]; reflexivity.
Qed.

(** The four ways through [Geocode]. *)
Lemma Geocode_cases txt httpGet postcode :
  (exists u err, geocodeURL postcode = (u, Some err) /\
     Geocode txt httpGet postcode = (GeoPoint.zero, Some (decorateGeocodingError txt err)))
  \/ (exists url err, geocodeURL postcode = (url, None) /\ httpGet url = inr err /\
     Geocode txt httpGet postcode = (GeoPoint.zero, Some (decorateGeocodingError txt err)))
  \/ (exists url r, geocodeURL postcode = (url, None) /\ httpGet url = inl r /\
     StatusCode r <> 200%Z /\
     Geocode txt httpGet postcode =
       (GeoPoint.zero,
        Some (decorateGeocodingError txt (pkgError (errorFromHTTPCode (StatusCode r))))))
  \/ (exists url r, geocodeURL postcode = (url, None) /\ httpGet url = inl r /\
     StatusCode r = 200%Z /\
     Geocode txt httpGet postcode =
       (pointOf (fst (decodePayload txt r)),
        option_map (decorateGeocodingError txt) (snd (decodePayload txt r)))).
Proof.
  destruct (geocodeURL postcode) as [url [err|]] eqn:Hu.
  - left. exists url, err. split; [reflexivity|]. now apply Geocode_url_error with url.
  - right. destruct (httpGet url) as [r|err] eqn:Hg.
    + right. destruct (Z.eq_dec (StatusCode r) 200) as [Hs|Hs].
      * right. exists url, r. repeat split; trivial. now apply Geocode_decoded with url.
      * left. exists url, r. repeat split; trivial. now apply Geocode_status_error with url.
    + left. exists url, err. repeat split; trivial. now apply Geocode_transport_error with url.
Qed.

Lemma error_eq_EOF (e : error) : e = EOF \/ e <> EOF.
Proof. destruct e; (left; reflexivity) || (right; discriminate). Qed.

(** The steps of [decodePayload] once the body is read and decoded. *)
Lemma decodePayload_decoded txt r p err :
  readError (Body r) = None ->
  Decode (content (Body r)) Payload.zero = (p, err) ->
  (err = None \/ err = Some EOF) ->
  decodePayload txt r =
    (Payload.Result p,
     if negb (String.eqb (Payload.Error p) "") then Some (errorString (Payload.Error p))
     else if negb (Payload.Status p =? 200)%Z
          then Some (pkgError (errorFromHTTPCode (Payload.Status p)))
          else None).
Proof.
  intros Hr Hd He. unfold decodePayload, ReadAll. rewrite Hr, Hd.
  destruct He as [-> | ->]; simpl;
    destruct (negb (String.eqb (Payload.Error p) "")); simpl; try reflexivity;
    destruct (negb (Payload.Status p =? 200)%Z); reflexivity.
Qed.

Lemma decodePayload_decode_error txt r p e :
  readError (Body r) = None ->
  Decode (content (Body r)) Payload.zero = (p, Some e) ->
  e <> EOF ->
  decodePayload txt r = (Payload.Result p, Some e).
Proof.
  intros Hr Hd He. unfold decodePayload, ReadAll. rewrite Hr, Hd.
  destruct e; try contradiction; reflexivity.
Qed.

Lemma decodePayload_read_error txt r e :
  readError (Body r) = Some e ->
  decodePayload txt r =
    (geocodeResultZero,
     Some (errorString ("could not read http response body: " ++ Error_ txt e))).
Proof. intro Hr. unfold decodePayload, ReadAll. rewrite Hr. reflexivity. Qed.

(** ** Storing reports type errors only *)

Lemma typeErrorOnly_saveError e1 e2 :
  typeErrorOnly e1 -> typeErrorOnly e2 -> typeErrorOnly (saveError e1 e2).
Proof. destruct e1; simpl; trivial. Qed.

Lemma storeString_typeErrorOnly ctx v cur : typeErrorOnly (snd (storeString ctx v cur)).
Proof. destruct v; simpl; exact I. Qed.

Lemma storeInt_typeErrorOnly ctx v cur : typeErrorOnly (snd (storeInt ctx v cur)).
Proof. destruct v; simpl; try exact I. destruct (ParseInt lit); exact I. Qed.

Lemma storeFloat64_typeErrorOnly ctx v cur : typeErrorOnly (snd (storeFloat64 ctx v cur)).
Proof. destruct v; simpl; try exact I. destruct (ParseFloat lit); exact I. Qed.

Lemma elementsWith_typeErrorOnly f es :
  Forall (fun e => typeErrorOnly (snd (f e))) es ->
  typeErrorOnly (snd (elementsWith f es)).
Proof.
  induction 1 as [|e es He _ IH]; simpl; [exact I|].
  destruct (f e) as [x err1]. destruct (elementsWith f es) as [xs err2].
  simpl in *. now apply typeErrorOnly_saveError.
Qed.

Lemma entriesWith_typeErrorOnly f ms :
  Forall (fun m => typeErrorOnly (snd (f (snd m)))) ms ->
  forall acc, typeErrorOnly (snd (entriesWith f acc ms)).
Proof.
  induction 1 as [|[k e] ms He _ IH]; intro acc; simpl; [exact I|].
  simpl in He. destruct (f e) as [x err1].
  specialize (IH (mapSet k x acc)).
  destruct (entriesWith f (mapSet k x acc) ms) as [m err2].
  simpl in *. now apply typeErrorOnly_saveError.
Qed.

Lemma valueInterface_typeErrorOnly ctx v : typeErrorOnly (snd (valueInterface ctx v)).
Proof.
  induction v using json_induction; simpl; try exact I.
  - destruct (ParseFloat lit); exact I.
  - pose proof (elementsWith_typeErrorOnly (valueInterface ctx) es H) as HH.
    destruct (elementsWith (valueInterface ctx) es). exact HH.
  - pose proof (entriesWith_typeErrorOnly (valueInterface ctx) ms H []) as HH.
    destruct (entriesWith (valueInterface ctx) [] ms). exact HH.
Qed.

Lemma storeInterface_typeErrorOnly ctx v cur :
  typeErrorOnly (snd (storeInterface ctx v cur)).
Proof.
  destruct v; try apply valueInterface_typeErrorOnly.
  simpl. destruct (ParseFloat lit); exact I.
Qed.

Lemma fieldOf_typeErrorOnly {S T} (d : decoder T) name (get : S -> T) set :
  (forall ctx v cur, typeErrorOnly (snd (d ctx v cur))) ->
  fieldTypeErrorOnly (fieldOf d name get set).
Proof.
  intros Hd ctx v cur. simpl.
  specialize (Hd (ctx ++ [name])%list v (get cur)).
  destruct (d (ctx ++ [name])%list v (get cur)). exact Hd.
Qed.

Lemma findField_In {S} (fields : list (field S)) key f :
  findField fields key = Some f -> In f fields.
Proof.
  unfold findField.
  destruct (find _ fields) as [g|] eqn:H1.
  - intro H. inversion H; subst. now apply find_some in H1.
  - intro H. now apply find_some in H.
Qed.

Lemma object_typeErrorOnly {S} (fields : list (field S)) :
  Forall fieldTypeErrorOnly fields ->
  forall ms ctx cur, typeErrorOnly (snd (object fields ctx ms cur)).
Proof.
  intros Hf ms. induction ms as [|[key v] ms IH]; intros ctx cur; simpl; [exact I|].
  destruct (findField fields key) as [f|] eqn:Hfind; [|apply IH].
  apply findField_In in Hfind.
  rewrite Forall_forall in Hf. specialize (Hf f Hfind ctx v cur).
  destruct (fieldStore f ctx v cur) as [cur1 err1].
  specialize (IH ctx cur1).
  destruct (object fields ctx ms cur1) as [cur2 err2].
  simpl in *. now apply typeErrorOnly_saveError.
Qed.

Lemma storeStruct_typeErrorOnly {S} t (fields : list (field S)) :
  Forall fieldTypeErrorOnly fields ->
  forall ctx v cur, typeErrorOnly (snd (storeStruct t fields ctx v cur)).
Proof.
  intros Hf ctx v cur. destruct v; simpl; try exact I.
  now apply object_typeErrorOnly.
Qed.

Ltac fields_typeErrorOnly :=
  repeat (apply Forall_cons;
          [ apply fieldOf_typeErrorOnly; intros;
            first [ apply storeString_typeErrorOnly | apply storeInt_typeErrorOnly
                  | apply storeFloat64_typeErrorOnly | apply storeInterface_typeErrorOnly ]
          | ]).

Lemma CodesStruct_store_typeErrorOnly ctx v cur :
  typeErrorOnly (snd (CodesStruct.store ctx v cur)).
Proof.
  apply storeStruct_typeErrorOnly. unfold CodesStruct.fields.
  fields_typeErrorOnly. apply Forall_nil.
Qed.

Lemma storeGeocodeResult_typeErrorOnly ctx v cur :
  typeErrorOnly (snd (storeGeocodeResult ctx v cur)).
Proof.
  apply storeStruct_typeErrorOnly. unfold geocodeResultFields.
  fields_typeErrorOnly.
  apply Forall_cons; [|apply Forall_nil].
  apply fieldOf_typeErrorOnly. apply CodesStruct_store_typeErrorOnly.
Qed.

Lemma Payload_store_typeErrorOnly ctx v cur :
  typeErrorOnly (snd (Payload.store ctx v cur)).
Proof.
  apply storeStruct_typeErrorOnly. unfold Payload.fields.
  apply Forall_cons;
    [apply fieldOf_typeErrorOnly; intros; apply storeInt_typeErrorOnly|].
  apply Forall_cons;
    [apply fieldOf_typeErrorOnly; intros; apply storeGeocodeResult_typeErrorOnly|].
  apply Forall_cons;
    [apply fieldOf_typeErrorOnly; intros; apply storeString_typeErrorOnly|].
  apply Forall_nil.
Qed.

(** [Decode] reports [io.EOF] only when the body holds no value, and it
    then leaves the payload as it was. *)
Lemma Decode_EOF body p0 p :
  Decode body p0 = (p, Some EOF) -> readValue body = inr EOF /\ p = p0.
Proof.
  unfold Decode. destruct (readValue body) as [v|e].
  - intro H. pose proof (Payload_store_typeErrorOnly [] v p0) as HT.
    rewrite H in HT. contradiction.
  - intro H. inversion H. split; reflexivity.
Qed.

(** ** Responses whose status is not 200 *)

(** C7. When the response's status is not 200, [Geocode] returns the
    classification of that status, decorated, with a zero point, and the
    body plays no part; for status 404 the decorated error is that of
    [NotFound]. *)
Theorem Geocode_non200_status txt httpGet postcode url r :
  geocodeURL postcode = (url, None) ->
  httpGet url = inl r ->
  StatusCode r <> 200%Z ->
  Geocode txt httpGet postcode =
    (GeoPoint.zero,
     Some (decorateGeocodingError txt (pkgError (errorFromHTTPCode (StatusCode r)))))
  /\ (forall body,
        Geocode txt (fun _ => ok (mkResponse (StatusCode r) body)) postcode =
        Geocode txt httpGet postcode)
  /\ (StatusCode r = 404%Z ->
        Geocode txt httpGet postcode =
          (GeoPoint.zero, Some (decorateGeocodingError txt (pkgError NotFound)))
        /\ decorateGeocodingError txt (pkgError NotFound) =
             errorString (geocodingPrefix
                          ++ "postcodes.io could not find the requested information (404)")).
Proof.
  intros Hu Hg Hs.
  assert (HG := Geocode_status_error txt httpGet postcode url r Hu Hg Hs).
  split; [exact HG|]. split.
  - intro body. rewrite HG.
    now apply (Geocode_status_error txt _ postcode url (mkResponse (StatusCode r) body)).
  - intro H404. split; [|reflexivity]. rewrite HG, H404. reflexivity.
Qed.

Lemma Geocode_non200_status_witness :
  Geocode plainText (respond 404 bodyLondon) "SW1A 1AA" =
    (GeoPoint.zero,
     Some (decorateGeocodingError plainText (pkgError (errorFromHTTPCode 404)))).
Proof.
  refine (proj1 (Geocode_non200_status plainText (respond 404 bodyLondon) "SW1A 1AA"
                   "https://api.postcodes.io/postcodes/SW1A%201AA"
                   (mkResponse 404 (mkReadCloser bodyLondon None)) eq_refl eq_refl _)).
  discriminate.
Defined.

(** ** What a member that is absent leaves untouched *)

Lemma findField_name {S} (fields : list (field S)) key f :
  findField fields key = Some f ->
  In f fields /\ foldName (fieldName f) = foldName key.
Proof.
  unfold findField. destruct (find _ fields) as [g|] eqn:H1.
  - intro H. injection H as <-. apply find_some in H1 as [Hin Hn].
    apply String.eqb_eq in Hn. split; [exact Hin | now rewrite Hn].
  - intro H. apply find_some in H as [Hin Hn]. apply String.eqb_eq in Hn. now split.
Qed.

Lemma object_preserves {S T} (g : S -> T) (fields : list (field S)) ctx ms :
  (forall key v f,
      In (key, v) ms -> findField fields key = Some f ->
      forall r, g (fst (fieldStore f ctx v r)) = g r) ->
  forall cur, g (fst (object fields ctx ms cur)) = g cur.
Proof.
  induction ms as [|[key v] ms IH]; intros H cur; simpl; [reflexivity|].
  destruct (findField fields key) as [f|] eqn:Hf.
  - pose proof (H key v f (or_introl eq_refl) Hf cur) as H1.
    destruct (fieldStore f ctx v cur) as [c1 e1]. simpl in H1.
    assert (IH' := IH (fun k x f' Hin => H k x f' (or_intror Hin)) c1).
    destruct (object fields ctx ms c1) as [c2 e2]. simpl in *. congruence.
  - apply IH. intros k x f' Hin. apply H. now right.
Qed.

Lemma fieldOf_preserves {S T U} (g : S -> U) (d : decoder T) name (get : S -> T) set :
  (forall x r, g (set x r) = g r) ->
  forall ctx v r, g (fst (fieldStore (fieldOf d name get set) ctx v r)) = g r.
Proof.
  intros H ctx v r. simpl. destruct (d (ctx ++ [name])%list v (get r)) as [x e]. apply H.
Qed.

Lemma lacksField_In name ms key v :
  lacksField name ms = true -> In (key, v) ms -> foldName key <> foldName name.
Proof.
  unfold lacksField. rewrite forallb_forall. intros H Hin Heq.
  specialize (H (key, v) Hin). simpl in H. rewrite Heq, String.eqb_refl in H. discriminate.
Qed.

Lemma fieldOf_fst {S T} (d : decoder T) name (get : S -> T) set ctx v r :
  fst (fieldStore (fieldOf d name get set) ctx v r)
  = set (fst (d (ctx ++ [name])%list v (get r))) r.
Proof. simpl. now destruct (d (ctx ++ [name])%list v (get r)). Qed.

Lemma geocodeResult_keeps_longitude ctx rs r :
  lacksField "longitude" rs = true ->
  Longitude (fst (object geocodeResultFields ctx rs r)) = Longitude r.
Proof.
  intro HL. apply (object_preserves Longitude). intros key v f Hin Hf r0.
  apply findField_name in Hf as [Hf Hn].
  pose proof (lacksField_In _ _ _ _ HL Hin) as Hne. rewrite <- Hn in Hne.
  unfold geocodeResultFields in Hf. cbn [In] in Hf.
  repeat (destruct Hf as [<- | Hf]); try (destruct Hf);
    first [ apply (fieldOf_preserves Longitude); intros x []; reflexivity
          | exfalso; apply Hne; vm_compute; reflexivity ].
Qed.

Lemma geocodeResult_keeps_latitude ctx rs r :
  lacksField "latitude" rs = true ->
  Latitude (fst (object geocodeResultFields ctx rs r)) = Latitude r.
Proof.
  intro HL. apply (object_preserves Latitude). intros key v f Hin Hf r0.
  apply findField_name in Hf as [Hf Hn].
  pose proof (lacksField_In _ _ _ _ HL Hin) as Hne. rewrite <- Hn in Hne.
  unfold geocodeResultFields in Hf. cbn [In] in Hf.
  repeat (destruct Hf as [<- | Hf]); try (destruct Hf);
    first [ apply (fieldOf_preserves Latitude); intros x []; reflexivity
          | exfalso; apply Hne; vm_compute; reflexivity ].
Qed.

(** A coordinate that no result object of the body gives is the one the
    payload had. *)
Lemma Payload_keeps_coordinate (g : geocodeResult -> float64) name ctx ms p :
  (forall ctx rs r, lacksField name rs = true ->
                    g (fst (object geocodeResultFields ctx rs r)) = g r) ->
  resultLacks name ms = true ->
  g (Payload.Result (fst (object Payload.fields ctx ms p))) = g (Payload.Result p).
Proof.
  intros Hg HL. apply (object_preserves (fun p => g (Payload.Result p))).
  intros key v f Hin Hf r.
  apply findField_name in Hf as [Hf Hn].
  unfold resultLacks in HL. rewrite forallb_forall in HL.
  specialize (HL (key, v) Hin). simpl in HL.
  unfold Payload.fields in Hf. cbn [In] in Hf.
  destruct Hf as [<- | [<- | [<- | []]]].
  - apply (fieldOf_preserves (fun p => g (Payload.Result p))). reflexivity.
  - cbn [fieldName fieldOf] in Hn. rewrite <- Hn, String.eqb_refl in HL. simpl in HL.
    rewrite fieldOf_fst. cbn [Payload.set_Result Payload.Result].
    unfold storeGeocodeResult, storeStruct.
    destruct v; try reflexivity. now apply Hg.
  - apply (fieldOf_preserves (fun p => g (Payload.Result p))). reflexivity.
Qed.

Lemma decodePayload_absent_coordinate (g : geocodeResult -> float64) name txt r ms :
  (forall ctx rs r, lacksField name rs = true ->
                    g (fst (object geocodeResultFields ctx rs r)) = g r) ->
  g geocodeResultZero = float64Zero ->
  readValue (content (Body r)) = inl (JObject ms) ->
  resultLacks name ms = true ->
  g (fst (decodePayload txt r)) = float64Zero.
Proof.
  intros Hg H0 Hv HL.
  destruct (readError (Body r)) as [re|] eqn:Hr.
  { now rewrite (decodePayload_read_error txt r re Hr). }
  assert (HD : Decode (content (Body r)) Payload.zero
               = object Payload.fields [] ms Payload.zero).
  { unfold Decode. now rewrite Hv. }
  pose proof (Payload_keeps_coordinate g name [] ms Payload.zero Hg HL) as HK.
  destruct (object Payload.fields [] ms Payload.zero) as [p de]. simpl in HK.
  assert (HF : fst (decodePayload txt r) = Payload.Result p).
  { destruct de as [e|].
    - destruct (error_eq_EOF e) as [-> | Hne].
      + now rewrite (decodePayload_decoded txt r p _ Hr HD (or_intror eq_refl)).
      + now rewrite (decodePayload_decode_error txt r p e Hr HD Hne).
    - now rewrite (decodePayload_decoded txt r p _ Hr HD (or_introl eq_refl)). }
  rewrite HF, HK. exact H0.
Qed.

(** ** Success *)

Lemma decodePayload_bodyLondon txt code :
  pointOf (fst (decodePayload txt (mkResponse code (mkReadCloser bodyLondon None))))
    = GeoPoint.mk lonLondon latLondon
  /\ snd (decodePayload txt (mkResponse code (mkReadCloser bodyLondon None))) = None.
Proof. split; vm_compute; reflexivity. Qed.

(** The coordinates of the example, bit for bit, and as [ParseFloat]
    reads them. *)
Lemma london_coordinates :
  lonLondon = S754_finite true 4575657221408424 (-55)
  /\ latLondon = S754_finite false 7248965812717879 (-47)
  /\ ParseFloat "-0.127" = Some lonLondon
  /\ ParseFloat "51.507" = Some latLondon.
Proof. repeat split; vm_compute; reflexivity. Qed.

(** C2, as stated, fails: a success need not hold both coordinates of
    the service.  With status 200 and the body
    [{"status":200,"result":{"longitude":-0.127}}], which gives no
    latitude, [Geocode] returns the longitude and the latitude 0 with a
    nil error. *)
Lemma Geocode_partial_success :
  Geocode plainText (respond 200 bodyLongitudeOnly) "SW1A 1AA"
  = (GeoPoint.mk lonLondon float64Zero, None)
  /\ readValue bodyLongitudeOnly
     = inl (JObject [("status", JNumber "200");
                     ("result", JObject [("longitude", JNumber "-0.127")])])
  /\ lonLondon <> float64Zero.
Proof. split; [vm_compute; reflexivity|]. split; [reflexivity|]. vm_compute. discriminate. Qed.

(** C2, amended.  With status 200 and the body
    [{"status":200,"result":{"longitude":-0.127,"latitude":51.507}}],
    [Geocode] returns the point of longitude -0.127 and latitude 51.507
    and a nil error; and whenever [Geocode] returns a nil error, the
    envelope was decoded, into a payload that started zero-valued,
    without error with status 200 and no error string, and the point
    holds the longitude and latitude of its result.  Nothing requires
    the body to give them: a coordinate that no result object of the
    body gives is 0 in the point. *)
Theorem Geocode_success txt httpGet postcode :
  (forall url,
      geocodeURL postcode = (url, None) ->
      httpGet url = inl (mkResponse 200 (mkReadCloser bodyLondon None)) ->
      Geocode txt httpGet postcode = (GeoPoint.mk lonLondon latLondon, None))
  /\ (forall pt,
        Geocode txt httpGet postcode = (pt, None) ->
        exists url r p,
          geocodeURL postcode = (url, None) /\ httpGet url = inl r /\
          StatusCode r = 200%Z /\ readError (Body r) = None /\
          Decode (content (Body r)) Payload.zero = (p, None) /\
          Payload.Status p = 200%Z /\ Payload.Error p = "" /\
          pt = GeoPoint.mk (Longitude (Payload.Result p)) (Latitude (Payload.Result p)))
  /\ (forall url r ms pt,
        geocodeURL postcode = (url, None) ->
        httpGet url = inl r ->
        readValue (content (Body r)) = inl (JObject ms) ->
        Geocode txt httpGet postcode = (pt, None) ->
        (resultLacks "longitude" ms = true -> GeoPoint.Longitude pt = float64Zero)
        /\ (resultLacks "latitude" ms = true -> GeoPoint.Latitude pt = float64Zero)).
Proof.
  split; [|split].
  - intros url Hu Hg.
    rewrite (Geocode_decoded txt httpGet postcode url _ Hu Hg eq_refl).
    destruct (decodePayload_bodyLondon txt 200) as [-> ->]. reflexivity.
  - intros pt HG.
    destruct (Geocode_cases txt httpGet postcode)
      as [(u & e & _ & H) | [(u & e & _ & _ & H) | [(u & r & _ & _ & _ & H)
         | (url & r & Hu & Hg & Hs & H)]]];
      rewrite H in HG; try discriminate.
    exists url, r.
    destruct (readError (Body r)) as [e|] eqn:Hr.
    { rewrite (decodePayload_read_error txt r e Hr) in HG. discriminate. }
    destruct (Decode (content (Body r)) Payload.zero) as [p err] eqn:Hd.
    destruct err as [e|].
    + destruct (error_eq_EOF e) as [-> | Hne].
      * rewrite (decodePayload_decoded txt r p (Some EOF) Hr Hd (or_intror eq_refl)) in HG.
        destruct (Decode_EOF _ _ _ Hd) as [_ ->]. discriminate.
      * rewrite (decodePayload_decode_error txt r p e Hr Hd Hne) in HG. discriminate.
    + exists p.
      rewrite (decodePayload_decoded txt r p None Hr Hd (or_introl eq_refl)) in HG.
      simpl in HG.
      destruct (String.eqb_spec (Payload.Error p) ""); [|discriminate].
      destruct (Z.eqb_spec (Payload.Status p) 200); [|discriminate].
      simpl in HG. inversion HG. repeat split; trivial.
  - intros url r ms pt Hu Hg Hv HG.
    destruct (Z.eq_dec (StatusCode r) 200) as [Hs|Hs].
    + rewrite (Geocode_decoded txt httpGet postcode url r Hu Hg Hs) in HG.
      injection HG as <- _. unfold pointOf. cbn [GeoPoint.Longitude GeoPoint.Latitude].
      split; intro HL.
      * exact (decodePayload_absent_coordinate Longitude "longitude" txt r ms
                 geocodeResult_keeps_longitude eq_refl Hv HL).
      * exact (decodePayload_absent_coordinate Latitude "latitude" txt r ms
                 geocodeResult_keeps_latitude eq_refl Hv HL).
    + rewrite (Geocode_status_error txt httpGet postcode url r Hu Hg Hs) in HG.
      discriminate HG.
Qed.

Lemma Geocode_success_witness :
  Geocode plainText (respond 200 bodyLondon) "SW1A 1AA" =
    (GeoPoint.mk lonLondon latLondon, None).
Proof.
  exact (proj1 (Geocode_success plainText (respond 200 bodyLondon) "SW1A 1AA")
           "https://api.postcodes.io/postcodes/SW1A%201AA" eq_refl eq_refl).
Defined.

(** ** Failure *)

Lemma decorated_has_prefix txt err :
  decorateGeocodingError txt err = errorString (geocodingPrefix ++ Error_ txt err).
Proof. reflexivity. Qed.





(** ** The decode stage *)

(** With a body of white space only, the decoder meets the end of input
    before any value and leaves the payload untouched. *)
Lemma readValueFrom_blank ws :
  allSpaces ws = true ->
  readValueFrom (mkScanner stateBeginValue []) ws = inr EOF.
Proof.
  induction ws as [|c ws IH]; simpl; [reflexivity|].
  intro H. apply andb_prop in H as [Hc Hws].
  unfold scanStep, stepBeginValue. simpl. rewrite Hc. now apply IH.
Qed.

(** With status 200 and an empty body [decodePayload] does report an
    error. *)
Lemma decodePayload_empty_body_reports_error :
  decodePayload plainText (mkResponse 200 (mkReadCloser "" None))
  <> (geocodeResultZero, None).
Proof. vm_compute. discriminate. Qed.

(** C4.  The code misses what the claim says.  For a response whose
    body is empty, or holds white space only, [decodePayload] sets the
    decoder's end-of-input error to nil, as the claim has it, and the
    result is the zero value; but the check that follows, written for a
    status the decoded JSON included, meets the status 0 of the payload
    nothing was decoded into and reports [InvalidError]. *)
Theorem decodePayload_blank_body txt code ws :
  allSpaces ws = true ->
  Decode ws Payload.zero = (Payload.zero, Some EOF)
  /\ decodePayload txt (mkResponse code (mkReadCloser ws None))
     = (geocodeResultZero, Some (pkgError InvalidError))
  /\ snd (decodePayload txt (mkResponse code (mkReadCloser ws None))) <> Some EOF.
Proof.
  intro Hws.
  assert (HD : Decode ws Payload.zero = (Payload.zero, Some EOF)).
  { unfold Decode, readValue. now rewrite readValueFrom_blank. }
  assert (HP : decodePayload txt (mkResponse code (mkReadCloser ws None))
               = (geocodeResultZero, Some (pkgError InvalidError))).
  { rewrite (decodePayload_decoded txt (mkResponse code (mkReadCloser ws None))
               Payload.zero (Some EOF) eq_refl HD (or_intror eq_refl)).
    reflexivity. }
  split; [exact HD|]. split; [exact HP|]. rewrite HP. discriminate.
Qed.

Lemma decodePayload_blank_body_witness :
  decodePayload plainText (mkResponse 200 (mkReadCloser "" None))
  = (geocodeResultZero, Some (pkgError InvalidError)).
Proof.
  exact (proj1 (proj2 (decodePayload_blank_body plainText 200 "" eq_refl))).
Defined.

(** C5. When the envelope is decoded without error, a non-empty error
    string makes [decodePayload] fail with that string as a plain error,
    whatever the embedded status; with an empty error string, an embedded
    status other than 200 makes it fail with the classification of that
    status by [errorFromHTTPCode]; otherwise it returns no error.  So for
    the body [{"status":404,"error":"not found"}] the error is the string,
    and for [{"status":404}] it is [NotFound]. *)
Theorem decodePayload_envelope_checks txt r p :
  readError (Body r) = None ->
  Decode (content (Body r)) Payload.zero = (p, None) ->
  (Payload.Error p <> "" ->
     decodePayload txt r = (Payload.Result p, Some (errorString (Payload.Error p))))
  /\ (Payload.Error p = "" -> Payload.Status p <> 200%Z ->
        decodePayload txt r =
          (Payload.Result p, Some (pkgError (errorFromHTTPCode (Payload.Status p)))))
  /\ (Payload.Error p = "" -> Payload.Status p = 200%Z ->
        decodePayload txt r = (Payload.Result p, None))
  /\ snd (decodePayload txt (mkResponse 200 (mkReadCloser bodyNotFound None)))
     = Some (errorString "not found")
  /\ snd (decodePayload txt (mkResponse 200 (mkReadCloser bodyStatus404 None)))
     = Some (pkgError NotFound).
Proof.
  intros Hr Hd.
  rewrite (decodePayload_decoded txt r p None Hr Hd (or_introl eq_refl)).
  repeat split.
  - intro He. destruct (String.eqb_spec (Payload.Error p) ""); [contradiction|]. reflexivity.
  - intros He Hs. rewrite He. simpl.
    destruct (Z.eqb_spec (Payload.Status p) 200); [contradiction|]. reflexivity.
  - intros He Hs. rewrite He, Hs. reflexivity.
Qed.

Lemma decodePayload_envelope_checks_witness :
  decodePayload plainText (mkResponse 200 (mkReadCloser bodyNotFound None))
  = (geocodeResultZero, Some (errorString "not found")).
Proof.
  refine (proj1 (decodePayload_envelope_checks plainText
                   (mkResponse 200 (mkReadCloser bodyNotFound None))
                   (Payload.mk 404 geocodeResultZero "not found") eq_refl eq_refl) _).
  discriminate.
Defined.

(** ** The administrative fields *)

Lemma saveError_assoc e1 e2 e3 :
  saveError (saveError e1 e2) e3 = saveError e1 (saveError e2 e3).
Proof. destruct e1; reflexivity. Qed.

Lemma object_app {S} (fields : list (field S)) ctx ms1 ms2 cur :
  object fields ctx (ms1 ++ ms2)%list cur =
    let '(cur1, err1) := object fields ctx ms1 cur in
    let '(cur2, err2) := object fields ctx ms2 cur1 in
    (cur2, saveError err1 err2).
Proof.
  revert cur. induction ms1 as [|[key v] ms1 IH]; intro cur; simpl.
  - destruct (object fields ctx ms2 cur); reflexivity.
  - destruct (findField fields key) as [f|]; [|apply IH].
    destruct (fieldStore f ctx v cur) as [c1 e1]. rewrite IH.
    destruct (object fields ctx ms1 c1) as [c2 e2].
    destruct (object fields ctx ms2 c2) as [c3 e3].
    now rewrite saveError_assoc.
Qed.

Lemma simulates_eq {S} (d : decoder S) : simulates eq d.
Proof. intros ctx v r r' ->. split; reflexivity. Qed.

Lemma storeString_blind : simulates anyPair storeString.
Proof. intros ctx v r r' _. destruct v; split; exact I || reflexivity. Qed.

Lemma storeInt_blind : simulates anyPair storeInt.
Proof.
  intros ctx v r r' _. destruct v; split; try exact I; try reflexivity.
  simpl. destruct (ParseInt lit); reflexivity.
Qed.

Lemma storeInterface_blind : simulates anyPair storeInterface.
Proof.
  intros ctx v r r' _. destruct v; split; try exact I; try reflexivity.
  simpl. destruct (ParseFloat lit); reflexivity.
Qed.

Lemma fieldOf_simulates {S T} (R : S -> S -> Prop) (Q : T -> T -> Prop)
    (d : decoder T) name (get : S -> T) (set : T -> S -> S) :
  simulates Q d ->
  (forall r r', R r r' -> Q (get r) (get r')) ->
  (forall r r' x x', R r r' -> Q x x' -> R (set x r) (set x' r')) ->
  simulates R (fieldStore (fieldOf d name get set)).
Proof.
  intros Hd Hget Hset ctx v r r' HR. simpl.
  destruct (Hd (ctx ++ [name])%list v (get r) (get r') (Hget r r' HR)) as [He HQ].
  destruct (d (ctx ++ [name])%list v (get r)) as [x e].
  destruct (d (ctx ++ [name])%list v (get r')) as [x' e'].
  simpl in *. split; [exact He | now apply Hset].
Qed.

Lemma object_simulates {S} (R : S -> S -> Prop) (fields : list (field S)) :
  Forall (fun f => simulates R (fieldStore f)) fields ->
  forall ms ctx r r',
    R r r' ->
    snd (object fields ctx ms r) = snd (object fields ctx ms r')
    /\ R (fst (object fields ctx ms r)) (fst (object fields ctx ms r')).
Proof.
  intros Hf ms. induction ms as [|[key v] ms IH]; intros ctx r r' HR; simpl.
  - split; [reflexivity | exact HR].
  - destruct (findField fields key) as [f|] eqn:Hfind; [|now apply IH].
    apply findField_In in Hfind. rewrite Forall_forall in Hf.
    destruct (Hf f Hfind ctx v r r' HR) as [He HR1].
    destruct (fieldStore f ctx v r) as [c1 e1].
    destruct (fieldStore f ctx v r') as [c1' e1'].
    simpl in *. destruct (IH ctx c1 c1' HR1) as [He2 HR2].
    destruct (object fields ctx ms c1) as [c2 e2].
    destruct (object fields ctx ms c1') as [c2' e2'].
    simpl in *. subst. split; [reflexivity | exact HR2].
Qed.

Lemma storeStruct_simulates {S} (R : S -> S -> Prop) t (fields : list (field S)) :
  Forall (fun f => simulates R (fieldStore f)) fields ->
  simulates R (storeStruct t fields).
Proof.
  intros Hf ctx v r r' HR. destruct v; simpl; try (split; [reflexivity | exact HR]).
  now apply object_simulates.
Qed.

Lemma CodesStruct_store_blind : simulates anyPair CodesStruct.store.
Proof.
  apply storeStruct_simulates. unfold CodesStruct.fields.
  repeat (apply Forall_cons;
          [ apply (fieldOf_simulates anyPair anyPair);
            [ apply storeString_blind | intros; exact I | intros; exact I ] | ]).
  apply Forall_nil.
Qed.

(** A field of [geocodeResult] other than the coordinates: whatever is
    stored, the coordinates stay. *)
Ltac hidden_field blind :=
  apply (fieldOf_simulates sameCoordinates anyPair);
  [ apply blind
  | intros; exact I
  | intros [] [] ? ? HR _; exact HR ].

(** One of the two coordinates. *)
Ltac coordinate_field :=
  apply (fieldOf_simulates sameCoordinates eq);
  [ apply simulates_eq
  | intros ? ? HR; apply HR
  | intros [] [] ? ? [H1 H2] ->; split; simpl in *; congruence ].

Lemma geocodeResultFields_simulate :
  Forall (fun f => simulates sameCoordinates (fieldStore f)) geocodeResultFields.
Proof.
  unfold geocodeResultFields.
  repeat (apply Forall_cons;
          [ first [ hidden_field storeString_blind
                  | hidden_field storeInt_blind
                  | hidden_field storeInterface_blind
                  | hidden_field CodesStruct_store_blind
                  | coordinate_field ] | ]).
  apply Forall_nil.
Qed.

Lemma storeGeocodeResult_simulates : simulates sameCoordinates storeGeocodeResult.
Proof. apply storeStruct_simulates, geocodeResultFields_simulate. Qed.

Lemma Payload_fields_simulate :
  Forall (fun f => simulates samePayload (fieldStore f)) Payload.fields.
Proof.
  unfold Payload.fields.
  apply Forall_cons.
  { apply (fieldOf_simulates samePayload eq).
    - apply simulates_eq.
    - intros ? ? HR. apply HR.
    - intros [] [] ? ? HR ->. unfold samePayload, sameCoordinates in *.
      simpl in *. intuition congruence. }
  apply Forall_cons.
  { apply (fieldOf_simulates samePayload sameCoordinates).
    - apply storeGeocodeResult_simulates.
    - intros ? ? HR. apply HR.
    - intros [] [] ? ? HR HQ. unfold samePayload, sameCoordinates in *.
      simpl in *. intuition congruence. }
  apply Forall_cons; [|apply Forall_nil].
  apply (fieldOf_simulates samePayload eq).
  - apply simulates_eq.
  - intros ? ? HR. apply HR.
  - intros [] [] ? ? HR ->. unfold samePayload, sameCoordinates in *.
    simpl in *. intuition congruence.
Qed.

(** A string or a list of strings is stored into an [interface{}]
    without error. *)
Lemma storeInterface_stringOrStrings ctx v cur :
  stringOrStrings v = true -> snd (storeInterface ctx v cur) = None.
Proof.
  destruct v; simpl; try discriminate; [reflexivity|].
  intro H.
  assert (HE : snd (elementsWith (valueInterface ctx) elems) = None).
  { induction elems as [|e es IH]; simpl; [reflexivity|].
    simpl in H. apply andb_prop in H as [He Hes].
    destruct e; try discriminate. simpl.
    specialize (IH Hes). destruct (elementsWith (valueInterface ctx) es). exact IH. }
  destruct (elementsWith (valueInterface ctx) elems). exact HE.
Qed.

(** The keys of the administrative fields select fields of type
    [interface{}] of [geocodeResult]. *)
Lemma adminFields_interface k :
  In k adminFields ->
  exists get set,
    findField geocodeResultFields k = Some (interfaceField k get set)
    /\ forall x r, sameCoordinates (set x r) r.
Proof.
  intros [<-|[<-|[<-|[<-|[<-|[]]]]]].
  - exists Admin_district, set_Admin_district. split; [reflexivity|]. intros x []; split; reflexivity.
  - exists Parish, set_Parish. split; [reflexivity|]. intros x []; split; reflexivity.
  - exists Admin_county, set_Admin_county. split; [reflexivity|]. intros x []; split; reflexivity.
  - exists Admin_ward, set_Admin_ward. split; [reflexivity|]. intros x []; split; reflexivity.
  - exists Country, set_Country. split; [reflexivity|]. intros x []; split; reflexivity.
Qed.

Lemma sameCoordinates_trans r1 r2 r3 :
  sameCoordinates r1 r2 -> sameCoordinates r2 r3 -> sameCoordinates r1 r3.
Proof. intros [H1 H2] [H3 H4]. split; congruence. Qed.

(** An administrative member more in the result object changes neither
    the error nor the coordinates of what is decoded. *)
Lemma object_admin_member k v ctx ms1 ms2 r :
  In k adminFields -> stringOrStrings v = true ->
  snd (object geocodeResultFields ctx (ms1 ++ (k, v) :: ms2)%list r)
  = snd (object geocodeResultFields ctx (ms1 ++ ms2)%list r)
  /\ sameCoordinates
       (fst (object geocodeResultFields ctx (ms1 ++ (k, v) :: ms2)%list r))
       (fst (object geocodeResultFields ctx (ms1 ++ ms2)%list r)).
Proof.
  intros Hk Hv. rewrite !object_app.
  destruct (object geocodeResultFields ctx ms1 r) as [r1 e1].
  simpl. destruct (adminFields_interface k Hk) as (get & set & -> & Hset).
  simpl.
  pose proof (storeInterface_stringOrStrings (ctx ++ [k])%list v (get r1) Hv) as Hnone.
  destruct (storeInterface (ctx ++ [k])%list v (get r1)) as [x e]. simpl in Hnone. subst e.
  destruct (object_simulates sameCoordinates geocodeResultFields
              geocodeResultFields_simulate ms2 ctx (set x r1) r1 (Hset x r1)) as [He HR].
  destruct (object geocodeResultFields ctx ms2 (set x r1)) as [r2 e2].
  destruct (object geocodeResultFields ctx ms2 r1) as [r2' e2'].
  simpl in *. subst. split; [reflexivity | exact HR].
Qed.

Lemma Payload_result_field :
  findField Payload.fields "result"
  = Some (fieldOf storeGeocodeResult "Result" Payload.Result Payload.set_Result).
Proof. reflexivity. Qed.

(** The same at the level of the envelope. *)
Lemma Payload_admin_member k v ps1 ps2 ms1 ms2 p :
  In k adminFields -> stringOrStrings v = true ->
  snd (Payload.store []
         (JObject (ps1 ++ ("result", JObject (ms1 ++ (k, v) :: ms2)) :: ps2)) p)
  = snd (Payload.store []
           (JObject (ps1 ++ ("result", JObject (ms1 ++ ms2)) :: ps2)) p)
  /\ samePayload
       (fst (Payload.store []
               (JObject (ps1 ++ ("result", JObject (ms1 ++ (k, v) :: ms2)) :: ps2)) p))
       (fst (Payload.store []
               (JObject (ps1 ++ ("result", JObject (ms1 ++ ms2)) :: ps2)) p)).
Proof.
  intros Hk Hv. unfold Payload.store, storeStruct. rewrite !object_app.
  destruct (object Payload.fields [] ps1 p) as [p1 e1].
  cbn [object]. rewrite Payload_result_field.
  cbn [fieldStore fieldOf]. unfold storeGeocodeResult, storeStruct.
  destruct (object_admin_member k v ([] ++ ["Result"])%list ms1 ms2 (Payload.Result p1) Hk Hv)
    as [He HR].
  destruct (object geocodeResultFields ([] ++ ["Result"])%list (ms1 ++ (k, v) :: ms2)
              (Payload.Result p1)) as [ra ea].
  destruct (object geocodeResultFields ([] ++ ["Result"])%list (ms1 ++ ms2)
              (Payload.Result p1)) as [rb eb].
  simpl in He, HR. subst eb.
  assert (HP : samePayload (Payload.set_Result ra p1) (Payload.set_Result rb p1)).
  { destruct p1. unfold samePayload. simpl. auto. }
  destruct (object_simulates samePayload Payload.fields Payload_fields_simulate
              ps2 [] _ _ HP) as [He2 HR2].
  destruct (object Payload.fields [] ps2 (Payload.set_Result ra p1)) as [pa e2a].
  destruct (object Payload.fields [] ps2 (Payload.set_Result rb p1)) as [pb e2b].
  simpl in *. subst. split; [reflexivity | exact HR2].
Qed.

(** In the earlier revision the administrative fields are strings, and
    a list stored into one is a type error. *)
Lemma Rev1_admin_list_rejected :
  snd (Rev1.storeGeocodeResult []
         (JObject [("admin_district", JArray [JString "Westminster"])])
         Rev1.geocodeResultZero)
  = Some (UnmarshalTypeError "array" TString ["admin_district"]).
Proof. reflexivity. Qed.

(** C8. Let the value of one of [admin_district], [parish],
    [admin_county], [admin_ward], [country] be a string or a list of
    strings.  It is stored without a type error; an envelope whose result
    holds nothing else is decoded without error; and in any envelope the
    presence of that member changes neither the error of the decoding
    nor the status, error string and coordinates decoded, which are all
    the package reads.  So the two bodies that carry [admin_district] as
    a string and as a list decode without error to the same point. *)
Theorem admin_fields_tolerated txt k v :
  In k adminFields ->
  stringOrStrings v = true ->
  (forall ctx cur, snd (storeInterface ctx v cur) = None)
  /\ snd (Payload.store []
            (JObject [("status", JNumber "200"); ("result", JObject [(k, v)])])
            Payload.zero) = None
  /\ (forall ps1 ps2 ms1 ms2 p,
        snd (Payload.store []
               (JObject (ps1 ++ ("result", JObject (ms1 ++ (k, v) :: ms2)) :: ps2)) p)
        = snd (Payload.store []
                 (JObject (ps1 ++ ("result", JObject (ms1 ++ ms2)) :: ps2)) p)
        /\ samePayload
             (fst (Payload.store []
                     (JObject (ps1 ++ ("result", JObject (ms1 ++ (k, v) :: ms2)) :: ps2)) p))
             (fst (Payload.store []
                     (JObject (ps1 ++ ("result", JObject (ms1 ++ ms2)) :: ps2)) p)))
  /\ decodePayload txt (mkResponse 200 (mkReadCloser bodyDistrictString None))
     = (set_Admin_district (anyString "Westminster")
          (set_Latitude latLondon (set_Longitude lonLondon geocodeResultZero)), None)
  /\ decodePayload txt (mkResponse 200 (mkReadCloser bodyDistrictList None))
     = (set_Admin_district (anySlice [anyString "Westminster"; anyString "Camden"])
          (set_Latitude latLondon (set_Longitude lonLondon geocodeResultZero)), None).
Proof.
  intros Hk Hv. split; [|split; [|split; [|split]]].
  - intros ctx cur. now apply storeInterface_stringOrStrings.
  - destruct (Payload_admin_member k v [("status", JNumber "200")] [] [] []
                Payload.zero Hk Hv) as [He _].
    simpl app in He. rewrite He. reflexivity.
  - intros. now apply Payload_admin_member.
  - vm_compute. reflexivity.
  - vm_compute. reflexivity.
Qed.

Lemma admin_fields_tolerated_witness :
  snd (Payload.store []
         (JObject [("status", JNumber "200");
                   ("result", JObject [("parish", JArray [JString "a"; JString "b"])])])
         Payload.zero) = None.
Proof.
  exact (proj1 (proj2 (admin_fields_tolerated plainText "parish"
                         (JArray [JString "a"; JString "b"])
                         (or_intror (or_introl eq_refl)) eq_refl))).
Defined.

(* ================================================================= *)
(** ** Building the request URL *)

Lemma HasSuffixByte_cons c x t :
  Ascii.eqb c x = false -> HasSuffixByte (String c t) x = HasSuffixByte t x.
Proof. intro H. destruct t; simpl; [exact H | reflexivity]. Qed.

Lemma HasSuffixByte_nonempty t x : HasSuffixByte t x = true -> t <> "".
Proof. destruct t; simpl; [discriminate | discriminate]. Qed.

Lemma dropLast_cons c t : t <> "" -> dropLast (String c t) = String c (dropLast t).
Proof.
  intro H. unfold dropLast. destruct t as [|d t]; [contradiction|].
  simpl. rewrite Nat.sub_0_r. reflexivity.
Qed.

Lemma splitQuery_cons c t :
  Ascii.eqb c "?" = false ->
  splitQuery (String c t) = let '(p, q, fq) := splitQuery t in (String c p, q, fq).
Proof.
  intro Hc. unfold splitQuery.
  rewrite (HasSuffixByte_cons c "?" t Hc).
  simpl Count. rewrite Hc. simpl plus.
  destruct (HasSuffixByte t "?") eqn:Hs; simpl andb.
  - destruct (Nat.eqb (Count t "?") 1).
    + rewrite dropLast_cons; [reflexivity|]. now apply HasSuffixByte_nonempty with "?"%char.
    + simpl Cut. rewrite Hc. destruct (Cut t "?") as [[b a] f]. reflexivity.
  - simpl Cut. rewrite Hc. destruct (Cut t "?") as [[b a] f]. reflexivity.
Qed.


Lemma splitQuery_prefix l t :
  ContainsByte l "?" = false ->
  splitQuery (l ++ t) = let '(p, q, fq) := splitQuery t in (l ++ p, q, fq).
Proof.
  induction l as [|c l IH]; intro H; simpl.
  - destruct (splitQuery t) as [[p q] fq]. reflexivity.
  - unfold ContainsByte in H. simpl in H.
    destruct (Ascii.eqb c "?") eqn:Hc; [discriminate|].
    rewrite (splitQuery_cons c _ Hc). rewrite IH.
    + destruct (splitQuery t) as [[p q] fq]. reflexivity.
    + unfold ContainsByte. destruct (IndexByte l "?"); [discriminate | reflexivity].
Qed.

Lemma parse_target route pc :
  route = "/postcodes/" \/ route = "/outcodes/" ->
  parse (baseURL ++ route ++ pc) true =
    if stringContainsCTLByte pc
    then fail (errorString "net/url: invalid control character in URL")
    else
      let '(p, q, fq) := splitQuery pc in
      match setPath (route ++ p) with
      | inl (path, rawPath) =>
          ok (mkURL "https" "" None "api.postcodes.io" path rawPath false fq q "" "")
      | inr e => fail e
      end.
Proof.
  intros [-> | ->].
  - unfold parse.
    change (stringContainsCTLByte (baseURL ++ "/postcodes/" ++ pc))
      with (stringContainsCTLByte pc).
    destruct (stringContainsCTLByte pc); [reflexivity|].
    change (getScheme (baseURL ++ "/postcodes/" ++ pc))
      with (@ok (string * string) ("https", "//api.postcodes.io/postcodes/" ++ pc)).
    change ((baseURL ++ "/postcodes/" ++ pc =? "") && true) with false.
    change (baseURL ++ "/postcodes/" ++ pc =? "*") with false.
    cbv iota. unfold bind at 1. unfold ok at 1.
    rewrite (splitQuery_prefix "//api.postcodes.io/postcodes/" pc eq_refl).
    destruct (splitQuery pc) as [[p q] fq].
    cbn -[setPath].
    match goal with |- context [setPath ?t] => destruct (setPath t) as [[path rawPath]|e] end;
      reflexivity.
  - unfold parse.
    change (stringContainsCTLByte (baseURL ++ "/outcodes/" ++ pc))
      with (stringContainsCTLByte pc).
    destruct (stringContainsCTLByte pc); [reflexivity|].
    change (getScheme (baseURL ++ "/outcodes/" ++ pc))
      with (@ok (string * string) ("https", "//api.postcodes.io/outcodes/" ++ pc)).
    change ((baseURL ++ "/outcodes/" ++ pc =? "") && true) with false.
    change (baseURL ++ "/outcodes/" ++ pc =? "*") with false.
    cbv iota. unfold bind at 1. unfold ok at 1.
    rewrite (splitQuery_prefix "//api.postcodes.io/outcodes/" pc eq_refl).
    destruct (splitQuery pc) as [[p q] fq].
    cbn -[setPath].
    match goal with |- context [setPath ?t] => destruct (setPath t) as [[path rawPath]|e] end;
      reflexivity.
Qed.

Lemma append_assoc (a b c : string) : (a ++ b) ++ c = a ++ b ++ c.
Proof. induction a; simpl; [reflexivity | now rewrite IHa]. Qed.

Lemma append_empty_r (a : string) : a ++ "" = a.
Proof. induction a; simpl; [reflexivity | now rewrite IHa]. Qed.

Lemma route_cases pc : routeOf pc = "/postcodes/" \/ routeOf pc = "/outcodes/".
Proof. unfold routeOf. destruct (4 <? String.length pc)%nat; auto. Qed.

Lemma setPath_target route p :
  route = "/postcodes/" \/ route = "/outcodes/" ->
  setPath (route ++ p) =
    match unescapeCheck p encodePath with
    | Some e => fail e
    | None =>
        let d := unescapeDecode p encodePath in
        if String.eqb p (escape d encodePath) then ok (route ++ d, "")
        else ok (route ++ d, route ++ p)
    end.
Proof.
  intros [-> | ->]; unfold setPath, unescape.
  - change (unescapeCheck ("/postcodes/" ++ p) encodePath) with (unescapeCheck p encodePath).
    destruct (unescapeCheck p encodePath); [reflexivity|].
    unfold bind, ok.
    change (unescapeDecode ("/postcodes/" ++ p) encodePath)
      with ("/postcodes/" ++ unescapeDecode p encodePath).
    change (escape ("/postcodes/" ++ unescapeDecode p encodePath) encodePath)
      with ("/postcodes/" ++ escape (unescapeDecode p encodePath) encodePath).
    change ("/postcodes/" ++ p =? "/postcodes/" ++ escape (unescapeDecode p encodePath) encodePath)
      with (p =? escape (unescapeDecode p encodePath) encodePath).
    reflexivity.
  - change (unescapeCheck ("/outcodes/" ++ p) encodePath) with (unescapeCheck p encodePath).
    destruct (unescapeCheck p encodePath); [reflexivity|].
    unfold bind, ok.
    change (unescapeDecode ("/outcodes/" ++ p) encodePath)
      with ("/outcodes/" ++ unescapeDecode p encodePath).
    change (escape ("/outcodes/" ++ unescapeDecode p encodePath) encodePath)
      with ("/outcodes/" ++ escape (unescapeDecode p encodePath) encodePath).
    change ("/outcodes/" ++ p =? "/outcodes/" ++ escape (unescapeDecode p encodePath) encodePath)
      with (p =? escape (unescapeDecode p encodePath) encodePath).
    reflexivity.
Qed.

Lemma URL_String_target path rawPath fq q t :
  EscapedPath (mkURL "https" "" None "api.postcodes.io" path rawPath false fq q "" "")
  = String "/" t ->
  URL_String (mkURL "https" "" None "api.postcodes.io" path rawPath false fq q "" "")
  = baseURL ++ String "/" t ++ querySuffix fq q.
Proof.
  intro H. unfold URL_String. rewrite H. unfold querySuffix. simpl.
  destruct (fq || negb (q =? "")); simpl; [reflexivity|].
  now rewrite append_empty_r.
Qed.

(** Facts on single bytes, by enumeration. *)
Lemma escaped_byte c :
  ishex (upperhex (N.shiftr (byteN c) 4)) = true
  /\ ishex (upperhex (N.land (byteN c) 15)) = true
  /\ hexPair (upperhex (N.shiftr (byteN c) 4)) (upperhex (N.land (byteN c) 15)) = c.
Proof.
  destruct c as [[] [] [] [] [] [] [] []]; vm_compute; repeat split.
Qed.

Lemma hex_digit_plain n :
  (n < 16)%N ->
  let h := upperhex n in
  Ascii.eqb h "%" = false /\ Ascii.eqb h "?" = false
  /\ ((byteN h <? 32)%N || (byteN h =? 127)%N) = false
  /\ shouldEscape h encodePath = false.
Proof.
  intro H.
  assert (Hn : In n [0;1;2;3;4;5;6;7;8;9;10;11;12;13;14;15]%N).
  { simpl. lia. }
  simpl in Hn.
  repeat (destruct Hn as [<- | Hn]; [vm_compute; repeat split|]). contradiction.
Qed.

Lemma unescaped_byte c :
  shouldEscape c encodePath = false ->
  Ascii.eqb c "%" = false /\ Ascii.eqb c "?" = false
  /\ ((byteN c <? 32)%N || (byteN c =? 127)%N) = false.
Proof.
  destruct c as [[] [] [] [] [] [] [] []]; vm_compute; intro H;
    try discriminate H; repeat split.
Qed.

Lemma nibbles c : (N.shiftr (byteN c) 4 < 16)%N /\ (N.land (byteN c) 15 < 16)%N.
Proof. destruct c as [[] [] [] [] [] [] [] []]; vm_compute; split; reflexivity. Qed.

Lemma escape_cons c x :
  escape (String c x) encodePath =
    if shouldEscape c encodePath
    then String "%" (String (upperhex (N.shiftr (byteN c) 4))
                       (String (upperhex (N.land (byteN c) 15)) (escape x encodePath)))
    else String c (escape x encodePath).
Proof. simpl. now rewrite andb_false_r. Qed.

Lemma unescapeCheck_escaped a b rest :
  ishex a = true -> ishex b = true ->
  unescapeCheck (String "%" (String a (String b rest))) encodePath
  = unescapeCheck rest encodePath.
Proof. intros Ha Hb. simpl. now rewrite Ha, Hb. Qed.

Lemma unescapeCheck_plain c rest :
  Ascii.eqb c "%" = false ->
  unescapeCheck (String c rest) encodePath = unescapeCheck rest encodePath.
Proof. intro H. simpl. now rewrite H. Qed.

Lemma unescapeDecode_plain c rest :
  Ascii.eqb c "%" = false ->
  unescapeDecode (String c rest) encodePath = String c (unescapeDecode rest encodePath).
Proof.
  intro H. simpl. rewrite H.
  destruct (Ascii.eqb_spec c "+"); [subst|]; reflexivity.
Qed.

Lemma escape_unescape x :
  unescapeCheck (escape x encodePath) encodePath = None
  /\ unescapeDecode (escape x encodePath) encodePath = x.
Proof.
  induction x as [|c x [IH1 IH2]]; [split; reflexivity|].
  rewrite escape_cons.
  destruct (shouldEscape c encodePath) eqn:Hc.
  - destruct (escaped_byte c) as (Ha & Hb & Hp).
    split.
    + now rewrite unescapeCheck_escaped.
    + cbn [unescapeDecode]. change (Ascii.eqb "%" "%") with true. cbv iota.
      now rewrite Hp, IH2.
  - destruct (unescaped_byte c Hc) as (Hp & _ & _).
    split.
    + now rewrite unescapeCheck_plain.
    + now rewrite unescapeDecode_plain, IH2.
Qed.

Lemma CTL_cons c s :
  stringContainsCTLByte (String c s)
  = ((byteN c <? 32)%N || (byteN c =? 127)%N) || stringContainsCTLByte s.
Proof. simpl. destruct ((byteN c <? 32)%N || (byteN c =? 127)%N); reflexivity. Qed.

Lemma CTL_app a b :
  stringContainsCTLByte (a ++ b) = stringContainsCTLByte a || stringContainsCTLByte b.
Proof.
  induction a as [|c a IH]; [reflexivity|].
  change (String c a ++ b) with (String c (a ++ b)).
  rewrite !CTL_cons, IH. now rewrite orb_assoc.
Qed.

Lemma ContainsByte_cons c s x :
  ContainsByte (String c s) x = Ascii.eqb c x || ContainsByte s x.
Proof.
  unfold ContainsByte. simpl. destruct (Ascii.eqb c x); [reflexivity|].
  destruct (IndexByte s x); reflexivity.
Qed.

Lemma ContainsByte_app a b x :
  ContainsByte (a ++ b) x = ContainsByte a x || ContainsByte b x.
Proof.
  induction a as [|c a IH]; [reflexivity|].
  change (String c a ++ b) with (String c (a ++ b)).
  rewrite !ContainsByte_cons, IH. now rewrite orb_assoc.
Qed.

Lemma escape_clean x :
  stringContainsCTLByte (escape x encodePath) = false
  /\ ContainsByte (escape x encodePath) "?" = false.
Proof.
  induction x as [|c x [IH1 IH2]]; [split; reflexivity|].
  rewrite escape_cons.
  destruct (shouldEscape c encodePath) eqn:Hc.
  - destruct (nibbles c) as [Hh Hl].
    destruct (hex_digit_plain _ Hh) as (_ & Hq1 & Hc1 & _).
    destruct (hex_digit_plain _ Hl) as (_ & Hq2 & Hc2 & _).
    split.
    + rewrite !CTL_cons, Hc1, Hc2, IH1. reflexivity.
    + rewrite !ContainsByte_cons, Hq1, Hq2, IH2. reflexivity.
  - destruct (unescaped_byte c Hc) as (_ & Hq & Hctl).
    split.
    + now rewrite CTL_cons, Hctl, IH1.
    + now rewrite ContainsByte_cons, Hq, IH2.
Qed.

Lemma Cut_spec s x :
  let '(b, a, f) := Cut s x in
  ContainsByte b x = false
  /\ s = b ++ (if f then String x a else "")
  /\ (f = false -> a = "").
Proof.
  induction s as [|c s IH]; simpl; [repeat split|].
  destruct (Ascii.eqb_spec c x) as [->|Hne].
  - repeat split. discriminate.
  - destruct (Cut s x) as [[b a] f]. destruct IH as (H1 & H2 & H3).
    repeat split.
    + rewrite ContainsByte_cons, H1.
      destruct (Ascii.eqb_spec c x); [contradiction | reflexivity].
    + simpl. now rewrite <- H2.
    + exact H3.
Qed.

Lemma HasSuffixByte_spec s x :
  HasSuffixByte s x = true -> s = dropLast s ++ String x "".
Proof.
  induction s as [|c s IH]; [discriminate|].
  destruct s as [|d s].
  - simpl. intro H. apply Ascii.eqb_eq in H. now subst.
  - intro H. rewrite dropLast_cons by discriminate.
    change (HasSuffixByte (String c (String d s)) x) with (HasSuffixByte (String d s) x) in H.
    simpl append. now rewrite <- IH.
Qed.

Lemma Count_app a b x : Count (a ++ b) x = Count a x + Count b x.
Proof. induction a as [|c a IH]; simpl; [reflexivity | rewrite IH; lia]. Qed.

Lemma Count_zero s x : Count s x = 0 -> ContainsByte s x = false.
Proof.
  induction s as [|c s IH]; [reflexivity|].
  simpl. rewrite ContainsByte_cons.
  destruct (Ascii.eqb c x); [discriminate|]. simpl. exact IH.
Qed.

Lemma ContainsByte_Count s x : ContainsByte s x = false -> Count s x = 0.
Proof.
  induction s as [|c s IH]; [reflexivity|].
  rewrite ContainsByte_cons. simpl.
  destruct (Ascii.eqb c x); [discriminate|]. simpl. exact IH.
Qed.

(** What [splitQuery] returns. *)
Lemma splitQuery_spec s :
  let '(p, q, fq) := splitQuery s in
  ContainsByte p "?" = false
  /\ (fq = true -> q = "")
  /\ s = p ++ querySuffix fq q.
Proof.
  unfold splitQuery.
  destruct (HasSuffixByte s "?") eqn:Hs; simpl andb.
  - destruct (Nat.eqb_spec (Count s "?") 1) as [Hc|Hc].
    + pose proof (HasSuffixByte_spec s "?" Hs) as Heq.
      repeat split; [|exact Heq].
      apply Count_zero. rewrite Heq, Count_app in Hc. simpl in Hc. lia.
    + pose proof (Cut_spec s "?") as H. destruct (Cut s "?") as [[b a] f].
      destruct H as (H1 & H2 & H3). repeat split; [exact H1 | discriminate |].
      unfold querySuffix. simpl orb. destruct f.
      * destruct (String.eqb_spec a "") as [->|Ha]; simpl.
        -- exfalso. apply Hc. rewrite H2, Count_app. simpl.
           rewrite (ContainsByte_Count _ _ H1). reflexivity.
        -- exact H2.
      * rewrite (H3 eq_refl). simpl. exact H2.
  - pose proof (Cut_spec s "?") as H. destruct (Cut s "?") as [[b a] f].
    destruct H as (H1 & H2 & H3). repeat split; [exact H1 | discriminate |].
    unfold querySuffix. simpl orb. destruct f.
    + destruct (String.eqb_spec a "") as [->|Ha]; simpl.
      * exfalso. rewrite H2 in Hs.
        assert (HasSuffixByte (b ++ "?") "?" = true).
        { clear. induction b as [|c b IH]; [reflexivity|].
          simpl append. destruct (b ++ "?") eqn:E; [destruct b; discriminate|].
          exact IH. }
        congruence.
      * exact H2.
    + rewrite (H3 eq_refl). simpl. exact H2.
Qed.

Lemma HasSuffixByte_cons_same c t x :
  t <> "" -> HasSuffixByte (String c t) x = HasSuffixByte t x.
Proof. intro H. destruct t; [contradiction | reflexivity]. Qed.

Lemma HasSuffixByte_Count s x : HasSuffixByte s x = true -> 1 <= Count s x.
Proof.
  intro H. rewrite (HasSuffixByte_spec s x H), Count_app. simpl.
  rewrite Ascii.eqb_refl. lia.
Qed.

Lemma splitQuery_rebuild t q fq :
  ContainsByte t "?" = false ->
  (fq = true -> q = "") ->
  splitQuery (t ++ querySuffix fq q) = (t, q, fq).
Proof.
  intros Ht Hv. rewrite (splitQuery_prefix t _ Ht).
  unfold querySuffix.
  destruct fq.
  - rewrite (Hv eq_refl). simpl. now rewrite append_empty_r.
  - simpl orb. destruct (String.eqb_spec q "") as [->|Hq]; simpl negb; cbv iota.
    + simpl. now rewrite append_empty_r.
    + unfold splitQuery.
      assert (Hcond : HasSuffixByte ("?" ++ q) "?" && Nat.eqb (Count ("?" ++ q) "?") 1 = false).
      { simpl append. rewrite (HasSuffixByte_cons_same _ _ _ Hq).
        destruct (HasSuffixByte q "?") eqn:Hs; [|reflexivity].
        apply HasSuffixByte_Count in Hs. simpl.
        destruct (Count q "?"); [lia | reflexivity]. }
      rewrite Hcond. simpl. now rewrite append_empty_r.
Qed.

Lemma ParseRequestURI_target route pc :
  route = "/postcodes/" \/ route = "/outcodes/" ->
  ParseRequestURI (baseURL ++ route ++ pc) =
    if stringContainsCTLByte pc
    then fail (urlError "parse" (baseURL ++ route ++ pc)
                 (errorString "net/url: invalid control character in URL"))
    else
      let '(p, q, fq) := splitQuery pc in
      match unescapeCheck p encodePath with
      | Some e => fail (urlError "parse" (baseURL ++ route ++ pc) e)
      | None => ok (targetURL route p q fq)
      end.
Proof.
  intro Hr. unfold ParseRequestURI. rewrite (parse_target route pc Hr).
  destruct (stringContainsCTLByte pc); [reflexivity|].
  destruct (splitQuery pc) as [[p q] fq].
  rewrite (setPath_target route p Hr).
  destruct (unescapeCheck p encodePath); [reflexivity|].
  unfold targetURL. cbv zeta.
  destruct (p =? escape (unescapeDecode p encodePath) encodePath); reflexivity.
Qed.

Lemma EscapedPath_targetURL route p q fq :
  route = "/postcodes/" \/ route = "/outcodes/" ->
  unescapeCheck p encodePath = None ->
  EscapedPath (targetURL route p q fq) = route ++ writtenPath p.
Proof.
  intros Hr Hp. unfold EscapedPath, targetURL, writtenPath. cbv zeta. cbn [Path RawPath].
  set (d := unescapeDecode p encodePath).
  destruct (p =? escape d encodePath) eqn:E.
  - apply String.eqb_eq in E.
    destruct Hr as [-> | ->].
    + change (escape ("/postcodes/" ++ d) encodePath) with ("/postcodes/" ++ escape d encodePath).
      rewrite <- E. reflexivity.
    + change (escape ("/outcodes/" ++ d) encodePath) with ("/outcodes/" ++ escape d encodePath).
      rewrite <- E. reflexivity.
  - assert (Hu : unescape (route ++ p) encodePath = ok (route ++ d)).
    { unfold unescape. destruct Hr as [-> | ->].
      - change (unescapeCheck ("/postcodes/" ++ p) encodePath) with (unescapeCheck p encodePath).
        rewrite Hp. reflexivity.
      - change (unescapeCheck ("/outcodes/" ++ p) encodePath) with (unescapeCheck p encodePath).
        rewrite Hp. reflexivity. }
    rewrite Hu. unfold ok. rewrite String.eqb_refl.
    destruct Hr as [-> | ->].
    + change (validEncoded ("/postcodes/" ++ p) encodePath) with (validEncoded p encodePath).
      change (negb ("/postcodes/" ++ p =? "")) with true.
      destruct (validEncoded p encodePath); reflexivity.
    + change (validEncoded ("/outcodes/" ++ p) encodePath) with (validEncoded p encodePath).
      change (negb ("/outcodes/" ++ p =? "")) with true.
      destruct (validEncoded p encodePath); reflexivity.
Qed.

Lemma URL_String_targetURL route p q fq :
  route = "/postcodes/" \/ route = "/outcodes/" ->
  unescapeCheck p encodePath = None ->
  URL_String (targetURL route p q fq) = baseURL ++ route ++ writtenPath p ++ querySuffix fq q.
Proof.
  intros Hr Hp.
  pose proof (EscapedPath_targetURL route p q fq Hr Hp) as HE.
  unfold targetURL in *. cbv zeta in *.
  destruct Hr as [-> | ->].
  - rewrite (URL_String_target _ _ fq q ("postcodes/" ++ writtenPath p) HE). reflexivity.
  - rewrite (URL_String_target _ _ fq q ("outcodes/" ++ writtenPath p) HE). reflexivity.
Qed.

(** [geocodeURL], case by case. *)
Lemma geocodeURL_unfold pc :
  geocodeURL pc =
    if stringContainsCTLByte pc
    then ("", Some (urlError "parse" (baseURL ++ routeOf pc ++ pc)
                      (errorString "net/url: invalid control character in URL")))
    else
      let '(p, q, fq) := splitQuery pc in
      match unescapeCheck p encodePath with
      | Some e => ("", Some (urlError "parse" (baseURL ++ routeOf pc ++ pc) e))
      | None => (baseURL ++ routeOf pc ++ writtenPath p ++ querySuffix fq q, None)
      end.
Proof.
  assert (H : geocodeURL pc =
              match ParseRequestURI (baseURL ++ routeOf pc ++ pc) with
              | inr err => ("", Some err)
              | inl uri => (URL_String uri, None)
              end).
  { unfold geocodeURL, routeOf. destruct (4 <? String.length pc)%nat; reflexivity. }
  rewrite H, (ParseRequestURI_target _ pc (route_cases pc)).
  destruct (stringContainsCTLByte pc); [reflexivity|].
  destruct (splitQuery pc) as [[p q] fq].
  destruct (unescapeCheck p encodePath) eqn:Hp; [reflexivity|].
  unfold ok. now rewrite (URL_String_targetURL _ p q fq (route_cases pc) Hp).
Qed.

Lemma writtenPath_stable p :
  unescapeCheck p encodePath = None ->
  unescapeCheck (writtenPath p) encodePath = None
  /\ unescapeDecode (writtenPath p) encodePath = unescapeDecode p encodePath
  /\ writtenPath (writtenPath p) = writtenPath p.
Proof.
  intro Hp.
  destruct (escape_unescape (unescapeDecode p encodePath)) as [Hc Hd].
  assert (Hw : writtenPath p = p
               \/ writtenPath p = escape (unescapeDecode p encodePath) encodePath).
  { unfold writtenPath. cbv zeta.
    destruct (p =? _); [now left|]. destruct (validEncoded p encodePath); [now left | now right]. }
  destruct Hw as [Hw | Hw]; rewrite Hw.
  - repeat split; trivial.
  - repeat split; trivial.
    unfold writtenPath. cbv zeta. rewrite Hd. now rewrite String.eqb_refl.
Qed.

Lemma writtenPath_clean p :
  stringContainsCTLByte p = false -> ContainsByte p "?" = false ->
  stringContainsCTLByte (writtenPath p) = false
  /\ ContainsByte (writtenPath p) "?" = false.
Proof.
  intros H1 H2. unfold writtenPath. cbv zeta.
  destruct (escape_clean (unescapeDecode p encodePath)) as [H3 H4].
  destruct (p =? _); [now split|]. destruct (validEncoded p encodePath); now split.
Qed.

Lemma querySuffix_clean fq q :
  stringContainsCTLByte q = false -> stringContainsCTLByte (querySuffix fq q) = false.
Proof.
  intro H. unfold querySuffix. destruct (fq || negb (q =? "")); [|reflexivity].
  simpl append. now rewrite CTL_cons, H.
Qed.

(** The result both revisions build from the parse of a target. *)
Lemma request_unfold route pc :
  route = "/postcodes/" \/ route = "/outcodes/" ->
  match ParseRequestURI (baseURL ++ route ++ pc) with
  | inr err => ("", Some err)
  | inl uri => (URL_String uri, None)
  end =
    if stringContainsCTLByte pc
    then ("", Some (urlError "parse" (baseURL ++ route ++ pc)
                      (errorString "net/url: invalid control character in URL")))
    else
      let '(p, q, fq) := splitQuery pc in
      match unescapeCheck p encodePath with
      | Some e => ("", Some (urlError "parse" (baseURL ++ route ++ pc) e))
      | None => (baseURL ++ route ++ writtenPath p ++ querySuffix fq q, None)
      end.
Proof.
  intro Hr. rewrite (ParseRequestURI_target _ pc Hr).
  destruct (stringContainsCTLByte pc); [reflexivity|].
  destruct (splitQuery pc) as [[p q] fq].
  destruct (unescapeCheck p encodePath) eqn:Hp; [reflexivity|].
  unfold ok. now rewrite (URL_String_targetURL _ p q fq Hr Hp).
Qed.

Lemma geocodeURL_request pc :
  geocodeURL pc =
    match ParseRequestURI (baseURL ++ routeOf pc ++ pc) with
    | inr err => ("", Some err)
    | inl uri => (URL_String uri, None)
    end.
Proof. unfold geocodeURL, routeOf. destruct (4 <? String.length pc)%nat; reflexivity. Qed.

Lemma splitQuery_noquery s : ContainsByte s "?" = false -> splitQuery s = (s, "", false).
Proof.
  intro H. rewrite <- (append_empty_r s) at 1.
  rewrite (splitQuery_prefix s "" H). simpl. now rewrite append_empty_r.
Qed.

Lemma no_percent s :
  ContainsByte s "%" = false ->
  unescapeCheck s encodePath = None /\ unescapeDecode s encodePath = s.
Proof.
  induction s as [|c s IH]; [split; reflexivity|].
  rewrite ContainsByte_cons. intro H. apply orb_false_elim in H as [Hc Hs].
  destruct (IH Hs) as [IH1 IH2]. split.
  - now rewrite unescapeCheck_plain.
  - now rewrite unescapeDecode_plain, IH2.
Qed.

Lemma needsNoEscape_facts s :
  needsNoEscape s = true ->
  stringContainsCTLByte s = false /\ ContainsByte s "?" = false
  /\ ContainsByte s "%" = false /\ escape s encodePath = s.
Proof.
  induction s as [|c s IH]; [repeat split|].
  simpl needsNoEscape. intro H. apply andb_prop in H as [Hc Hs].
  apply negb_true_iff in Hc.
  destruct (IH Hs) as (H1 & H2 & H3 & H4).
  destruct (unescaped_byte c Hc) as (Hp & Hq & Hctl).
  repeat split.
  - now rewrite CTL_cons, Hctl, H1.
  - now rewrite ContainsByte_cons, Hq, H2.
  - now rewrite ContainsByte_cons, Hp, H3.
  - now rewrite escape_cons, Hc, H4.
Qed.

Lemma HasPrefix_app p s : HasPrefix (p ++ s) p = true.
Proof.
  unfold HasPrefix. induction p as [|c p IH]; simpl.
  - destruct s; reflexivity.
  - destruct (ascii_dec c c); [exact IH | contradiction].
Qed.

(** ** Routing *)

(** What [geocodeURL] returns for some inputs: an error for a malformed
    escape before the query; a space of the path written [%20]; what
    follows a [?] kept as it is written, a malformed escape and a space
    too. *)
Lemma geocodeURL_examples :
  geocodeURL "%" = ("", Some (urlError "parse" "https://api.postcodes.io/outcodes/%"
                                (EscapeError "%")))
  /\ geocodeURL "SW1A 1AA" = ("https://api.postcodes.io/postcodes/SW1A%201AA", None)
  /\ geocodeURL "AB12?%" = ("https://api.postcodes.io/postcodes/AB12?%", None)
  /\ geocodeURL "AB12?a b" = ("https://api.postcodes.io/postcodes/AB12?a b", None).
Proof. repeat split. Qed.

(** C1, as stated, fails: the input ["AB12?x"] is longer than 4 bytes,
    and the path of the URL built for it is [/postcodes/AB12], which is
    not [/postcodes/] followed by the input. *)
Lemma geocodeURL_path_stops_at_query :
  4 < String.length "AB12?x"
  /\ geocodeURL "AB12?x" = ("https://api.postcodes.io/postcodes/AB12?x", None)
  /\ ParseRequestURI "https://api.postcodes.io/postcodes/AB12?x"
     = ok (mkURL "https" "" None "api.postcodes.io" "/postcodes/AB12" "" false false "x" "" "")
  /\ HasPrefix "/postcodes/AB12" ("/postcodes/" ++ "AB12?x") = false
  /\ ~ routedWithInput "AB12?x".
Proof.
  split; [simpl; lia|]. split; [reflexivity|]. split; [reflexivity|]. split; [reflexivity|].
  intros (u & uri & Hu & Hp & Hpre).
  vm_compute in Hu. injection Hu as <-.
  vm_compute in Hp. injection Hp as <-.
  vm_compute in Hpre. discriminate Hpre.
Qed.

(** The length [geocodeURL] tests is [len], a number of bytes: an input
    of three characters that takes six bytes goes to [/postcodes/]. *)
Lemma geocodeURL_counts_bytes :
  RuneCountInString threeAccents = 3 /\ String.length threeAccents = 6
  /\ geocodeURL threeAccents
     = ("https://api.postcodes.io/postcodes/%C3%A9%C3%A9%C3%A9", None).
Proof. repeat split. Qed.

(** C1, amended.  An input is a part [p] that holds no [?], followed
    either by nothing or by a [?] and a query [q].  [geocodeURL] returns
    a URL exactly when the input holds no control byte and [p] has no
    malformed [%] escape.  The URL it returns begins with
    [https://api.postcodes.io/postcodes/] when the input is longer than
    4 bytes and with [https://api.postcodes.io/outcodes/] when it has 4
    bytes or fewer; it is the base address, the route, [p] as
    [URL.EscapedPath] writes it and the rest of the input as it is; and
    it is the text of a parsed URL of scheme [https] and host
    [api.postcodes.io] whose path is that route followed by [p] with its
    escapes decoded, the whole input when it holds no [%] and no [?],
    and whose query is [q].  When no byte of the input needs escaping in
    a path, the URL is the base address, the route and the input
    itself. *)
Theorem geocodeURL_routes pc :
  exists p q rest,
    pc = p ++ rest /\ ContainsByte p "?" = false
    /\ (rest = "" /\ q = "" \/ rest = "?" ++ q)
    /\ (snd (geocodeURL pc) = None <->
        stringContainsCTLByte pc = false /\ unescapeCheck p encodePath = None)
    /\ (forall u,
          geocodeURL pc = (u, None) ->
          (4 < String.length pc -> HasPrefix u "https://api.postcodes.io/postcodes/" = true)
          /\ (String.length pc <= 4 -> HasPrefix u "https://api.postcodes.io/outcodes/" = true)
          /\ u = baseURL ++ routeOf pc ++ writtenPath p ++ rest
          /\ exists uri,
               ParseRequestURI (baseURL ++ routeOf pc ++ pc) = inl uri /\ u = URL_String uri
               /\ Scheme uri = "https" /\ Host uri = "api.postcodes.io"
               /\ Path uri = routeOf pc ++ unescapeDecode p encodePath
               /\ RawQuery uri = q
               /\ HasPrefix (Path uri) (routeOf pc) = true
               /\ (ContainsByte pc "%" = false -> ContainsByte pc "?" = false ->
                   Path uri = routeOf pc ++ pc))
    /\ (needsNoEscape pc = true -> geocodeURL pc = (baseURL ++ routeOf pc ++ pc, None)).
Proof.
  pose proof (splitQuery_spec pc) as HS.
  destruct (splitQuery pc) as [[p q] fq] eqn:Hsplit. destruct HS as (Hp & Hfq & Hpc).
  exists p, q, (querySuffix fq q).
  split; [exact Hpc|]. split; [exact Hp|]. split.
  { unfold querySuffix. destruct fq; simpl.
    - now right.
    - destruct (String.eqb_spec q "") as [-> | Hq]; simpl; [now left | now right]. }
  split.
  { rewrite geocodeURL_unfold, Hsplit.
    destruct (stringContainsCTLByte pc).
    - simpl. split; [discriminate | intros [H _]; discriminate].
    - destruct (unescapeCheck p encodePath); simpl.
      + split; [discriminate | intros [_ H]; discriminate].
      + split; auto. }
  split.
  - intros u Hu.
    pose proof Hu as Hu'. rewrite geocodeURL_unfold, Hsplit in Hu'.
    rewrite geocodeURL_request in Hu.
    pose proof (ParseRequestURI_target _ pc (route_cases pc)) as HP. rewrite Hsplit in HP.
    destruct (stringContainsCTLByte pc); [discriminate|].
    destruct (unescapeCheck p encodePath) eqn:Hchk; [discriminate|].
    rewrite HP in Hu. unfold ok in Hu.
    assert (Htext : u = baseURL ++ routeOf pc ++ writtenPath p ++ querySuffix fq q).
    { injection Hu' as H. now symmetry. }
    assert (Hpre : HasPrefix u (baseURL ++ routeOf pc) = true).
    { rewrite Htext, <- append_assoc. apply HasPrefix_app. }
    unfold routeOf in Hpre.
    split; [intro Hlen; apply Nat.ltb_lt in Hlen; now rewrite Hlen in Hpre|].
    split; [intro Hlen; destruct (Nat.ltb_spec 4 (String.length pc)); [lia | exact Hpre]|].
    split; [exact Htext|].
    exists (targetURL (routeOf pc) p q fq).
    split; [exact HP|]. split; [injection Hu as H; now symmetry|].
    split; [reflexivity|]. split; [reflexivity|]. split; [reflexivity|].
    split; [reflexivity|]. split; [apply HasPrefix_app|].
    intros Hpct Hq. rewrite (splitQuery_noquery pc Hq) in Hsplit.
    injection Hsplit as <- <- <-.
    destruct (no_percent pc Hpct) as [_ Hd].
    unfold targetURL. cbn [Path]. now rewrite Hd.
  - intro Hn. destruct (needsNoEscape_facts pc Hn) as (H1 & H2 & H3 & H4).
    destruct (no_percent pc H3) as [H5 H6].
    rewrite geocodeURL_unfold, H1, (splitQuery_noquery pc H2), H5.
    unfold writtenPath, querySuffix. cbv zeta. rewrite H6, H4, String.eqb_refl.
    simpl. now rewrite append_empty_r.
Qed.

Lemma geocodeURL_routes_witness :
  geocodeURL "SW1A1AA" = ("https://api.postcodes.io/postcodes/SW1A1AA", None).
Proof.
  destruct (geocodeURL_routes "SW1A1AA") as (p & q & rest & _ & _ & _ & _ & _ & H).
  exact (H eq_refl).
Defined.

(** ** Round trip

    C9. The URL [geocodeURL] returns parses back to the path, the query
    and the forced-query mark of the URL it was written from, and is
    written again as the same text; when the input holds no [%] and no
    [?], as for ["SW1A 1AA"] and other inputs with a space, the path
    parsed back is the route followed by the input as it was given, and
    the query is empty. *)
Theorem geocodeURL_round_trip pc u :
  geocodeURL pc = (u, None) ->
  exists uri uri',
    ParseRequestURI (baseURL ++ routeOf pc ++ pc) = inl uri /\ u = URL_String uri
    /\ ParseRequestURI u = inl uri'
    /\ Path uri' = Path uri /\ RawQuery uri' = RawQuery uri
    /\ ForceQuery uri' = ForceQuery uri
    /\ URL_String uri' = u
    /\ (ContainsByte pc "%" = false -> ContainsByte pc "?" = false ->
        Path uri' = routeOf pc ++ pc /\ RawQuery uri' = "").
Proof.
  intro Hu. rewrite geocodeURL_request in Hu.
  pose proof (ParseRequestURI_target _ pc (route_cases pc)) as HP.
  destruct (stringContainsCTLByte pc) eqn:Hctl; [rewrite HP in Hu; discriminate|].
  pose proof (splitQuery_spec pc) as Hspec.
  destruct (splitQuery pc) as [[p q] fq] eqn:Hsplit.
  destruct Hspec as (Hpq & Hfq & Hpc).
  destruct (unescapeCheck p encodePath) eqn:Hp; [rewrite HP in Hu; discriminate|].
  rewrite HP in Hu. unfold ok in Hu. inversion Hu as [Hs]. clear Hu.
  pose proof (URL_String_targetURL _ p q fq (route_cases pc) Hp) as HS.
  assert (Hcp : stringContainsCTLByte p = false /\ stringContainsCTLByte q = false).
  { rewrite Hpc, CTL_app in Hctl. apply orb_false_elim in Hctl as [H1 H2]. split; [exact H1|].
    unfold querySuffix in H2. destruct (fq || negb (q =? "")) eqn:E.
    - simpl append in H2. rewrite CTL_cons in H2. now apply orb_false_elim in H2.
    - apply orb_false_elim in E as [_ E]. apply negb_false_iff, String.eqb_eq in E. now subst. }
  destruct Hcp as [Hcp Hcq].
  destruct (writtenPath_stable p Hp) as (Hw1 & Hw2 & Hw3).
  destruct (writtenPath_clean p Hcp Hpq) as (Hw4 & Hw5).
  assert (HP' : ParseRequestURI (baseURL ++ routeOf pc ++ writtenPath p ++ querySuffix fq q)
                = ok (targetURL (routeOf pc) (writtenPath p) q fq)).
  { rewrite (ParseRequestURI_target _ _ (route_cases pc)).
    rewrite CTL_app, Hw4, (querySuffix_clean fq q Hcq). simpl orb. cbv iota.
    rewrite (splitQuery_rebuild _ q fq Hw5 Hfq). now rewrite Hw1. }
  exists (targetURL (routeOf pc) p q fq), (targetURL (routeOf pc) (writtenPath p) q fq).
  split; [exact HP|]. split; [reflexivity|]. rewrite HS.
  split; [exact HP'|].
  split; [unfold targetURL; cbn [Path]; now rewrite Hw2|].
  split; [reflexivity|]. split; [reflexivity|].
  split; [rewrite (URL_String_targetURL _ _ q fq (route_cases pc) Hw1); now rewrite Hw3|].
  intros Hpct Hq.
  rewrite (splitQuery_noquery pc Hq) in Hsplit. inversion Hsplit; subst p q fq.
  destruct (no_percent pc Hpct) as [_ Hd].
  unfold targetURL. cbn [Path RawQuery]. now rewrite Hw2, Hd.
Qed.

Lemma geocodeURL_round_trip_witness :
  exists uri uri',
    ParseRequestURI (baseURL ++ routeOf "SW1A 1AA" ++ "SW1A 1AA") = inl uri
    /\ "https://api.postcodes.io/postcodes/SW1A%201AA" = URL_String uri
    /\ ParseRequestURI "https://api.postcodes.io/postcodes/SW1A%201AA" = inl uri'
    /\ Path uri' = Path uri /\ RawQuery uri' = RawQuery uri
    /\ ForceQuery uri' = ForceQuery uri
    /\ URL_String uri' = "https://api.postcodes.io/postcodes/SW1A%201AA"
    /\ (ContainsByte "SW1A 1AA" "%" = false -> ContainsByte "SW1A 1AA" "?" = false ->
        Path uri' = routeOf "SW1A 1AA" ++ "SW1A 1AA" /\ RawQuery uri' = "").
Proof.
  exact (geocodeURL_round_trip "SW1A 1AA" "https://api.postcodes.io/postcodes/SW1A%201AA" eq_refl).
Defined.

(** The round trip of the example of C9, computed. *)
Lemma round_trip_SW1A_1AA :
  geocodeURL "SW1A 1AA" = ("https://api.postcodes.io/postcodes/SW1A%201AA", None)
  /\ ParseRequestURI "https://api.postcodes.io/postcodes/SW1A%201AA"
     = ok (mkURL "https" "" None "api.postcodes.io" "/postcodes/SW1A 1AA" ""
             false false "" "" "")
  /\ ParseRequestURI "https://api.postcodes.io/postcodes/SW1A 1AA"
     = ok (mkURL "https" "" None "api.postcodes.io" "/postcodes/SW1A 1AA"
             "/postcodes/SW1A 1AA" false false "" "" "").
Proof. repeat split. Qed.

Lemma Rev1_geocodeURL_unfold pc :
  Rev1.geocodeURL pc =
    if stringContainsCTLByte pc
    then ("", Some (urlError "parse" (baseURL ++ "/postcodes/" ++ pc)
                      (errorString "net/url: invalid control character in URL")))
    else
      let '(p, q, fq) := splitQuery pc in
      match unescapeCheck p encodePath with
      | Some e => ("", Some (urlError "parse" (baseURL ++ "/postcodes/" ++ pc) e))
      | None => (baseURL ++ "/postcodes/" ++ writtenPath p ++ querySuffix fq q, None)
      end.
Proof. unfold Rev1.geocodeURL. apply request_unfold. now left. Qed.

(** ** The two revisions

    C10. On every input longer than 4 bytes the two revisions of
    [geocodeURL] return the same URL and the same error; they differ
    only on inputs of 4 bytes or fewer, on each of which they do differ:
    the earlier revision routes them to [/postcodes/], the later one to
    [/outcodes/]. *)
Theorem revisions_agree_on_full_postcodes pc :
  (4 < String.length pc -> Rev1.geocodeURL pc = geocodeURL pc)
  /\ (Rev1.geocodeURL pc <> geocodeURL pc -> String.length pc <= 4)
  /\ (String.length pc <= 4 ->
      Rev1.geocodeURL pc <> geocodeURL pc
      /\ forall u,
           Rev1.geocodeURL pc = (u, None) ->
           HasPrefix u "https://api.postcodes.io/postcodes/" = true
           /\ exists u',
                geocodeURL pc = (u', None)
                /\ HasPrefix u' "https://api.postcodes.io/outcodes/" = true).
Proof.
  assert (Hlong : 4 < String.length pc -> Rev1.geocodeURL pc = geocodeURL pc).
  { intro Hlen. apply Nat.ltb_lt in Hlen.
    unfold Rev1.geocodeURL, geocodeURL. now rewrite Hlen. }
  split; [exact Hlong|]. split.
  - intro Hne. destruct (Nat.le_gt_cases (String.length pc) 4) as [H|H]; [exact H|].
    exfalso. now apply Hne, Hlong.
  - intro Hlen.
    assert (Hroute : routeOf pc = "/outcodes/").
    { unfold routeOf. destruct (Nat.ltb_spec 4 (String.length pc)); [lia | reflexivity]. }
    rewrite Rev1_geocodeURL_unfold, geocodeURL_unfold, Hroute.
    destruct (stringContainsCTLByte pc).
    { split; [intro H; inversion H | intros u H; discriminate]. }
    destruct (splitQuery pc) as [[p q] fq].
    destruct (unescapeCheck p encodePath).
    { split; [intro H; inversion H | intros u H; discriminate]. }
    split; [intro H; inversion H|].
    intros u Hu. inversion Hu. split.
    + exact (HasPrefix_app "https://api.postcodes.io/postcodes/" _).
    + eexists. split; [reflexivity|].
      exact (HasPrefix_app "https://api.postcodes.io/outcodes/" _).
Qed.

Lemma revisions_agree_on_full_postcodes_witness :
  Rev1.geocodeURL "SW1A 1AA" = geocodeURL "SW1A 1AA".
Proof.
  apply (proj1 (revisions_agree_on_full_postcodes "SW1A 1AA")). simpl. lia.
Defined.

(* ================================================================= *)
(** * Further properties of the package *)

(** ** The messages of [Error] *)

Lemma Error_Error_named e :
  In e namedKinds \/ (~ In e namedKinds /\ Error_Error e = invalidErrorText).
Proof.
  unfold Error_Error, namedKinds.
  destruct (String.eqb_spec e NotFound); [left; simpl; auto|].
  destruct (String.eqb_spec e BadRequest); [left; simpl; auto|].
  destruct (String.eqb_spec e ServerError); [left; simpl; auto|].
  destruct (String.eqb_spec e NoResults); [left; simpl; auto|].
  destruct (String.eqb_spec e MultipleResults); [left; simpl; auto 6|].
  right. split; [|reflexivity]. simpl. intuition congruence.
Qed.

(** X1. [Error()] tells the five named errors apart: two errors have the
    same message exactly when they are the same error or neither is one
    of [NotFound], [BadRequest], [ServerError], [NoResults] and
    [MultipleResults]; every other value, [InvalidError] among them,
    prints the one fall-back message. *)
Theorem Error_Error_distinguishes e1 e2 :
  Error_Error e1 = Error_Error e2 <->
  (e1 = e2 \/ (~ In e1 namedKinds /\ ~ In e2 namedKinds)).
Proof.
  split.
  - intro H.
    destruct (Error_Error_named e1) as [H1 | [H1 T1]];
      destruct (Error_Error_named e2) as [H2 | [H2 T2]].
    + left. simpl in H1, H2.
      repeat (destruct H1 as [<- | H1]); try contradiction;
        repeat (destruct H2 as [<- | H2]); try contradiction;
          try reflexivity; vm_compute in H; discriminate H.
    + exfalso. rewrite T2 in H. simpl in H1.
      repeat (destruct H1 as [<- | H1]); try contradiction; vm_compute in H; discriminate H.
    + exfalso. rewrite T1 in H. simpl in H2.
      repeat (destruct H2 as [<- | H2]); try contradiction; vm_compute in H; discriminate H.
    + right. now split.
  - intros [-> | [H1 H2]]; [reflexivity|].
    destruct (Error_Error_named e1) as [? | [_ ->]]; [contradiction|].
    destruct (Error_Error_named e2) as [? | [_ ->]]; [contradiction|]. reflexivity.
Qed.

(** ** What the scanner reports *)

Lemma goesOn_continue st stk :
  (st = stateBeginValue -> stk <> []) -> goesOn (scanContinue (mkScanner st stk)).
Proof. intros H [H1 H2]. simpl in *. now apply H. Qed.

Lemma goesOn_error x ctx : goesOn (scanError (SyntaxError x ctx)).
Proof. simpl. now eexists _, _. Qed.

Lemma completed_goesOn v stk : goesOn (completed v stk).
Proof.
  unfold completed. destruct stk as [|[es | ms [k|]] stk'].
  - exact I.
  - apply goesOn_continue. discriminate.
  - apply goesOn_continue. discriminate.
  - destruct v; try apply goesOn_error. apply goesOn_continue. discriminate.
Qed.

Lemma stepEndValue_goesOn stk c : goesOn (stepEndValue stk c).
Proof.
  unfold stepEndValue, syntaxError.
  destruct (isSpace c); [apply goesOn_continue; discriminate|].
  destruct stk as [|[es | ms [k|]] stk']; try apply goesOn_error.
  - destruct (Ascii.eqb c ","); [apply goesOn_continue; discriminate|].
    destruct (Ascii.eqb c "]"); [apply completed_goesOn | apply goesOn_error].
  - destruct (Ascii.eqb c ":"); [apply goesOn_continue; discriminate | apply goesOn_error].
  - destruct (Ascii.eqb c ","); [apply goesOn_continue; discriminate|].
    destruct (Ascii.eqb c "}"); [apply completed_goesOn | apply goesOn_error].
Qed.

Lemma pushParseState_goesOn c f next stk :
  next <> stateBeginValue -> goesOn (pushParseState c f next stk).
Proof.
  intro H. unfold pushParseState, syntaxError.
  destruct (_ <=? _)%N; [apply goesOn_continue; congruence | apply goesOn_error].
Qed.

Lemma stepBeginValue_goesOn stk c :
  (stk = [] -> isSpace c = false) -> goesOn (stepBeginValue stk c).
Proof.
  intro H. unfold stepBeginValue, syntaxError.
  destruct (isSpace c) eqn:Hc.
  { apply goesOn_continue. intros _ Hs. specialize (H Hs). discriminate. }
  repeat match goal with
         | |- goesOn (if ?b then _ else _) => destruct b
         end;
    try (apply pushParseState_goesOn; discriminate);
    try (apply goesOn_continue; discriminate);
    apply goesOn_error.
Qed.

Lemma stepBeginString_goesOn stk c : goesOn (stepBeginString stk c).
Proof.
  unfold stepBeginString, syntaxError.
  repeat match goal with
         | |- goesOn (if ?b then _ else _) => destruct b
         end;
    try (apply goesOn_continue; discriminate); apply goesOn_error.
Qed.

(** A step from a scanner that has begun a value, or that sees a byte
    other than white space, goes on. *)
Lemma scanStep_goesOn s c :
  (isInitial s -> isSpace c = false) -> goesOn (scanStep s c).
Proof.
  intro H. unfold scanStep, syntaxError. destruct s as [st stk]. simpl step. simpl parseState.
  destruct st.
  - apply stepBeginValue_goesOn. intro Hs. apply H. now split.
  - destruct (isSpace c) eqn:Hc; [apply goesOn_continue; discriminate|].
    destruct (Ascii.eqb c "]"); [apply stepEndValue_goesOn|].
    apply stepBeginValue_goesOn. now intros _.
  - destruct (isSpace c) eqn:Hc; [apply goesOn_continue; discriminate|].
    destruct (Ascii.eqb c "}"); [apply stepEndValue_goesOn | apply stepBeginString_goesOn].
  - apply stepBeginString_goesOn.
  - repeat match goal with
           | |- goesOn (if ?b then _ else _) => destruct b
           end;
      try apply completed_goesOn; try (apply goesOn_continue; discriminate);
      apply goesOn_error.
  - repeat match goal with
           | |- goesOn (if ?b then _ else _) => destruct b
           end;
      try (apply goesOn_continue; discriminate); apply goesOn_error.
  - destruct (ishex c); [|apply goesOn_error].
    destruct (Nat.eqb seen 3); apply goesOn_continue; discriminate.
  - destruct (stepNumber st c) as [[st'|]|ctx].
    + apply goesOn_continue. discriminate.
    + pose proof (completed_goesOn (JNumber lit) stk) as HC.
      destruct (completed (JNumber lit) stk) as [s'| |]; try exact HC.
      apply stepEndValue_goesOn.
    + apply goesOn_error.
  - destruct expect as [|x rest]; [apply goesOn_error|].
    destruct (Ascii.eqb c x); [|apply goesOn_error].
    destruct rest; [apply completed_goesOn | apply goesOn_continue; discriminate].
  - apply stepEndValue_goesOn.
Qed.

(** Once a value has begun, the input ends too early or is ill-formed,
    or the value is read. *)
Lemma readValueFrom_started s buf :
  ~ isInitial s ->
  match readValueFrom s buf with
  | inl _ => True
  | inr e => e = ErrUnexpectedEOF \/ exists x ctx, e = SyntaxError x ctx
  end.
Proof.
  revert s. induction buf as [|c buf IH]; intros s Hs; simpl.
  - destruct s as [st stk]. simpl.
    destruct st; try (now left);
      destruct stk; try (now left).
    + exfalso. apply Hs. now split.
    + destruct (numComplete st); [exact I | now left].
  - pose proof (scanStep_goesOn s c (fun H => False_ind _ (Hs H))) as HG.
    destruct (scanStep s c) as [s'|v|e]; simpl in HG.
    + now apply IH.
    + exact I.
    + now right.
Qed.

Lemma allSpaces_false_split body :
  allSpaces body = false ->
  exists ws c rest, body = ws ++ String c rest /\ allSpaces ws = true /\ isSpace c = false.
Proof.
  induction body as [|c body IH]; simpl; [discriminate|].
  destruct (isSpace c) eqn:Hc; simpl.
  - intro H. destruct (IH H) as (ws & d & rest & -> & H1 & H2).
    exists (String c ws), d, rest. repeat split; trivial. simpl. now rewrite Hc.
  - intros _. exists "", c, body. repeat split; trivial.
Qed.

Lemma readValueFrom_leading_spaces ws body :
  allSpaces ws = true ->
  readValueFrom initialScanner (ws ++ body) = readValueFrom initialScanner body.
Proof.
  induction ws as [|c ws IH]; simpl; [reflexivity|].
  intro H. apply andb_prop in H as [Hc Hws].
  unfold scanStep, stepBeginValue. simpl. rewrite Hc. now apply IH.
Qed.

(** The decoder reports the end of input exactly for a blank body. *)
Lemma readValue_EOF_iff body : readValue body = inr EOF <-> allSpaces body = true.
Proof.
  split.
  - intro H. destruct (allSpaces body) eqn:Hb; [reflexivity|]. exfalso.
    destruct (allSpaces_false_split body Hb) as (ws & c & rest & -> & Hws & Hc).
    unfold readValue in H. fold initialScanner in H.
    rewrite (readValueFrom_leading_spaces ws _ Hws) in H.
    simpl in H.
    pose proof (scanStep_goesOn initialScanner c (fun _ => Hc)) as HG.
    destruct (scanStep initialScanner c) as [s'|v|e]; simpl in HG.
    + pose proof (readValueFrom_started s' rest HG) as HS. rewrite H in HS.
      destruct HS as [HS | (x & ctx & HS)]; discriminate.
    + discriminate.
    + destruct HG as (x & ctx & ->). discriminate.
  - apply readValueFrom_blank.
Qed.

Lemma readValue_error_kinds body e :
  readValue body = inr e ->
  e = EOF \/ e = ErrUnexpectedEOF \/ exists x ctx, e = SyntaxError x ctx.
Proof.
  intro H. destruct (allSpaces body) eqn:Hb.
  - apply readValue_EOF_iff in Hb. left. congruence.
  - right. destruct (allSpaces_false_split body Hb) as (ws & c & rest & -> & Hws & Hc).
    unfold readValue in H. fold initialScanner in H.
    rewrite (readValueFrom_leading_spaces ws _ Hws) in H. simpl in H.
    pose proof (scanStep_goesOn initialScanner c (fun _ => Hc)) as HG.
    destruct (scanStep initialScanner c) as [s'|v|e']; simpl in HG.
    + pose proof (readValueFrom_started s' rest HG) as HS. rewrite H in HS. exact HS.
    + discriminate.
    + inversion H; subst. now right.
Qed.

(** What follows a value that is not a number is not read. *)
Lemma readValueFrom_trailing s body rest v :
  readValueFrom s body = inl v -> isJNumber v = false ->
  readValueFrom s (body ++ rest) = inl v.
Proof.
  revert s. induction body as [|c body IH]; intros s H Hv.
  - simpl in H. destruct s as [st stk]. simpl in H.
    destruct st; try discriminate; destruct stk; try discriminate.
    destruct (numComplete st); [|discriminate].
    inversion H; subst. discriminate.
  - simpl in *. destruct (scanStep s c) as [s'|v'|e].
    + now apply IH.
    + exact H.
    + discriminate.
Qed.

(** ** The errors of [decodePayload] *)

Lemma Decode_error_cases body p0 p e :
  Decode body p0 = (p, Some e) ->
  (readValue body = inr e /\ p = p0)
  \/ (exists v, readValue body = inl v /\ exists a b c, e = UnmarshalTypeError a b c).
Proof.
  unfold Decode. destruct (readValue body) as [v|e'] eqn:Hr.
  - intro H. right. exists v. split; [reflexivity|].
    pose proof (Payload_store_typeErrorOnly [] v p0) as HT. rewrite H in HT. simpl in HT.
    destruct e; try contradiction. now eexists _, _, _.
  - intro H. inversion H; subst. now left.
Qed.

(** [decodePayload] succeeds exactly when the body is read, its first
    value is stored without error, no error text is stored and the
    stored status is 200. *)
Theorem decodePayload_succeeds_iff txt r result :
  decodePayload txt r = (result, None) <->
  readError (Body r) = None
  /\ exists p,
       Decode (content (Body r)) Payload.zero = (p, None)
       /\ Payload.Error p = "" /\ Payload.Status p = 200%Z
       /\ result = Payload.Result p.
Proof.
  split.
  - intro H. destruct (readError (Body r)) as [re|] eqn:Hr.
    { rewrite (decodePayload_read_error txt r re Hr) in H. discriminate. }
    split; [reflexivity|].
    destruct (Decode (content (Body r)) Payload.zero) as [p [e|]] eqn:Hd.
    + exfalso. destruct (error_eq_EOF e) as [-> | Hne].
      * rewrite (decodePayload_decoded txt r p _ Hr Hd (or_intror eq_refl)) in H.
        destruct (Decode_EOF _ _ _ Hd) as [_ ->]. discriminate.
      * rewrite (decodePayload_decode_error txt r p e Hr Hd Hne) in H. discriminate.
    + exists p. rewrite (decodePayload_decoded txt r p _ Hr Hd (or_introl eq_refl)) in H.
      destruct (String.eqb_spec (Payload.Error p) ""); [|discriminate].
      destruct (Z.eqb_spec (Payload.Status p) 200); [|discriminate].
      simpl in H. inversion H. repeat split; trivial.
  - intros (Hr & p & Hd & He & Hs & ->).
    rewrite (decodePayload_decoded txt r p _ Hr Hd (or_introl eq_refl)), He, Hs. reflexivity.
Qed.

(** X2. The errors of [decodePayload].  An error it returns is the
    failure to read the body, under the text [could not read http
    response body: ]; or the decoder's [io.ErrUnexpectedEOF], syntax
    error or type error; or the non-empty text of the payload's error
    member; or the classification of the payload's status, one of
    [BadRequest], [NotFound], [ServerError] and [InvalidError].  It is
    never [io.EOF]. *)
Theorem decodePayload_error_kinds txt r e :
  snd (decodePayload txt r) = Some e ->
  (exists re, readError (Body r) = Some re
              /\ e = errorString ("could not read http response body: " ++ Error_ txt re))
  \/ e = ErrUnexpectedEOF
  \/ (exists x ctx, e = SyntaxError x ctx)
  \/ (exists a b c, e = UnmarshalTypeError a b c)
  \/ (exists s, s <> "" /\ e = errorString s)
  \/ (exists k, In k [BadRequest; NotFound; ServerError; InvalidError] /\ e = pkgError k).
Proof.
  intro H.
  destruct (readError (Body r)) as [re|] eqn:Hr.
  { rewrite (decodePayload_read_error txt r re Hr) in H. simpl in H. injection H as <-.
    left. now exists re. }
  right.
  assert (Hlate : forall p de, (de = None \/ de = Some EOF) ->
            Decode (content (Body r)) Payload.zero = (p, de) ->
            (exists s, s <> "" /\ e = errorString s)
            \/ (exists k, In k [BadRequest; NotFound; ServerError; InvalidError]
                          /\ e = pkgError k)).
  { intros p de Hde Hd. rewrite (decodePayload_decoded txt r p de Hr Hd Hde) in H. simpl in H.
    destruct (String.eqb_spec (Payload.Error p) "") as [He|He]; simpl in H.
    - destruct (negb (Payload.Status p =? 200)%Z); [|discriminate].
      injection H as <-. right. eexists. split; [|reflexivity].
      unfold errorFromHTTPCode.
      destruct (_ =? 400)%Z; [simpl; tauto|].
      destruct (_ =? 404)%Z; [simpl; tauto|].
      destruct (_ =? 500)%Z; simpl; tauto.
    - injection H as <-. left. now eexists. }
  destruct (Decode (content (Body r)) Payload.zero) as [p [de|]] eqn:Hd.
  - destruct (error_eq_EOF de) as [-> | Hne].
    + right. right. right. exact (Hlate p _ (or_intror eq_refl) eq_refl).
    + rewrite (decodePayload_decode_error txt r p de Hr Hd Hne) in H. simpl in H.
      injection H as <-.
      destruct (Decode_error_cases _ _ _ _ Hd) as [[Hv _] | (v & _ & HT)].
      * destruct (readValue_error_kinds _ _ Hv) as [HE | [HE | HE]];
          [contradiction | now left | now right; left].
      * right. right. now left.
  - right. right. right. exact (Hlate p _ (or_introl eq_refl) eq_refl).
Qed.

Lemma decodePayload_error_kinds_witness :
  (exists re, None = Some re
              /\ pkgError NotFound
                 = errorString ("could not read http response body: " ++ Error_ plainText re))
  \/ pkgError NotFound = ErrUnexpectedEOF
  \/ (exists x ctx, pkgError NotFound = SyntaxError x ctx)
  \/ (exists a b c, pkgError NotFound = UnmarshalTypeError a b c)
  \/ (exists s, s <> "" /\ pkgError NotFound = errorString s)
  \/ (exists k, In k [BadRequest; NotFound; ServerError; InvalidError]
                /\ pkgError NotFound = pkgError k).
Proof.
  exact (decodePayload_error_kinds plainText
           (mkResponse 200 (mkReadCloser bodyStatus404 None)) (pkgError NotFound) eq_refl).
Defined.

(** X5. A body that is read, is not blank and does not begin with a
    well-formed JSON value makes [decodePayload] return the zero result
    with the decoder's own error, which is [io.ErrUnexpectedEOF] or a
    syntax error; neither the status nor the error check replaces it. *)
Theorem decodePayload_malformed_body txt r e :
  readError (Body r) = None ->
  allSpaces (content (Body r)) = false ->
  readValue (content (Body r)) = inr e ->
  decodePayload txt r = (geocodeResultZero, Some e)
  /\ (e = ErrUnexpectedEOF \/ exists x ctx, e = SyntaxError x ctx).
Proof.
  intros Hr Hb He.
  assert (Hne : e <> EOF).
  { intros ->. apply readValue_EOF_iff in He. congruence. }
  split.
  - assert (Hd : Decode (content (Body r)) Payload.zero = (Payload.zero, Some e)).
    { unfold Decode. now rewrite He. }
    now rewrite (decodePayload_decode_error txt r _ e Hr Hd Hne).
  - destruct (readValue_error_kinds _ _ He) as [H | H]; [contradiction | exact H].
Qed.

Lemma decodePayload_malformed_body_witness :
  decodePayload plainText (mkResponse 200 (mkReadCloser ("{" ++ quoted "status" ++ ":") None))
  = (geocodeResultZero, Some ErrUnexpectedEOF).
Proof.
  exact (proj1 (decodePayload_malformed_body plainText
                  (mkResponse 200 (mkReadCloser ("{" ++ quoted "status" ++ ":") None))
                  ErrUnexpectedEOF eq_refl eq_refl eq_refl)).
Defined.

Lemma decodePayload_same_value txt c1 c2 b1 b2 :
  readValue b1 = readValue b2 ->
  decodePayload txt (mkResponse c1 (mkReadCloser b1 None))
  = decodePayload txt (mkResponse c2 (mkReadCloser b2 None)).
Proof. intro H. unfold decodePayload, ReadAll, Decode. simpl. now rewrite H. Qed.

(** X6. [decodePayload] decodes the first JSON value of the body and
    nothing else: white space before it and any bytes after it, ill-formed
    ones too, change neither the result nor the error (its kind and the
    parts its message is made of), when that value is not a bare number. *)
Theorem decodePayload_first_value_only txt code ws body rest v :
  allSpaces ws = true ->
  readValue body = inl v ->
  isJNumber v = false ->
  decodePayload txt (mkResponse code (mkReadCloser (ws ++ body ++ rest) None))
  = decodePayload txt (mkResponse code (mkReadCloser body None)).
Proof.
  intros Hws Hb Hv. apply decodePayload_same_value.
  unfold readValue. fold initialScanner.
  rewrite (readValueFrom_leading_spaces ws _ Hws).
  rewrite (readValueFrom_trailing initialScanner body rest v Hb Hv). now rewrite <- Hb.
Qed.

Lemma decodePayload_first_value_only_witness :
  decodePayload plainText
    (mkResponse 200 (mkReadCloser ("  " ++ bodyLondon ++ "] trailing") None))
  = decodePayload plainText (mkResponse 200 (mkReadCloser bodyLondon None)).
Proof.
  refine (decodePayload_first_value_only plainText 200 "  " bodyLondon "] trailing"
            (JObject [("status", JNumber "200");
                      ("result", JObject [("longitude", JNumber "-0.127");
                                          ("latitude", JNumber "51.507")])])
            eq_refl eq_refl eq_refl).
Defined.

(** ** Members the payload lacks *)

Lemma object_without_status ctx ms p :
  lacksField "Status" ms = true ->
  Payload.Status (fst (object Payload.fields ctx ms p)) = Payload.Status p.
Proof.
  intro HL. apply object_preserves. intros key v f Hin Hf r.
  apply findField_name in Hf as [Hf Hn].
  pose proof (lacksField_In _ _ _ _ HL Hin) as Hne.
  simpl in Hf. destruct Hf as [<- | [<- | [<- | []]]].
  - exfalso. apply Hne. now rewrite <- Hn.
  - apply fieldOf_preserves. reflexivity.
  - apply fieldOf_preserves. reflexivity.
Qed.

Lemma object_without_result ctx ms p :
  lacksField "Result" ms = true ->
  Payload.Result (fst (object Payload.fields ctx ms p)) = Payload.Result p.
Proof.
  intro HL. apply object_preserves. intros key v f Hin Hf r.
  apply findField_name in Hf as [Hf Hn].
  pose proof (lacksField_In _ _ _ _ HL Hin) as Hne.
  simpl in Hf. destruct Hf as [<- | [<- | [<- | []]]].
  - apply fieldOf_preserves. reflexivity.
  - exfalso. apply Hne. now rewrite <- Hn.
  - apply fieldOf_preserves. reflexivity.
Qed.

Lemma Decode_object body ms :
  readValue body = inl (JObject ms) ->
  Decode body Payload.zero = object Payload.fields [] ms Payload.zero.
Proof. intro H. unfold Decode. now rewrite H. Qed.

Lemma object_status_source ctx ms p :
  Payload.Status (fst (object Payload.fields ctx ms p)) = Payload.Status p
  \/ exists k lit,
       In (k, JNumber lit) ms /\ foldName k = foldName "Status"
       /\ ParseInt lit = Some (Payload.Status (fst (object Payload.fields ctx ms p))).
Proof.
  revert p. induction ms as [|[key v] ms IH]; intro p; simpl; [now left|].
  destruct (findField Payload.fields key) as [f|] eqn:Hf.
  - assert (Hstep : Payload.Status (fst (fieldStore f ctx v p)) = Payload.Status p
                    \/ exists lit, v = JNumber lit /\ foldName key = foldName "Status"
                         /\ ParseInt lit = Some (Payload.Status (fst (fieldStore f ctx v p)))).
    { apply findField_name in Hf as [Hin Hn].
      simpl in Hin. destruct Hin as [<- | [<- | [<- | []]]].
      - simpl. destruct v; simpl; try (now left).
        destruct (ParseInt lit) as [n|] eqn:Hp; simpl; [|now left].
        right. exists lit. repeat split; [now rewrite <- Hn | exact Hp].
      - left. apply fieldOf_preserves. reflexivity.
      - left. apply fieldOf_preserves. reflexivity. }
    destruct (fieldStore f ctx v p) as [c1 e1]. simpl in Hstep.
    specialize (IH c1). destruct (object Payload.fields ctx ms c1) as [c2 e2]. simpl in *.
    destruct IH as [IH | (k & lit & Hin & Hk & Hp)].
    + rewrite IH. destruct Hstep as [-> | (lit & -> & Hk & Hp)]; [now left|].
      right. exists key, lit. repeat split; auto.
    + right. exists k, lit. repeat split; auto.
  - destruct (IH p) as [IH' | (k & lit & Hin & Hk & Hp)]; [now left|].
    right. exists k, lit. repeat split; auto.
Qed.

(** X3. [decodePayload] succeeds only on a body that is read and whose
    first JSON value is an object with a member named [status], in any
    case, that holds a number read as the integer 200. *)
Theorem decodePayload_success_shape txt r result :
  decodePayload txt r = (result, None) ->
  readError (Body r) = None
  /\ exists ms,
       readValue (content (Body r)) = inl (JObject ms)
       /\ exists k lit,
            In (k, JNumber lit) ms /\ foldName k = foldName "Status"
            /\ ParseInt lit = Some 200%Z.
Proof.
  intro H. apply decodePayload_succeeds_iff in H as (Hr & p & Hd & He & Hs & ->).
  split; [exact Hr|].
  unfold Decode in Hd. destruct (readValue (content (Body r))) as [v|e]; [|discriminate].
  destruct v as [| | | | |ms]; try discriminate.
  - simpl in Hd. injection Hd as <-. discriminate.
  - exists ms. split; [reflexivity|].
    pose proof (object_status_source [] ms Payload.zero) as HS.
    change (Payload.store [] (JObject ms) Payload.zero)
      with (object Payload.fields [] ms Payload.zero) in Hd.
    rewrite Hd in HS. simpl in HS. rewrite Hs in HS.
    destruct HS as [HS | HS]; [discriminate | exact HS].
Qed.

Lemma decodePayload_success_shape_witness :
  readError (mkReadCloser bodyLondon None) = None
  /\ exists ms,
       readValue bodyLondon = inl (JObject ms)
       /\ exists k lit,
            In (k, JNumber lit) ms /\ foldName k = foldName "Status"
            /\ ParseInt lit = Some 200%Z.
Proof.
  exact (decodePayload_success_shape plainText
           (mkResponse 200 (mkReadCloser bodyLondon None))
           (set_Latitude latLondon (set_Longitude lonLondon geocodeResultZero)) eq_refl).
Defined.

(** X9. A body whose object has no member named [status], in any case,
    is never decoded with success: the error is a type error of another
    member, or the text of the error member, or else [InvalidError], the
    classification of the status 0 the payload starts with. *)
Theorem decodePayload_without_status txt r ms :
  readError (Body r) = None ->
  readValue (content (Body r)) = inl (JObject ms) ->
  lacksField "Status" ms = true ->
  exists e,
    snd (decodePayload txt r) = Some e
    /\ ((exists a b c, e = UnmarshalTypeError a b c)
        \/ (exists s, s <> "" /\ e = errorString s)
        \/ e = pkgError InvalidError).
Proof.
  intros Hr Hv HL.
  pose proof (Decode_object _ ms Hv) as HD.
  pose proof (object_without_status [] ms Payload.zero HL) as HS.
  pose proof (Payload_store_typeErrorOnly [] (JObject ms) Payload.zero) as HT.
  change (Payload.store [] (JObject ms) Payload.zero)
    with (object Payload.fields [] ms Payload.zero) in HT.
  destruct (object Payload.fields [] ms Payload.zero) as [p de].
  simpl in HS, HT.
  destruct de as [e|].
  - destruct e; try contradiction.
    rewrite (decodePayload_decode_error txt r p _ Hr HD ltac:(discriminate)).
    eexists. split; [reflexivity|]. left. now eexists _, _, _.
  - rewrite (decodePayload_decoded txt r p None Hr HD (or_introl eq_refl)). simpl.
    destruct (String.eqb_spec (Payload.Error p) "") as [He|He]; simpl.
    + rewrite HS. simpl. eexists. split; [reflexivity|]. right. right. reflexivity.
    + eexists. split; [reflexivity|]. right. left. now eexists.
Qed.

Lemma decodePayload_without_status_witness :
  exists e,
    snd (decodePayload plainText (mkResponse 200 (mkReadCloser bodyResultOnly None))) = Some e
    /\ ((exists a b c, e = UnmarshalTypeError a b c)
        \/ (exists s, s <> "" /\ e = errorString s)
        \/ e = pkgError InvalidError).
Proof.
  exact (decodePayload_without_status plainText
           (mkResponse 200 (mkReadCloser bodyResultOnly None))
           [("result", JObject [("longitude", JNumber "-0.127");
                                ("latitude", JNumber "51.507")])]
           eq_refl eq_refl eq_refl).
Defined.

(** X10. When the body's object has no member named [result], in any
    case, the result of [decodePayload] is the zero result and the point
    of [Geocode] is the zero point, with or without an error: a body
    that holds the status 200 alone is geocoded, with success, to the
    point (0, 0). *)
Theorem Geocode_without_result txt httpGet postcode url r ms :
  geocodeURL postcode = (url, None) ->
  httpGet url = inl r ->
  readError (Body r) = None ->
  readValue (content (Body r)) = inl (JObject ms) ->
  lacksField "Result" ms = true ->
  fst (decodePayload txt r) = geocodeResultZero
  /\ fst (Geocode txt httpGet postcode) = GeoPoint.zero
  /\ (StatusCode r = 200%Z -> snd (decodePayload txt r) = None ->
      Geocode txt httpGet postcode = (GeoPoint.zero, None)).
Proof.
  intros Hu Hg Hr Hv HL.
  assert (HZ : fst (decodePayload txt r) = geocodeResultZero).
  { pose proof (Decode_object _ ms Hv) as HD.
    pose proof (object_without_result [] ms Payload.zero HL) as HS.
    destruct (object Payload.fields [] ms Payload.zero) as [p de]. simpl in HS.
    destruct de as [e|].
    - destruct (error_eq_EOF e) as [-> | Hne].
      + now rewrite (decodePayload_decoded txt r p _ Hr HD (or_intror eq_refl)).
      + now rewrite (decodePayload_decode_error txt r p e Hr HD Hne).
    - now rewrite (decodePayload_decoded txt r p _ Hr HD (or_introl eq_refl)). }
  split; [exact HZ|]. split.
  - destruct (Z.eq_dec (StatusCode r) 200) as [Hs|Hs].
    + rewrite (Geocode_decoded txt httpGet postcode url r Hu Hg Hs). simpl. now rewrite HZ.
    + now rewrite (Geocode_status_error txt httpGet postcode url r Hu Hg Hs).
  - intros Hs Hn.
    rewrite (Geocode_decoded txt httpGet postcode url r Hu Hg Hs), HZ, Hn. reflexivity.
Qed.

Lemma Geocode_without_result_witness :
  Geocode plainText (respond 200 bodyStatus200) "SW1A 1AA" = (GeoPoint.zero, None).
Proof.
  exact (proj2 (proj2 (Geocode_without_result plainText (respond 200 bodyStatus200)
                         "SW1A 1AA" "https://api.postcodes.io/postcodes/SW1A%201AA"
                         (mkResponse 200 (mkReadCloser bodyStatus200 None))
                         [("status", JNumber "200")]
                         eq_refl eq_refl eq_refl eq_refl eq_refl))
           eq_refl eq_refl).
Defined.

(** ** A body that cannot be read *)

(** X4. When the response has status 200 and reading its body fails,
    [Geocode] returns the zero point and an error whose text is the
    prefix of [decorateGeocodingError], then [could not read http
    response body: ], then the text of the read error; what was read
    before the failure is not decoded. *)
Theorem Geocode_body_read_failure txt httpGet postcode url r e :
  geocodeURL postcode = (url, None) ->
  httpGet url = inl r ->
  StatusCode r = 200%Z ->
  readError (Body r) = Some e ->
  Geocode txt httpGet postcode =
    (GeoPoint.zero,
     Some (errorString (geocodingPrefix ++ "could not read http response body: "
                        ++ Error_ txt e))).
Proof.
  intros Hu Hg Hs Hr.
  rewrite (Geocode_decoded txt httpGet postcode url r Hu Hg Hs).
  rewrite (decodePayload_read_error txt r e Hr). reflexivity.
Qed.

Lemma Geocode_body_read_failure_witness :
  Geocode plainText
    (fun _ => ok (mkResponse 200 (mkReadCloser "{" (Some (otherError "connection reset")))))
    "SW1A 1AA"
  = (GeoPoint.zero,
     Some (errorString (geocodingPrefix ++ "could not read http response body: "
                        ++ "connection reset"))).
Proof.
  exact (Geocode_body_read_failure plainText _ "SW1A 1AA"
           "https://api.postcodes.io/postcodes/SW1A%201AA"
           (mkResponse 200 (mkReadCloser "{" (Some (otherError "connection reset"))))
           (otherError "connection reset") eq_refl eq_refl eq_refl eq_refl).
Defined.

(** ** The failures and the output of [geocodeURL] *)

Lemma unescapeCheck_error_bounded n s e :
  String.length s <= n ->
  unescapeCheck s encodePath = Some e ->
  exists t, e = EscapeError t /\ HasPrefix t "%" = true /\ String.length t <= 3
            /\ ContainsByte s "%" = true.
Proof.
  revert s. induction n as [|n IH]; intros s Hn H.
  - destruct s; [discriminate | simpl in Hn; lia].
  - destruct s as [|c rest]; [discriminate|].
    rewrite ContainsByte_cons.
    destruct (Ascii.eqb c "%") eqn:Hc.
    + apply Ascii.eqb_eq in Hc. subst c.
      destruct rest as [|a [|b rest']].
      * simpl in H. inversion H. exists "%". repeat split. simpl. lia.
      * simpl in H. inversion H. exists (String "%" (String a "")). repeat split. simpl. lia.
      * simpl in H. destruct (ishex a && ishex b).
        -- destruct (IH rest') as (t & H1 & H2 & H3 & H4); [simpl in Hn; lia | exact H |].
           exists t. repeat split; trivial.
        -- inversion H. exists (String "%" (String a (String b ""))). repeat split. simpl. lia.
    + rewrite (unescapeCheck_plain c rest Hc) in H.
      destruct (IH rest) as (t & H1 & H2 & H3 & H4); [simpl in Hn; lia | exact H |].
      exists t. repeat split; trivial.
Qed.

(** X7. When [geocodeURL] fails, the URL it returns is empty and the
    error is the [parse] error of [net/url] for the address that was
    built: the base address, the route and the input.  Its cause is a
    control byte in the input or else an ill-formed escape, which is at
    most three bytes of the input starting at a [%]; an input with
    neither is always accepted. *)
Theorem geocodeURL_failure pc u e :
  geocodeURL pc = (u, Some e) ->
  u = ""
  /\ exists cause,
       e = urlError "parse" (baseURL ++ routeOf pc ++ pc) cause
       /\ ((stringContainsCTLByte pc = true
            /\ cause = errorString "net/url: invalid control character in URL")
           \/ (stringContainsCTLByte pc = false
               /\ exists t, cause = EscapeError t /\ HasPrefix t "%" = true
                            /\ String.length t <= 3 /\ ContainsByte pc "%" = true)).
Proof.
  rewrite geocodeURL_unfold.
  destruct (stringContainsCTLByte pc) eqn:Hctl.
  - intro H. inversion H. split; [reflexivity|]. eexists. split; [reflexivity|]. now left.
  - pose proof (splitQuery_spec pc) as Hs.
    destruct (splitQuery pc) as [[p q] fq]. destruct Hs as (_ & _ & Hpc).
    destruct (unescapeCheck p encodePath) as [c|] eqn:Hp; [|discriminate].
    intro H. injection H as <- <-. split; [reflexivity|].
    eexists. split; [reflexivity|]. right. split; [reflexivity|].
    destruct (unescapeCheck_error_bounded _ p c (le_n _) Hp) as (t & H1 & H2 & H3 & H4).
    exists t. repeat split; trivial.
    rewrite Hpc, ContainsByte_app, H4. reflexivity.
Qed.

Lemma geocodeURL_failure_witness :
  "" = ""
  /\ exists cause,
       urlError "parse" "https://api.postcodes.io/postcodes/AB1%2" (EscapeError "%2")
       = urlError "parse" (baseURL ++ routeOf "AB1%2" ++ "AB1%2") cause
       /\ ((stringContainsCTLByte "AB1%2" = true
            /\ cause = errorString "net/url: invalid control character in URL")
           \/ (stringContainsCTLByte "AB1%2" = false
               /\ exists t, cause = EscapeError t /\ HasPrefix t "%" = true
                            /\ String.length t <= 3 /\ ContainsByte "AB1%2" "%" = true)).
Proof.
  exact (geocodeURL_failure "AB1%2" "" _ eq_refl).
Defined.

Lemma validEncoded_byte c :
  (oneOf ["!"; "$"; "&"; "'"; "("; ")"; "*"; "+"; ","; ";"; "="; ":"; "@"; "["; "]"; "%"]%char c
   || negb (shouldEscape c encodePath)) = true ->
  Ascii.eqb c " " = false /\ Ascii.eqb c "#" = false /\ Ascii.eqb c "?" = false
  /\ ((byteN c <? 32)%N || (byteN c =? 127)%N) = false /\ (byteN c <? 128)%N = true.
Proof.
  destruct c as [[] [] [] [] [] [] [] []]; vm_compute; intro H;
    try discriminate H; repeat split.
Qed.

Lemma validEncoded_bytes s x :
  validEncoded s encodePath = true ->
  In x [" "; "#"; "?"]%char -> ContainsByte s x = false.
Proof.
  intros H Hx. induction s as [|c s IH]; [reflexivity|].
  simpl in H. apply andb_prop in H as [Hc Hs].
  rewrite ContainsByte_cons, (IH Hs).
  destruct (validEncoded_byte c Hc) as (H1 & H2 & H3 & _).
  simpl in Hx. destruct Hx as [<- | [<- | [<- | []]]]; now rewrite ?H1, ?H2, ?H3.
Qed.

Lemma validEncoded_escape x : validEncoded (escape x encodePath) encodePath = true.
Proof.
  induction x as [|c x IH]; [reflexivity|].
  rewrite escape_cons. destruct (shouldEscape c encodePath) eqn:Hc.
  - destruct (nibbles c) as [Hh Hl].
    destruct (hex_digit_plain _ Hh) as (_ & _ & _ & E1).
    destruct (hex_digit_plain _ Hl) as (_ & _ & _ & E2).
    cbn [validEncoded]. rewrite E1, E2, IH. simpl. now rewrite !orb_true_r.
  - cbn [validEncoded]. rewrite Hc, IH. simpl. now rewrite orb_true_r.
Qed.

Lemma validEncoded_writtenPath p : validEncoded (writtenPath p) encodePath = true.
Proof.
  unfold writtenPath. cbv zeta.
  destruct (p =? escape (unescapeDecode p encodePath) encodePath) eqn:E.
  - apply String.eqb_eq in E. rewrite E at 1. apply validEncoded_escape.
  - destruct (validEncoded p encodePath) eqn:V; [exact V | apply validEncoded_escape].
Qed.

(** X8. A URL [geocodeURL] returns holds no control byte; when the input
    has no [?], the URL is the base address, the route and a validly
    encoded path, and holds no space, no [#] and no [?]: nothing of the
    input reaches the query or the fragment of the request. *)
Theorem geocodeURL_output_clean pc u :
  geocodeURL pc = (u, None) ->
  stringContainsCTLByte u = false
  /\ (ContainsByte pc "?" = false ->
      u = baseURL ++ routeOf pc ++ writtenPath pc
      /\ validEncoded (writtenPath pc) encodePath = true
      /\ ContainsByte u " " = false /\ ContainsByte u "#" = false
      /\ ContainsByte u "?" = false).
Proof.
  rewrite geocodeURL_unfold.
  destruct (stringContainsCTLByte pc) eqn:Hctl; [discriminate|].
  pose proof (splitQuery_spec pc) as Hs.
  destruct (splitQuery pc) as [[p q] fq] eqn:Hsplit. destruct Hs as (Hpq & Hfq & Hpc).
  destruct (unescapeCheck p encodePath) eqn:Hp; [discriminate|].
  intro H.
  assert (Hu : u = baseURL ++ routeOf pc ++ writtenPath p ++ querySuffix fq q).
  { injection H as H'. symmetry. exact H'. }
  clear H. rewrite Hu. clear Hu u.
  assert (Hcp : stringContainsCTLByte p = false /\ stringContainsCTLByte q = false).
  { rewrite Hpc, CTL_app in Hctl. apply orb_false_elim in Hctl as [H1 H2]. split; [exact H1|].
    unfold querySuffix in H2. destruct (fq || negb (q =? "")) eqn:E.
    - simpl append in H2. rewrite CTL_cons in H2. now apply orb_false_elim in H2.
    - apply orb_false_elim in E as [_ E]. apply negb_false_iff, String.eqb_eq in E.
      rewrite E. reflexivity. }
  destruct Hcp as [Hcp Hcq].
  destruct (writtenPath_clean p Hcp Hpq) as (Hw4 & Hw5).
  split.
  - rewrite CTL_app. change (stringContainsCTLByte baseURL) with false. simpl orb.
    rewrite CTL_app. destruct (route_cases pc) as [-> | ->];
      simpl orb; now rewrite CTL_app, Hw4, (querySuffix_clean fq q Hcq).
  - intro Hq. rewrite (splitQuery_noquery pc Hq) in Hsplit. injection Hsplit as <- <- <-.
    change (querySuffix false "") with "". rewrite append_empty_r.
    pose proof (validEncoded_writtenPath pc) as HV.
    assert (Hb : forall x, In x [" "; "#"; "?"]%char ->
                           ContainsByte (baseURL ++ routeOf pc ++ writtenPath pc) x = false).
    { intros x Hx. rewrite !ContainsByte_app, (validEncoded_bytes _ x HV Hx).
      destruct (route_cases pc) as [-> | ->];
        destruct Hx as [<- | [<- | [<- | []]]]; reflexivity. }
    split; [reflexivity|]. split; [exact HV|].
    repeat split; apply Hb; simpl; auto.
Qed.

Lemma geocodeURL_output_clean_witness :
  stringContainsCTLByte "https://api.postcodes.io/postcodes/SW1A%201AA" = false
  /\ ContainsByte "https://api.postcodes.io/postcodes/SW1A%201AA" " " = false
  /\ ContainsByte "https://api.postcodes.io/postcodes/SW1A%201AA" "#" = false
  /\ ContainsByte "https://api.postcodes.io/postcodes/SW1A%201AA" "?" = false.
Proof.
  pose proof (geocodeURL_output_clean "SW1A 1AA" _ eq_refl) as H.
  exact (conj (proj1 H) (proj2 (proj2 (proj2 H eq_refl)))).
Defined.

(** ** The later revision follows the earlier one *)

Lemma namesCovered_spec {S1 S2} (fs1 : list (field S1)) (fs2 : list (field S2)) :
  namesCovered fs1 fs2 = true ->
  forall f1, In f1 fs1 ->
             exists f2, In f2 fs2 /\ foldName (fieldName f2) = foldName (fieldName f1).
Proof.
  unfold namesCovered. rewrite forallb_forall. intros H f1 H1.
  apply H, existsb_exists in H1 as (f2 & H2 & E). apply String.eqb_eq in E. now exists f2.
Qed.

Lemma quieter_saveError a1 a2 b1 b2 :
  quieter a1 a2 -> quieter b1 b2 -> quieter (saveError a1 b1) (saveError a2 b2).
Proof.
  unfold quieter. destruct a1; simpl; [discriminate|].
  intros Ha Hb H. rewrite (Ha eq_refl). simpl. auto.
Qed.

Lemma blind_refines {T} (d : decoder T) : simulates anyPair d -> refines anyTwo d d.
Proof.
  intros H ctx v a b _. split; [exact I|].
  destruct (H ctx v a b I) as [He _]. unfold quieter. congruence.
Qed.

Lemma eq_refines {T} (d : decoder T) : refines eq d d.
Proof. intros ctx v a b ->. split; [reflexivity | exact (fun H => H)]. Qed.

Lemma storeString_storeInterface : refines anyTwo storeString storeInterface.
Proof.
  intros ctx v a b _. split; [exact I|].
  destruct v; simpl; intro H; try discriminate H; reflexivity.
Qed.

Lemma fieldOf_refines {S1 S2 T1 T2} (R : S1 -> S2 -> Prop) (Q : T1 -> T2 -> Prop)
    (d1 : decoder T1) (d2 : decoder T2) name
    (get1 : S1 -> T1) (set1 : T1 -> S1 -> S1) (get2 : S2 -> T2) (set2 : T2 -> S2 -> S2) :
  refines Q d1 d2 ->
  (forall a b, R a b -> Q (get1 a) (get2 b)) ->
  (forall a b x y, R a b -> Q x y -> R (set1 x a) (set2 y b)) ->
  refines R (fieldStore (fieldOf d1 name get1 set1)) (fieldStore (fieldOf d2 name get2 set2)).
Proof.
  intros Hd Hget Hset ctx v a b HR. simpl.
  destruct (Hd (ctx ++ [name])%list v (get1 a) (get2 b) (Hget a b HR)) as [HQ He].
  destruct (d1 (ctx ++ [name])%list v (get1 a)) as [x e].
  destruct (d2 (ctx ++ [name])%list v (get2 b)) as [x' e'].
  simpl in *. split; [now apply Hset | exact He].
Qed.

Lemma findField_None {S} (fields : list (field S)) key :
  findField fields key = None ->
  forall f, In f fields -> foldName (fieldName f) <> foldName key.
Proof.
  unfold findField. destruct (find _ fields) as [g|]; [discriminate|].
  intros H f Hin Heq. apply (find_none _ _ H) in Hin.
  rewrite Heq, String.eqb_refl in Hin. discriminate.
Qed.

Lemma object_refines {S1 S2} (R : S1 -> S2 -> Prop)
    (fs1 : list (field S1)) (fs2 : list (field S2)) :
  (forall f1 f2, In f1 fs1 -> In f2 fs2 ->
                 foldName (fieldName f1) = foldName (fieldName f2) ->
                 refines R (fieldStore f1) (fieldStore f2)) ->
  namesCovered fs1 fs2 = true ->
  namesCovered fs2 fs1 = true ->
  forall ms ctx a b,
    R a b ->
    R (fst (object fs1 ctx ms a)) (fst (object fs2 ctx ms b))
    /\ quieter (snd (object fs1 ctx ms a)) (snd (object fs2 ctx ms b)).
Proof.
  intros Hpair H12 H21 ms.
  pose proof (namesCovered_spec fs1 fs2 H12) as C12.
  pose proof (namesCovered_spec fs2 fs1 H21) as C21.
  induction ms as [|[key v] ms IH]; intros ctx a b HR; simpl.
  - split; [exact HR | exact (fun H => H)].
  - destruct (findField fs1 key) as [f1|] eqn:E1;
      destruct (findField fs2 key) as [f2|] eqn:E2.
    + apply findField_name in E1 as [I1 N1]. apply findField_name in E2 as [I2 N2].
      destruct (Hpair f1 f2 I1 I2 (eq_trans N1 (eq_sym N2)) ctx v a b HR) as [HR1 He1].
      destruct (fieldStore f1 ctx v a) as [c1 e1].
      destruct (fieldStore f2 ctx v b) as [c2 e2]. simpl in *.
      destruct (IH ctx c1 c2 HR1) as [HR2 He2].
      destruct (object fs1 ctx ms c1) as [c1' e1'].
      destruct (object fs2 ctx ms c2) as [c2' e2']. simpl in *.
      split; [exact HR2 | now apply quieter_saveError].
    + exfalso. apply findField_name in E1 as [I1 N1].
      destruct (C12 f1 I1) as (f2 & I2 & N2).
      apply (findField_None fs2 key E2 f2 I2). congruence.
    + exfalso. apply findField_name in E2 as [I2 N2].
      destruct (C21 f2 I2) as (f1 & I1 & N1).
      apply (findField_None fs1 key E1 f1 I1). congruence.
    + now apply IH.
Qed.

Lemma storeStruct_refines {S1 S2} (R : S1 -> S2 -> Prop) t
    (fs1 : list (field S1)) (fs2 : list (field S2)) :
  (forall f1 f2, In f1 fs1 -> In f2 fs2 ->
                 foldName (fieldName f1) = foldName (fieldName f2) ->
                 refines R (fieldStore f1) (fieldStore f2)) ->
  namesCovered fs1 fs2 = true ->
  namesCovered fs2 fs1 = true ->
  refines R (storeStruct t fs1) (storeStruct t fs2).
Proof.
  intros Hpair H12 H21 ctx v a b HR.
  destruct v; simpl; try (split; [exact HR | discriminate]).
  - split; [exact HR | exact (fun H => H)].
  - now apply object_refines.
Qed.

(** A field other than the coordinates, across the revisions. *)
Ltac hidden_across lemma :=
  apply (fieldOf_refines coordinatesKept anyTwo);
  [ exact lemma
  | intros; exact I
  | intros [] [] ? ? HR _; exact HR ].

(** One of the two coordinates, across the revisions. *)
Ltac coordinate_across :=
  apply (fieldOf_refines coordinatesKept eq);
  [ apply eq_refines
  | intros ? ? HR; apply HR
  | intros [] [] ? ? [H1 H2] ->; split; simpl in *; congruence ].

Lemma geocodeResultFields_refine f1 f2 :
  In f1 Rev1.geocodeResultFields -> In f2 geocodeResultFields ->
  foldName (fieldName f1) = foldName (fieldName f2) ->
  refines coordinatesKept (fieldStore f1) (fieldStore f2).
Proof.
  unfold Rev1.geocodeResultFields, geocodeResultFields. cbn [In]. intros H1 H2.
  repeat (destruct H1 as [<- | H1]); try contradiction;
    repeat (destruct H2 as [<- | H2]); try contradiction;
      intro Hn; try (vm_compute in Hn; discriminate Hn); clear Hn;
        unfold stringField, intField, float64Field, interfaceField;
        first [ hidden_across (blind_refines _ storeString_blind)
              | hidden_across (blind_refines _ storeInt_blind)
              | hidden_across storeString_storeInterface
              | hidden_across (blind_refines _ CodesStruct_store_blind)
              | coordinate_across ].
Qed.

Lemma storeGeocodeResult_refines :
  refines coordinatesKept Rev1.storeGeocodeResult storeGeocodeResult.
Proof.
  apply storeStruct_refines.
  - exact geocodeResultFields_refine.
  - reflexivity.
  - reflexivity.
Qed.

Lemma Payload_fields_refine f1 f2 :
  In f1 Rev1.Payload.fields -> In f2 Payload.fields ->
  foldName (fieldName f1) = foldName (fieldName f2) ->
  refines payloadKept (fieldStore f1) (fieldStore f2).
Proof.
  unfold Rev1.Payload.fields, Payload.fields. cbn [In]. intros H1 H2.
  repeat (destruct H1 as [<- | H1]); try contradiction;
    repeat (destruct H2 as [<- | H2]); try contradiction;
      intro Hn; try (vm_compute in Hn; discriminate Hn); clear Hn;
        unfold stringField, intField.
  - apply (fieldOf_refines payloadKept eq).
    + apply eq_refines.
    + intros ? ? HR. apply HR.
    + intros [] [] ? ? HR ->. unfold payloadKept, coordinatesKept in *.
      simpl in *. intuition congruence.
  - apply (fieldOf_refines payloadKept coordinatesKept).
    + exact storeGeocodeResult_refines.
    + intros ? ? HR. apply HR.
    + intros [] [] ? ? HR HQ. unfold payloadKept, coordinatesKept in *.
      simpl in *. intuition congruence.
  - apply (fieldOf_refines payloadKept eq).
    + apply eq_refines.
    + intros ? ? HR. apply HR.
    + intros [] [] ? ? HR ->. unfold payloadKept, coordinatesKept in *.
      simpl in *. intuition congruence.
Qed.

Lemma Payload_store_refines : refines payloadKept Rev1.Payload.store Payload.store.
Proof.
  apply storeStruct_refines.
  - exact Payload_fields_refine.
  - reflexivity.
  - reflexivity.
Qed.

Lemma Rev1_Payload_store_typeErrorOnly ctx v cur :
  typeErrorOnly (snd (Rev1.Payload.store ctx v cur)).
Proof.
  apply storeStruct_typeErrorOnly. unfold Rev1.Payload.fields.
  apply Forall_cons;
    [apply fieldOf_typeErrorOnly; intros; apply storeInt_typeErrorOnly|].
  apply Forall_cons.
  { apply fieldOf_typeErrorOnly. intros. apply storeStruct_typeErrorOnly.
    unfold Rev1.geocodeResultFields. fields_typeErrorOnly.
    apply Forall_cons; [|apply Forall_nil].
    apply fieldOf_typeErrorOnly. apply CodesStruct_store_typeErrorOnly. }
  apply Forall_cons;
    [apply fieldOf_typeErrorOnly; intros; apply storeString_typeErrorOnly|].
  apply Forall_nil.
Qed.

Lemma Rev1_decodePayload_refined txt r res1 :
  Rev1.decodePayload txt r = (res1, None) ->
  exists res2, decodePayload txt r = (res2, None) /\ coordinatesKept res1 res2.
Proof.
  unfold Rev1.decodePayload, ReadAll.
  destruct (readError (Body r)) as [re|] eqn:Hr; [discriminate|].
  unfold Rev1.Decode.
  destruct (readValue (content (Body r))) as [v|e] eqn:Hv.
  - assert (HK : payloadKept Rev1.Payload.zero Payload.zero) by (repeat split).
    destruct (Payload_store_refines [] v _ _ HK) as [HP HQ].
    pose proof (Rev1_Payload_store_typeErrorOnly [] v Rev1.Payload.zero) as HT.
    assert (HD : Decode (content (Body r)) Payload.zero = Payload.store [] v Payload.zero).
    { unfold Decode. now rewrite Hv. }
    destruct (Rev1.Payload.store [] v Rev1.Payload.zero) as [p1 e1].
    destruct (Payload.store [] v Payload.zero) as [p2 e2]. simpl in HP, HQ, HT.
    destruct e1 as [x|]; [destruct x; try contradiction; discriminate|].
    rewrite (HQ eq_refl) in HD. destruct HP as (HS & HE & HC).
    simpl. intro H. exists (Payload.Result p2).
    rewrite (decodePayload_decoded txt r p2 None Hr HD (or_introl eq_refl)).
    rewrite <- HE, <- HS.
    destruct (negb (Rev1.Payload.Error p1 =? "")); [discriminate|]. simpl in *.
    destruct (negb (Rev1.Payload.Status p1 =? 200)%Z); [discriminate|].
    injection H as <-. split; [reflexivity | exact HC].
  - intro H. exfalso. destruct e; simpl in H; discriminate.
Qed.

(** X11. On a postcode longer than 4 bytes, whatever the transport
    answers, a point the earlier revision of [Geocode] returns without
    error is returned without error by the later revision too: turning
    the administrative fields into [interface{}] and adding the route
    for outward codes loses no success. *)
Theorem later_revision_keeps_successes txt httpGet postcode g :
  4 < String.length postcode ->
  Rev1.Geocode txt httpGet postcode = (g, None) ->
  Geocode txt httpGet postcode = (g, None).
Proof.
  intros Hlen H.
  assert (HU : Rev1.geocodeURL postcode = geocodeURL postcode).
  { apply Nat.ltb_lt in Hlen. unfold Rev1.geocodeURL, geocodeURL. now rewrite Hlen. }
  unfold Rev1.Geocode in H. rewrite HU in H.
  destruct (geocodeURL postcode) as [url [e|]] eqn:Hu; [discriminate|].
  destruct (httpGet url) as [r|e] eqn:Hg; [|discriminate].
  destruct (Z.eqb_spec (StatusCode r) 200) as [Hs|Hs]; [|discriminate]. simpl in H.
  destruct (Rev1.decodePayload txt r) as [res1 [e|]] eqn:Hd; [discriminate|].
  injection H as <-.
  destruct (Rev1_decodePayload_refined txt r res1 Hd) as (res2 & Hd2 & HL & HA).
  rewrite (Geocode_decoded txt httpGet postcode url r Hu Hg Hs), Hd2. simpl.
  unfold pointOf. now rewrite HL, HA.
Qed.

Lemma later_revision_keeps_successes_witness :
  Geocode plainText (respond 200 bodyLondon) "SW1A 1AA"
  = (GeoPoint.mk lonLondon latLondon, None).
Proof.
  apply (later_revision_keeps_successes plainText (respond 200 bodyLondon) "SW1A 1AA").
  - simpl. lia.
  - vm_compute. reflexivity.
Defined.

Lemma Rev1_decodePayload_followed txt r res1 e1 :
  Rev1.decodePayload txt r = (res1, e1) ->
  ~ isTypeError e1 ->
  exists res2, decodePayload txt r = (res2, e1) /\ coordinatesKept res1 res2.
Proof.
  unfold Rev1.decodePayload, decodePayload, ReadAll.
  destruct (readError (Body r)) as [re|] eqn:Hr.
  { intros H _. injection H as <- <-. eexists. split; [reflexivity | split; reflexivity]. }
  unfold Rev1.Decode, Decode.
  destruct (readValue (content (Body r))) as [v|e] eqn:Hv.
  - assert (HK : payloadKept Rev1.Payload.zero Payload.zero) by (repeat split).
    destruct (Payload_store_refines [] v _ _ HK) as [HP HQ].
    pose proof (Rev1_Payload_store_typeErrorOnly [] v Rev1.Payload.zero) as HT.
    destruct (Rev1.Payload.store [] v Rev1.Payload.zero) as [p1 d1].
    destruct (Payload.store [] v Payload.zero) as [p2 d2]. simpl in HP, HQ, HT.
    destruct HP as (HS & HE & HC).
    destruct d1 as [x|].
    + destruct x; try contradiction. simpl. intros H Hn. exfalso. apply Hn.
      injection H as _ <-. now eexists _, _, _.
    + rewrite (HQ eq_refl). simpl. rewrite <- HE, <- HS. intros H _.
      injection H as <- <-. eexists. split; [reflexivity | exact HC].
  - intros H _. injection H as <- <-. eexists. split; [reflexivity | split; reflexivity].
Qed.

(** X13. On a postcode longer than 4 bytes the two revisions of
    [Geocode] return the same point and the same error, unless the
    response has status 200 and the earlier revision's [decodePayload]
    reports a type error on its body: the revisions differ on nothing
    but what the earlier one cannot store. *)
Theorem revisions_differ_only_on_type_errors txt httpGet postcode :
  4 < String.length postcode ->
  Rev1.Geocode txt httpGet postcode = Geocode txt httpGet postcode
  \/ exists url r,
       geocodeURL postcode = (url, None) /\ httpGet url = inl r
       /\ StatusCode r = 200%Z
       /\ isTypeError (snd (Rev1.decodePayload txt r)).
Proof.
  intro Hlen.
  assert (HU : Rev1.geocodeURL postcode = geocodeURL postcode).
  { apply Nat.ltb_lt in Hlen. unfold Rev1.geocodeURL, geocodeURL. now rewrite Hlen. }
  unfold Rev1.Geocode, Geocode. rewrite HU.
  destruct (geocodeURL postcode) as [url [e|]] eqn:Hu; [now left|].
  destruct (httpGet url) as [r|e] eqn:Hg; [|now left].
  destruct (Z.eqb_spec (StatusCode r) 200) as [Hs|Hs]; [|now left]. simpl.
  destruct (Rev1.decodePayload txt r) as [res1 e1] eqn:Hd.
  assert (Hsame : ~ isTypeError e1 ->
                  (GeoPoint.mk (Rev1.Longitude res1) (Rev1.Latitude res1),
                   match e1 with
                   | Some e => Some (decorateGeocodingError txt e)
                   | None => None
                   end)
                  = (let '(result, err) := decodePayload txt r in
                     (GeoPoint.mk (Longitude result) (Latitude result),
                      match err with
                      | Some e => Some (decorateGeocodingError txt e)
                      | None => None
                      end))).
  { intro Hn. destruct (Rev1_decodePayload_followed txt r res1 e1 Hd Hn) as (res2 & -> & HL & HA).
    now rewrite HL, HA. }
  destruct e1 as [e|].
  - destruct e;
      try (right; exists url, r;
           split; [reflexivity|]; split; [exact Hg|]; split; [exact Hs|];
           rewrite Hd; now eexists _, _, _);
      left; apply Hsame; intros (? & ? & ? & H); discriminate H.
  - left. apply Hsame. intros (? & ? & ? & H). discriminate H.
Qed.

Lemma revisions_differ_only_on_type_errors_witness :
  Rev1.Geocode plainText (respond 200 bodyStatus404) "SW1A 1AA"
  = Geocode plainText (respond 200 bodyStatus404) "SW1A 1AA".
Proof.
  destruct (revisions_differ_only_on_type_errors plainText (respond 200 bodyStatus404)
              "SW1A 1AA" ltac:(simpl; lia))
    as [H | (url & r & _ & Hr & _ & (a & b & c & HT))]; [exact H|].
  injection Hr as <-. vm_compute in HT. discriminate HT.
Defined.

(** ** Keys are matched whatever their case *)

(** A key selects the field of its exact name, where there is one, as
    it does up to case. *)
Ltac exact_or_folded :=
  intro k; unfold findField, foldFind; cbn [find fieldName stringField intField float64Field
                                           interfaceField fieldOf];
  repeat match goal with
         | |- context [String.eqb ?n ?x] =>
             is_var x; destruct (String.eqb_spec n x) as [<- | _]; [reflexivity|]
         end;
  reflexivity.

Lemma Payload_findField_folded k :
  findField Payload.fields k = foldFind Payload.fields k.
Proof. revert k. unfold Payload.fields. exact_or_folded. Qed.

Lemma geocodeResult_findField_folded k :
  findField geocodeResultFields k = foldFind geocodeResultFields k.
Proof. revert k. unfold geocodeResultFields. exact_or_folded. Qed.

Lemma foldFind_fold {S} (fields : list (field S)) k k' :
  foldName k = foldName k' -> foldFind fields k = foldFind fields k'.
Proof. unfold foldFind. now intros ->. Qed.

Lemma object_sameKeys {S} (fields : list (field S)) :
  (forall k, findField fields k = foldFind fields k) ->
  forall ms1 ms2,
    sameKeysUpToCase ms1 ms2 ->
    forall ctx p, object fields ctx ms1 p = object fields ctx ms2 p.
Proof.
  intros HF ms1 ms2 H.
  induction H as [|[k1 v1] [k2 v2] ms1 ms2 [Hk Hv] _ IH]; intros ctx p; [reflexivity|].
  simpl in Hk, Hv. subst v2. simpl. rewrite !HF, (foldFind_fold fields k1 k2 Hk).
  destruct (foldFind fields k2) as [f|]; [|apply IH].
  destruct (fieldStore f ctx v1 p) as [c e]. now rewrite IH.
Qed.

Lemma Payload_field_sameMember f ctx v1 v2 p :
  In f Payload.fields ->
  (v1 = v2 \/ exists rs1 rs2, v1 = JObject rs1 /\ v2 = JObject rs2 /\ sameKeysUpToCase rs1 rs2) ->
  fieldStore f ctx v1 p = fieldStore f ctx v2 p.
Proof.
  intros Hin [-> | (rs1 & rs2 & -> & -> & H)]; [reflexivity|].
  unfold Payload.fields in Hin. cbn [In] in Hin.
  destruct Hin as [<- | [<- | [<- | []]]]; try reflexivity.
  simpl. unfold storeGeocodeResult, storeStruct.
  now rewrite (object_sameKeys geocodeResultFields geocodeResult_findField_folded rs1 rs2 H).
Qed.

Lemma Payload_object_sameMembers ms1 ms2 :
  Forall2 sameMember ms1 ms2 ->
  forall ctx p, object Payload.fields ctx ms1 p = object Payload.fields ctx ms2 p.
Proof.
  intro H. induction H as [|[k1 v1] [k2 v2] ms1 ms2 [Hk Hv] _ IH]; intros ctx p; [reflexivity|].
  simpl in Hk, Hv. simpl.
  rewrite !Payload_findField_folded, (foldFind_fold Payload.fields k1 k2 Hk).
  destruct (foldFind Payload.fields k2) as [f|] eqn:Hf; [|apply IH].
  apply find_some in Hf as [Hin _].
  rewrite (Payload_field_sameMember f ctx v1 v2 p Hin Hv).
  destruct (fieldStore f ctx v2 p) as [c e]. now rewrite IH.
Qed.

(** X12. [decodePayload] matches the keys of the body's object, and of
    the object under [result], whatever their case: two bodies whose
    members have, in order, the same keys up to case and the same values
    are decoded to the same result, and to the same error but for the
    field a type error names. *)
Theorem decodePayload_keys_up_to_case txt c1 c2 b1 b2 ms1 ms2 :
  readValue b1 = inl (JObject ms1) ->
  readValue b2 = inl (JObject ms2) ->
  Forall2 sameMember ms1 ms2 ->
  fst (decodePayload txt (mkResponse c1 (mkReadCloser b1 None)))
  = fst (decodePayload txt (mkResponse c2 (mkReadCloser b2 None)))
  /\ sameErrorUpToField
       (snd (decodePayload txt (mkResponse c1 (mkReadCloser b1 None))))
       (snd (decodePayload txt (mkResponse c2 (mkReadCloser b2 None)))).
Proof.
  intros H1 H2 H.
  assert (HE : decodePayload txt (mkResponse c1 (mkReadCloser b1 None))
               = decodePayload txt (mkResponse c2 (mkReadCloser b2 None))).
  { unfold decodePayload, ReadAll, Decode. simpl. rewrite H1, H2.
    unfold Payload.store, storeStruct.
    now rewrite (Payload_object_sameMembers ms1 ms2 H). }
  rewrite HE. split; [reflexivity|].
  destruct (snd (decodePayload txt (mkResponse c2 (mkReadCloser b2 None)))) as [e|];
    [|reflexivity].
  destruct e; simpl; auto.
Qed.

Lemma decodePayload_keys_up_to_case_witness :
  fst (decodePayload plainText (mkResponse 200 (mkReadCloser bodyLondonCased None)))
  = fst (decodePayload plainText (mkResponse 200 (mkReadCloser bodyLondon None))).
Proof.
  refine (proj1 (decodePayload_keys_up_to_case plainText 200 200 bodyLondonCased bodyLondon
            [("STATUS", JNumber "200");
             ("Result", JObject [("Longitude", JNumber "-0.127");
                                 ("LATITUDE", JNumber "51.507")])]
            [("status", JNumber "200");
             ("result", JObject [("longitude", JNumber "-0.127");
                                 ("latitude", JNumber "51.507")])]
            eq_refl eq_refl _)).
  apply Forall2_cons; [split; [reflexivity | left; reflexivity]|].
  apply Forall2_cons; [|apply Forall2_nil].
  split; [reflexivity|]. right. eexists _, _. split; [reflexivity|]. split; [reflexivity|].
  repeat (apply Forall2_cons; [split; reflexivity|]). apply Forall2_nil.
Defined.
